(** * TRAVIX: the enrichment pipeline of [index.js], embedded in Rocq

    The server of [index.js] composes calls to an upstream travel API and
    decorates what comes back.  This development embeds the handlers and
    their helper functions as functions over JSON-like values in a small
    state-and-exception monad, and proves the properties the design
    document states about them.

    Conventions of the embedding:
    - a JavaScript value is a [value]; objects are finite maps from
      property names to values, an absent key reads as [undefined];
    - a computation that may throw returns an [outcome];
    - an [async] function is a computation of the monad [M], which threads
      the process-wide access token and the trace of upstream calls;
    - the upstream API is an oracle: given the calls made so far and the
      next call, it either rejects or answers with [response.data]. *)

From Stdlib Require Import ZArith Lia Ascii String.
From stdpp Require Import gmap strings list fin_maps pretty.

Set Warnings "-register-all".
Local Open Scope Z_scope.
Local Open Scope string_scope.
Local Open Scope list_scope.

(** ** JavaScript values *)

Module JS.

(** Numbers are the integers: the only arithmetic of [index.js] is on
    millisecond timestamps and minute counts.  Objects and arrays come
    from parsed JSON, so they form a tree without sharing. *)
Inductive value : Type :=
| VUndef
| VNull
| VBool (b : bool)
| VNum (n : Z)
| VStr (s : string)
| VArr (elems : list value)
| VObj (props : gmap string value).

(** A completion: a normal result or a thrown exception.  The handlers
    only log the exception, so it carries no payload. *)
Inductive outcome (A : Type) : Type :=
| Ok (a : A)
| Throw.
Arguments Ok {A} a.
Arguments Throw {A}.

Definition obind {A B} (o : outcome A) (f : A -> outcome B) : outcome B :=
  match o with
  | Ok a => f a
  | Throw => Throw
  end.

(** [ToBoolean] *)
Definition truthy (v : value) : bool :=
  match v with
  | VUndef | VNull => false
  | VBool b => b
  | VNum n => negb (n =? 0)%Z
  | VStr s => negb (String.eqb s "")
  | VArr _ | VObj _ => true
  end.

(** [a || b] *)
Definition or_else (a b : value) : value := if truthy a then a else b.

(** [a === b].  Two objects (or arrays) are strictly equal only when they
    are the same reference; every comparison of [index.js] is between
    values parsed from different responses or from the request, so two
    objects never are. *)
Definition strict_eq (a b : value) : bool :=
  match a, b with
  | VUndef, VUndef => true
  | VNull, VNull => true
  | VBool x, VBool y => Bool.eqb x y
  | VNum x, VNum y => (x =? y)%Z
  | VStr x, VStr y => String.eqb x y
  | _, _ => false
  end.

(** [arr.includes(x)] (SameValueZero, which is [===] away from NaN). *)
Definition includes (arr : list value) (x : value) : bool :=
  existsb (fun y => strict_eq y x) arr.

(** [arr.find(p)] for a predicate that may throw. *)
Fixpoint find_by (p : value -> outcome bool) (arr : list value) : outcome value :=
  match arr with
  | [] => Ok VUndef
  | x :: rest =>
      obind (p x) (fun b => if b then Ok x else find_by p rest)
  end.

(** [[...new Set(arr)]]: the elements in order of first appearance. *)
Fixpoint unique_from (seen arr : list value) : list value :=
  match arr with
  | [] => []
  | x :: rest =>
      if includes seen x then unique_from seen rest
      else x :: unique_from (seen ++ [x]) rest
  end.
Definition unique (arr : list value) : list value := unique_from [] arr.

Definition chars (s : string) : list value :=
  (fun c => VStr (String c EmptyString)) <$> String.list_ascii_of_string s.

(** [v.k]: reading a property of [undefined] or [null] throws.  Of the
    members that arrays and strings inherit, only [length] is modelled. *)
Definition get_prop (v : value) (k : string) : outcome value :=
  match v with
  | VUndef | VNull => Throw
  | VObj m => Ok (default VUndef (m !! k))
  | VArr l =>
      Ok (if String.eqb k "length" then VNum (Z.of_nat (length l)) else VUndef)
  | VStr s =>
      Ok (if String.eqb k "length" then VNum (Z.of_nat (String.length s)) else VUndef)
  | VBool _ | VNum _ => Ok VUndef
  end.

(** [v[i]] for an index literal. *)
Definition get_index (v : value) (i : nat) : outcome value :=
  match v with
  | VUndef | VNull => Throw
  | VArr l => Ok (default VUndef (l !! i))
  | VObj m => Ok (default VUndef (m !! pretty i))
  | VStr s => Ok (default VUndef (chars s !! i))
  | VBool _ | VNum _ => Ok VUndef
  end.

(** [v.k = x] in sloppy mode: writing to [undefined] or [null] throws, a
    write to another primitive is dropped.  Named properties of arrays
    are outside the model. *)
Definition set_prop (v : value) (k : string) (x : value) : outcome value :=
  match v with
  | VUndef | VNull => Throw
  | VObj m => Ok (VObj (<[k := x]> m))
  | _ => Ok v
  end.

(** The own enumerable properties copied by [{...v}]. *)
Definition spread (v : value) : gmap string value :=
  match v with
  | VObj m => m
  | VArr l => list_to_map (imap (fun i x => (pretty i, x)) l)
  | VStr s => list_to_map (imap (fun i x => (pretty i, x)) (chars s))
  | _ => ∅
  end.

(** An object literal. *)
Definition obj (fields : list (string * value)) : value :=
  VObj (list_to_map (reverse fields)).

(** The receiver of [.map], [.filter], [.find]: anything but an array has
    no such method and the call throws. *)
Definition as_array (v : value) : outcome (list value) :=
  match v with
  | VArr l => Ok l
  | _ => Throw
  end.

Definition is_array (v : value) : bool :=
  match v with VArr _ => true | _ => false end.

(** [ToString], as used by template literals. *)
Fixpoint to_String (v : value) : string :=
  match v with
  | VUndef => "undefined"
  | VNull => "null"
  | VBool true => "true"
  | VBool false => "false"
  | VNum n => pretty n
  | VStr s => s
  | VArr l =>
      String.concat ","
        (map (fun e => match e with
                       | VUndef | VNull => ""
                       | _ => to_String e
                       end) l)
  | VObj _ => "[object Object]"
  end.

(** A JavaScript number that may be NaN. *)
Definition num := option Z.

Definition num_to_String (n : num) : string :=
  match n with
  | Some z => pretty z
  | None => "NaN"
  end.

(** [a - b] *)
Definition num_sub (a b : num) : num :=
  match a, b with
  | Some x, Some y => Some (x - y)
  | _, _ => None
  end.

(** [Math.floor(a / k)] for a positive integer literal [k]. *)
Definition floor_div (a : num) (k : Z) : num :=
  match a with
  | Some x => Some (x / k)
  | None => None
  end.

(** [a % k]: the remainder takes the sign of the dividend. *)
Definition remainder (a : num) (k : Z) : num :=
  match a with
  | Some x => Some (Z.rem x k)
  | None => None
  end.

Definition is_upper_target (c : ascii) : bool :=
  let n := nat_of_ascii c in (97 <=? n)%nat && (n <=? 122)%nat.

(** [s.toUpperCase()] for a string of ASCII characters, where the letters
    with a capital are [a] to [z].  On other strings the method also maps
    the cased letters beyond ASCII, which this function leaves alone: the
    statements about it are for ASCII strings. *)
Fixpoint toUpperCase (s : string) : string :=
  match s with
  | EmptyString => EmptyString
  | String c rest =>
      String (if is_upper_target c then ascii_of_nat (nat_of_ascii c - 32) else c)
             (toUpperCase rest)
  end.

(** [s.split(sep)] for a one-character separator. *)
Fixpoint split (sep : ascii) (s : string) : list string :=
  match s with
  | EmptyString => [EmptyString]
  | String c rest =>
      if Ascii.eqb c sep then EmptyString :: split sep rest
      else match split sep rest with
           | piece :: pieces => String c piece :: pieces
           | [] => [String c EmptyString]
           end
  end.

End JS.
Export JS.


Notation "'let?' x ':=' c 'in' k" := (obind c (fun x => k))
  (at level 10, x name, c at level 100, k at level 200,
   format "'[v' 'let?'  x  ':='  c  'in' '/' k ']'").

(** [v.k1.k2 = x], written back into [v] *)
Definition set_prop2 (v : value) (k1 k2 : string) (x : value) : outcome value :=
  let? inner := get_prop v k1 in
  let? inner' := set_prop inner k2 x in
  set_prop v k1 inner'.

(** [arr.map(f)] and [arr.filter(p)] for callbacks that may throw *)
Fixpoint map_by {A} (f : value -> outcome A) (arr : list value) : outcome (list A) :=
  match arr with
  | [] => Ok []
  | x :: rest =>
      let? y := f x in
      let? ys := map_by f rest in
      Ok (y :: ys)
  end.

Fixpoint filter_by (p : value -> outcome bool) (arr : list value) : outcome (list value) :=
  match arr with
  | [] => Ok []
  | x :: rest =>
      let? keep := p x in
      let? kept := filter_by p rest in
      Ok (if keep then x :: kept else kept)
  end.

(** ** Upstream calls and the monad of [async] functions *)

Inductive call : Type :=
| GET (url authorization : string) (params : value)
| POST (url authorization : string) (body : value)
| POST_form (url : string) (form : value).

(** The process-wide state: the [accessToken] variable of [index.js], and
    the upstream calls issued so far, oldest first. *)
Record world : Type := World { accessToken : value; calls : list call }.

Definition M (A : Type) : Type := world -> outcome A * world.

Definition ret {A} (a : A) : M A := fun w => (Ok a, w).

Definition throw {A} : M A := fun w => (Throw, w).

Definition bind {A B} (m : M A) (f : A -> M B) : M B :=
  fun w =>
    match m w with
    | (Ok a, w') => f a w'
    | (Throw, w') => (Throw, w')
    end.

Definition lift {A} (o : outcome A) : M A := fun w => (o, w).

(** [try { body } catch (error) { handler }] *)
Definition try_catch {A} (body handler : M A) : M A :=
  fun w =>
    match body w with
    | (Ok a, w') => (Ok a, w')
    | (Throw, w') => handler w'
    end.

Notation "'let*' x ':=' c 'in' k" := (bind c (fun x => k))
  (at level 10, x name, c at level 100, k at level 200,
   format "'[v' 'let*'  x  ':='  c  'in' '/' k ']'").

(** The loop body run over each element in turn. *)
Fixpoint for_each {A} (body : value -> M A) (arr : list value) : M (list A) :=
  match arr with
  | [] => ret []
  | x :: rest =>
      let* y := body x in
      let* ys := for_each body rest in
      ret (y :: ys)
  end.

(** [for (let x of v) { body }] where the body mutates [x] in place: the
    array afterwards holds the mutated elements.  The characters of a
    string are primitives, which the body cannot change. *)
Definition for_of_update (body : value -> M value) (v : value) : M value :=
  match v with
  | VArr l => let* l' := for_each body l in ret (VArr l')
  | VStr s => let* _ := for_each body (chars s) in ret v
  | _ => throw
  end.

(** What a route hands to Express. *)
Inductive response : Type :=
| Render (view : string) (locals : value)
| Send (status : Z) (body : string)
| Json (status : Z) (body : value).

Definition locationsUrl := "https://test.api.amadeus.com/v1/reference-data/locations".
Definition airlinesUrl := "https://test.api.amadeus.com/v1/reference-data/airlines".
Definition flightOffersUrl := "https://test.api.amadeus.com/v2/shopping/flight-offers".
Definition flightPricingUrl := "https://test.api.amadeus.com/v1/shopping/flight-offers/pricing".
Definition flightOrdersUrl := "https://test.api.amadeus.com/v1/booking/flight-orders".
Definition authUrl := "https://test.api.amadeus.com/v1/security/oauth2/token".

(** [{ city, airport }] as returned by [getCityAndAirportName] *)
Record location : Type := Location { city : value; airport : value }.

(** ** Percent-encoding

    [encodeURIComponent] on a string held as its UTF-8 bytes: the bytes of
    the letters, the digits and [- _ . ! ~ * ' ( )] stay, every other byte
    becomes [%XX].  Such a string has no lone surrogate, so nothing is
    thrown.  Only the concrete runs use it. *)

Module Uri.

Definition unreserved (c : ascii) : bool :=
  let n := nat_of_ascii c in
  ((65 <=? n)%nat && (n <=? 90)%nat) || ((97 <=? n)%nat && (n <=? 122)%nat)
  || ((48 <=? n)%nat && (n <=? 57)%nat)
  || existsb (Ascii.eqb c) (String.list_ascii_of_string "-_.!~*'()").

Definition hex (n : nat) : ascii :=
  match String.get n "0123456789ABCDEF" with
  | Some c => c
  | None => "0"%char
  end.

Fixpoint percent (s : string) : string :=
  match s with
  | EmptyString => EmptyString
  | String c rest =>
      if unreserved c then String c (percent rest)
      else String "%" (String (hex (nat_of_ascii c / 16))
                         (String (hex (nat_of_ascii c mod 16)) (percent rest)))
  end.

Definition encodeURIComponent (s : string) : outcome string := Ok (percent s).

End Uri.

(** ** A clock for date-time strings

    [Date_of] is left to the JavaScript engine.  For concrete runs we use
    the time value of the strings [YYYY-MM-DDTHH:mm] and
    [YYYY-MM-DDTHH:mm:ss], read as local time in a zone at a fixed offset
    from UTC; anything else is an invalid date. *)

Module Clock.

Local Open Scope Z_scope.

Definition digit (c : ascii) : option Z :=
  let n := nat_of_ascii c in
  if (48 <=? n)%nat && (n <=? 57)%nat then Some (Z.of_nat n - 48) else None.

Fixpoint number (acc : Z) (s : string) : option Z :=
  match s with
  | EmptyString => Some acc
  | String c rest =>
      match digit c with
      | Some d => number (10 * acc + d) rest
      | None => None
      end
  end.

Definition field (s : string) (start len : nat) : option Z :=
  let piece := String.substring start len s in
  if (String.length piece =? len)%nat then number 0 piece else None.

Definition is_leap (y : Z) : bool :=
  ((y mod 4 =? 0) && negb (y mod 100 =? 0)) || (y mod 400 =? 0).

Definition days_in_month (y m : Z) : Z :=
  if m =? 2 then (if is_leap y then 29 else 28)
  else if (m =? 4) || (m =? 6) || (m =? 9) || (m =? 11) then 30
  else 31.

(** Days from 1970-01-01 to the civil date [y-m-d]. *)
Definition days_from_civil (y m d : Z) : Z :=
  let y' := if m <=? 2 then y - 1 else y in
  let era := y' / 400 in
  let yoe := y' - era * 400 in
  let doy := (153 * (if 2 <? m then m - 3 else m + 9) + 2) / 5 + d - 1 in
  let doe := yoe * 365 + yoe / 4 - yoe / 100 + doy in
  era * 146097 + doe - 719468.

Definition parse (offset_minutes : Z) (s : string) : num :=
  let n := String.length s in
  if negb ((n =? 16)%nat || (n =? 19)%nat) then None
  else if negb (String.eqb (String.substring 4 1 s) "-"
                && String.eqb (String.substring 7 1 s) "-"
                && String.eqb (String.substring 10 1 s) "T"
                && String.eqb (String.substring 13 1 s) ":"
                && ((n =? 16)%nat || String.eqb (String.substring 16 1 s) ":"))
  then None
  else
    match field s 0 4, field s 5 2, field s 8 2, field s 11 2, field s 14 2,
          (if (n =? 16)%nat then Some 0 else field s 17 2) with
    | Some y, Some m, Some d, Some h, Some mi, Some sec =>
        if (1 <=? m) && (m <=? 12) && (1 <=? d) && (d <=? days_in_month y m)
           && (h <=? 23) && (mi <=? 59) && (sec <=? 59)
        then Some ((((days_from_civil y m d * 24 + h) * 60 + mi - offset_minutes) * 60
                    + sec) * 1000)
        else None
    | _, _, _, _, _, _ => None
    end.

Definition Date_of (offset_minutes : Z) (v : value) : num :=
  match v with
  | VStr s => parse offset_minutes s
  | _ => None
  end.

End Clock.

(** ** Vocabulary of the statements *)

(** The state after the calls [cs] have been issued from [w]. *)
Definition issued (w : world) (cs : list call) : world :=
  World (accessToken w) (calls w ++ cs).

(** The [Authorization] header sent from state [w]. *)
Definition authorization_of (w : world) : string :=
  "Bearer " +:+ to_String (accessToken w).

(** What a lookup falls back to. *)
Definition unknownAt (iataCode : value) : location :=
  Location iataCode (VStr "Unknown Airport").

(** [v.k1.k2...], for reading the result of a run. *)
Fixpoint read (v : value) (path : list string) : outcome value :=
  match path with
  | [] => Ok v
  | k :: rest => let? inner := get_prop v k in read inner rest
  end.

(** ** Sample data *)

Module Samples.

(** A small upstream for concrete runs: four airports, two airlines, four
    offers between New York and Europe, and one booking. *)

Definition start : world := World (VStr "secret") [].

Definition place (code cityName name : string) : value :=
  obj [("iataCode", VStr code);
       ("name", VStr name);
       ("address", obj [("cityName", VStr cityName)])].

Definition places : list value :=
  [place "JFK" "New York" "John F Kennedy Intl";
   place "LGA" "New York" "LaGuardia";
   place "LHR" "London" "Heathrow";
   place "CDG" "Paris" "Charles de Gaulle"].

Definition carrier (code commonName : string) : value :=
  obj [("iataCode", VStr code); ("commonName", VStr commonName)].

Definition carriers : list value :=
  [carrier "BA" "British Airways"; carrier "AF" "Air France"].

Definition endpoint (code at_ : string) (terminal : option string) : value :=
  obj ([("iataCode", VStr code); ("at", VStr at_)]
       ++ match terminal with
          | Some t => [("terminal", VStr t)]
          | None => []
          end).

Definition segment (id carrierCode : string) (departure arrival : value) : value :=
  obj [("id", VStr id); ("carrierCode", VStr carrierCode);
       ("departure", departure); ("arrival", arrival)].

Definition offer (id total : string) (segments : list value) : value :=
  obj [("id", VStr id);
       ("price", obj [("total", VStr total)]);
       ("itineraries", VArr [obj [("duration", VStr "PT7H"); ("segments", VArr segments)]])].

Definition direct (id carrierCode origin destination : string) : value :=
  offer id "420.00"
    [segment "1" carrierCode
       (endpoint origin "2024-01-01T10:00" None)
       (endpoint destination "2024-01-01T12:30" (Some "5"))].

Definition jfk_lhr : value := direct "1" "BA" "JFK" "LHR".
Definition jfk_cdg : value := direct "2" "AF" "JFK" "CDG".
Definition lga_lhr : value := direct "3" "BA" "LGA" "LHR".
Definition lga_cdg : value := direct "4" "ZZ" "LGA" "CDG".

Definition offers : list value := [jfk_lhr; jfk_cdg; lga_lhr; lga_cdg].

(** An offer of two legs flown by the same carrier. *)
Definition connecting : value :=
  offer "9" "510.00"
    [segment "1" "BA"
       (endpoint "JFK" "2024-01-01T10:00" (Some "7"))
       (endpoint "LHR" "2024-01-01T22:05" None);
     segment "2" "BA"
       (endpoint "LHR" "2024-01-02T07:15" (Some "5"))
       (endpoint "CDG" "2024-01-02T09:35" (Some "2E"))].

Definition booking : value :=
  obj [("data", obj [("id", VStr "BK1"); ("flightOffers", VArr [connecting])])].

Definition matching (key : value) (records : list value) : list value :=
  List.filter
    (fun r => match get_prop r "iataCode" with
              | Ok code => strict_eq code key
              | Throw => false
              end) records.

Definition param (params : value) (k : string) : value :=
  match get_prop params k with
  | Ok v => v
  | Throw => VUndef
  end.

(** The airline "ZZ" cannot be looked up; every other call is answered. *)
Definition api (history : list call) (c : call) : option value :=
  match c with
  | GET url _ params =>
      if String.eqb url locationsUrl
      then Some (obj [("data", VArr (matching (param params "keyword") places))])
      else if String.eqb url airlinesUrl
      then (if strict_eq (param params "airlineCodes") (VStr "ZZ") then None
            else Some (obj [("data",
                            VArr (matching (param params "airlineCodes") carriers))]))
      else if String.eqb url flightOffersUrl
      then Some (obj [("data", VArr (offers ++ [connecting]))])
      else Some booking
  | POST url _ body =>
      if String.eqb url flightPricingUrl
      then Some (obj [("data", obj [("flightOffers", param (param body "data") "flightOffers")])])
      else Some booking
  | POST_form _ _ => Some (obj [("access_token", VStr "secret")])
  end.

(** An upstream that answers every lookup with an empty list. *)
Definition nothing (history : list call) (c : call) : option value :=
  Some (obj [("data", VArr [])]).

(** An upstream that rejects every call. *)
Definition down (history : list call) (c : call) : option value := None.

(** An offer flown by a carrier that upstream knows nothing about. *)
Definition jfk_lhr_unknown : value := direct "5" "QQ" "JFK" "LHR".

Definition request (name : string) : gmap string value :=
  list_to_map
    [("travelerName", VStr name); ("travelerEmail", VStr "mary@example.org");
     ("travelerPhone", VStr "5550100"); ("travelerDOB", VStr "1990-04-01");
     ("travelerGender", VStr "female"); ("offerId", VStr "1");
     ("originCode", VStr "JFK"); ("destinationCode", VStr "LHR");
     ("departureDate", VStr "2024-01-01")].

Definition connecting_query : gmap string value :=
  list_to_map
    [("offerId", VStr "9"); ("originCode", VStr "JFK");
     ("destinationCode", VStr "CDG"); ("departureDate", VStr "2024-01-01")].

Definition details_query : gmap string value :=
  list_to_map
    [("offerId", VStr "1"); ("originCode", VStr "JFK");
     ("destinationCode", VStr "LHR"); ("departureDate", VStr "2024-01-01")].

(** What the airline lookup answers for a code, whenever it is asked. *)
Definition airline_directory (code : value) : option value :=
  api [] (GET airlinesUrl "Bearer secret" (obj [("airlineCodes", code)])).

(** [v > 0] on numbers. *)
Definition positive (v : value) : bool :=
  match v with
  | VNum n => (0 <? n)%Z
  | _ => false
  end.

(** An upstream whose locations have a name and no address. *)
Definition nameless (history : list call) (c : call) : option value :=
  Some (obj [("data", VArr [obj [("iataCode", VStr "XXX"); ("name", VStr "Somewhere")]])]).

(** An upstream whose airline records carry a code and no name. *)
Definition anonymous (history : list call) (c : call) : option value :=
  Some (obj [("data", VArr [obj [("iataCode", VStr "BA")]])]).

(** The state of a server that has no token yet. *)
Definition fresh : world := World (VStr "") [].

(** An upstream whose search result ends with an offer that has no
    itineraries. *)
Definition broken (history : list call) (c : call) : option value :=
  match c with
  | GET url _ _ =>
      if String.eqb url flightOffersUrl
      then Some (obj [("data", VArr [jfk_lhr; obj [("id", VStr "8")]])])
      else api history c
  | _ => api history c
  end.

(** An upstream that rejects every [POST]. *)
Definition read_only (history : list call) (c : call) : option value :=
  match c with
  | GET _ _ _ => api history c
  | _ => None
  end.

Definition unknown_offer_query : gmap string value :=
  <["offerId" := VStr "77"]> details_query.

Definition booking_query : gmap string value :=
  list_to_map
    [("name", VStr "Mary Smith"); ("email", VStr "mary@example.org");
     ("phone", VStr "5550100"); ("dob", VStr "1990-04-01");
     ("gender", VStr "female"); ("bookingId", VStr "BK1")].

Definition keyword_query : gmap string value := {["query" := VStr "XXX"]}.

(** The second leg of a connection, flown by another carrier. *)
Definition second_leg : value :=
  segment "2" "AF"
    (endpoint "LHR" "2024-01-02T07:15" (Some "5"))
    (endpoint "CDG" "2024-01-02T09:35" (Some "2E")).

(** An upstream whose locations have a name and an empty city name. *)
Definition cityless (history : list call) (c : call) : option value :=
  Some (obj [("data", VArr [place "XXX" "" "Somewhere"])]).

End Samples.

(** ** The functions and routes of [index.js] *)

Section Server.

(** The upstream API: [upstream history c] is [Some d] when call [c],
    issued after the calls of [history], resolves with [response.data]
    equal to [d], and [None] when the request is rejected. *)
Context (upstream : list call -> call -> option value).

(** The time value of [new Date(v)], in milliseconds; NaN for an invalid
    date. *)
Context (Date_of : value -> num).

(** [v > 0] for the value of a [length] property. *)
Context (greater_than_zero : value -> bool).

(** [encodeURIComponent(s)]: the encoded text, or the [URIError] that it
    throws on a string with a lone surrogate. *)
Context (encodeURIComponent : string -> outcome string).

(** [process.env.AMADEUS_CLIENT_ID] and [process.env.AMADEUS_CLIENT_SECRET] *)
Context (AMADEUS_CLIENT_ID AMADEUS_CLIENT_SECRET : value).

(** [await axios.get(...)] or [await axios.post(...)], yielding
    [response.data] *)
Definition axios (c : call) : M value :=
  fun w =>
    (match upstream (calls w) c with
     | Some d => Ok d
     | None => Throw
     end,
     World (accessToken w) (calls w ++ [c])).

(** [`Bearer ${accessToken}`] *)
Definition bearer : M string :=
  fun w => (Ok ("Bearer " +:+ to_String (accessToken w)), w).

(** Reading and assigning the variable [accessToken] *)
Definition getToken : M value := fun w => (Ok (accessToken w), w).

Definition setToken (token : value) : M unit :=
  fun w => (Ok tt, World token (calls w)).

Definition authenticateAmadeus : M unit :=
  try_catch
    (let* data :=
       axios (POST_form authUrl
                (obj [("grant_type", VStr "client_credentials");
                      ("client_id", AMADEUS_CLIENT_ID);
                      ("client_secret", AMADEUS_CLIENT_SECRET)])) in
     let* token := lift (get_prop data "access_token") in
     setToken token)
    (ret tt).

(** The middleware in front of every route. *)
Definition ensureAuthenticated {A} (next : M A) : M A :=
  let* token := getToken in
  let* _ := (if truthy token then ret tt else authenticateAmadeus) in
  next.

(** [flight.itineraries[0].segments[0]] *)
Definition firstSegment (flight : value) : outcome value :=
  let? itineraries := get_prop flight "itineraries" in
  let? itinerary := get_index itineraries 0 in
  let? segments := get_prop itinerary "segments" in
  get_index segments 0.

Definition firstCarrierCode (flight : value) : outcome value :=
  let? segment := firstSegment flight in
  get_prop segment "carrierCode".

(** Lines 98-102: the entry pushed for a resolved airline. *)
Definition airlineEntry (data : value) : outcome value :=
  let? records := get_prop data "data" in
  let? airlineData := get_index records 0 in
  let? iataCode := get_prop airlineData "iataCode" in
  let? commonName := get_prop airlineData "commonName" in
  let? name :=
    (if truthy commonName then Ok commonName
     else get_prop airlineData "officialName") in
  Ok (obj [("code", iataCode); ("name", name)]).

Definition airlineCall (authorization : string) (code : value) : call :=
  GET airlinesUrl authorization (obj [("airlineCodes", code)]).

(** The [for (const code of uniqueCarrierCodes)] loop, with the array
    [airlines] built so far. *)
Fixpoint resolveAirlines (codes airlines : list value) : M (list value) :=
  match codes with
  | [] => ret airlines
  | code :: rest =>
      let* airlines' :=
        try_catch
          (let* authorization := bearer in
           let* data := axios (airlineCall authorization code) in
           let* entry := lift (airlineEntry data) in
           ret (airlines ++ [entry]))
          (ret airlines) in
      resolveAirlines rest airlines'
  end.

Definition getAirlinesFromFlightOffers (flights : list value) : M (list value) :=
  let* carrierCodes := lift (map_by firstCarrierCode flights) in
  resolveAirlines (unique carrierCodes) [].

Definition locationCall (authorization : string) (keyword : value) (subType : string) : call :=
  GET locationsUrl authorization
    (obj [("keyword", keyword); ("subType", VStr subType)]).

Definition getCityNameFromIATA (iataCode : value) : M value :=
  try_catch
    (let* authorization := bearer in
     let* data := axios (locationCall authorization iataCode "AIRPORT,CITY") in
     let* nonEmpty :=
       lift (if truthy data
             then let? records := get_prop data "data" in
                  let? len := get_prop records "length" in
                  Ok (greater_than_zero len)
             else Ok false) in
     if (nonEmpty : bool)
     then lift (let? records := get_prop data "data" in
                let? first := get_index records 0 in
                let? address := get_prop first "address" in
                let? cityName := get_prop address "cityName" in
                Ok (or_else cityName iataCode))
     else ret iataCode)
    (ret iataCode).

(** Line 220 *)
Definition airportCodes (data : value) : outcome (list value) :=
  let? records := get_prop data "data" in
  let? airports := as_array records in
  map_by (fun airport => get_prop airport "iataCode") airports.

Definition getRelatedAirportCodes (cityCode : value) : M (list value) :=
  try_catch
    (let* authorization := bearer in
     let* data := axios (locationCall authorization cityCode "AIRPORT") in
     lift (airportCodes data))
    (ret [cityCode]).

(** Lines 235-239 *)
Definition firstLocation (iataCode : value) (data : value) : outcome location :=
  let? records := get_prop data "data" in
  let? location := get_index records 0 in
  let? address := get_prop location "address" in
  let? cityName := get_prop address "cityName" in
  let? name := get_prop location "name" in
  Ok (Location (or_else cityName iataCode) (or_else name (VStr "Unknown Airport"))).

Definition getCityAndAirportName (iataCode : value) : M location :=
  try_catch
    (let* authorization := bearer in
     let* data := axios (locationCall authorization iataCode "AIRPORT,CITY") in
     lift (firstLocation iataCode data))
    (ret (Location iataCode (VStr "Unknown Airport"))).

(** Lines 134-138: the callback of [flightData.data.filter]. *)
Definition departsAndArrives (originCode : value) (destinationCodes : list value)
    (flight : value) : outcome bool :=
  let? segment := firstSegment flight in
  let? departure := get_prop segment "departure" in
  let? departureCode := get_prop departure "iataCode" in
  let? segment' := firstSegment flight in
  let? arrival := get_prop segment' "arrival" in
  let? arrivalCode := get_prop arrival "iataCode" in
  Ok (strict_eq departureCode originCode && includes destinationCodes arrivalCode).

Definition filteredFlights (originCode : value) (destinationCodes : list value)
    (flightData : value) : outcome (list value) :=
  let? offers := get_prop flightData "data" in
  let? offers := as_array offers in
  filter_by (departsAndArrives originCode destinationCodes) offers.

Definition query_param (query : gmap string value) (k : string) : value :=
  default VUndef (query !! k).

Definition searchParams (originCode destinationCode departureDate : value) : value :=
  obj [("originLocationCode", originCode);
       ("destinationLocationCode", destinationCode);
       ("departureDate", departureDate);
       ("adults", VNum 1)].

(** [app.get('/flight-offers')] *)
Definition flight_offers (query : gmap string value) : M response :=
  let originCode := query_param query "originCode" in
  let destinationCode := query_param query "destinationCode" in
  let departureDate := query_param query "departureDate" in
  try_catch
    (let* authorization := bearer in
     let* flightData :=
       axios (GET flightOffersUrl authorization
                (searchParams originCode destinationCode departureDate)) in
     let* originCity := getCityNameFromIATA originCode in
     let* destinationCity := getCityNameFromIATA destinationCode in
     let* destinationCodes := getRelatedAirportCodes destinationCode in
     let* flights := lift (filteredFlights originCode destinationCodes flightData) in
     let* airlines := getAirlinesFromFlightOffers flights in
     ret (Render "flight-offers"
            (obj [("title", VStr "Flight Offers");
                  ("flights", VArr flights);
                  ("originCode", originCode);
                  ("destinationCode", destinationCode);
                  ("originCity", originCity);
                  ("destinationCity", destinationCity);
                  ("airlines", VArr airlines);
                  ("query", VObj query)])))
    (ret (Send 500 "Error fetching flight offers")).

(** Lines 300-301: the display name of the segment's carrier. *)
Definition airlineNameOf (airlines : list value) (segment : value) : outcome value :=
  let? airline :=
    find_by (fun a =>
               let? code := get_prop a "code" in
               let? carrierCode := get_prop segment "carrierCode" in
               Ok (strict_eq code carrierCode)) airlines in
  if truthy airline then get_prop airline "name"
  else get_prop segment "carrierCode".

(** Lines 306-309, from the two time values.  The time values are whole
    milliseconds, and the code computes on them in floating point: for
    time values less than 2^53 milliseconds apart the subtraction is exact
    and each division followed by [Math.floor] is the integer quotient,
    which is what this function computes.  Further apart the code rounds;
    the statements about a duration carry the bound as a hypothesis. *)
Definition flightDuration (departureTime arrivalTime : num) : string :=
  let duration := floor_div (num_sub arrivalTime departureTime) (1000 * 60) in
  let hours := floor_div duration 60 in
  let minutes := remainder duration 60 in
  num_to_String hours +:+ "h " +:+ num_to_String minutes +:+ "m".

(** Lines 292-309: the assignments to one segment, once its two
    locations are known. *)
Definition decorate (airlines : list value) (departureLocation arrivalLocation : location)
    (segment : value) : outcome value :=
  let? segment := set_prop2 segment "departure" "cityName" (city departureLocation) in
  let? segment := set_prop2 segment "departure" "airportName" (airport departureLocation) in
  let? departure := get_prop segment "departure" in
  let? terminal := get_prop departure "terminal" in
  let? segment :=
    set_prop2 segment "departure" "terminal" (or_else terminal (VStr "N/A")) in
  let? segment := set_prop2 segment "arrival" "cityName" (city arrivalLocation) in
  let? segment := set_prop2 segment "arrival" "airportName" (airport arrivalLocation) in
  let? arrival := get_prop segment "arrival" in
  let? terminal := get_prop arrival "terminal" in
  let? segment :=
    set_prop2 segment "arrival" "terminal" (or_else terminal (VStr "N/A")) in
  let? airlineName := airlineNameOf airlines segment in
  let? segment := set_prop segment "airlineName" airlineName in
  let? departure := get_prop segment "departure" in
  let? departureAt := get_prop departure "at" in
  let? arrival := get_prop segment "arrival" in
  let? arrivalAt := get_prop arrival "at" in
  set_prop segment "flightDuration"
    (VStr (flightDuration (Date_of departureAt) (Date_of arrivalAt))).

(** Lines 289-309: the body of the loop over the segments. *)
Definition enrichSegment (airlines : list value) (segment : value) : M value :=
  let* departure := lift (get_prop segment "departure") in
  let* departureCode := lift (get_prop departure "iataCode") in
  let* departureLocation := getCityAndAirportName departureCode in
  let* arrival := lift (get_prop segment "arrival") in
  let* arrivalCode := lift (get_prop arrival "iataCode") in
  let* arrivalLocation := getCityAndAirportName arrivalCode in
  lift (decorate airlines departureLocation arrivalLocation segment).

Definition enrichItinerary (airlines : list value) (itinerary : value) : M value :=
  let* segments := lift (get_prop itinerary "segments") in
  let* segments' := for_of_update (enrichSegment airlines) segments in
  lift (set_prop itinerary "segments" segments').

(** Lines 287-311: the enrichment loop, run on
    [flightDetails.data.flightOffers[0]]; the result is that offer after
    the loop has mutated its segments. *)
Definition enrichOffer (airlines : list value) (offer : value) : M value :=
  let* itineraries := lift (get_prop offer "itineraries") in
  let* itineraries' := for_of_update (enrichItinerary airlines) itineraries in
  lift (set_prop offer "itineraries" itineraries').

Definition findOffer (offerId : value) (data : value) : outcome value :=
  let? offers := get_prop data "data" in
  let? offers := as_array offers in
  find_by (fun offer => let? id := get_prop offer "id" in Ok (strict_eq id offerId))
    offers.

(** [app.get('/flight-details')] *)
Definition flight_details (query : gmap string value) : M response :=
  let offerId := query_param query "offerId" in
  if negb (truthy offerId) then ret (Send 400 "Flight offer ID is required")
  else
    try_catch
      (let* authorization := bearer in
       let* found :=
         axios (GET flightOffersUrl authorization
                  (searchParams (query_param query "originCode")
                     (query_param query "destinationCode")
                     (query_param query "departureDate"))) in
       let* flightOffer := lift (findOffer offerId found) in
       if negb (truthy flightOffer) then ret (Send 404 "Flight offer not found")
       else
         let* authorization := bearer in
         let* flightDetails :=
           axios (POST flightPricingUrl authorization
                    (obj [("data",
                           obj [("type", VStr "flight-offers-pricing");
                                ("flightOffers", VArr [flightOffer])])])) in
         let* airlines := getAirlinesFromFlightOffers [flightOffer] in
         let* priced :=
           lift (let? data := get_prop flightDetails "data" in
                 let? offers := get_prop data "flightOffers" in
                 get_index offers 0) in
         let* flight := enrichOffer airlines priced in
         lift (let? price := get_prop flight "price" in
               let? totalPrice := get_prop price "total" in
               let? totalTaxes := get_prop price "totalTaxes" in
               Ok (Render "flight-details"
                     (obj [("title", VStr "Flight Details");
                           ("flight", flight);
                           ("totalPrice", totalPrice);
                           ("totalTax", or_else totalTaxes (VStr "N/A"))]))))
      (ret (Send 500 "Error fetching flight details")).

(** [v.split(' ')]: only a string has the method. *)
Definition split_on_space (v : value) : outcome (list string) :=
  match v with
  | VStr s => Ok (split " " s)
  | _ => Throw
  end.

Definition piece (pieces : list string) (i : nat) : value :=
  match pieces !! i with
  | Some s => VStr s
  | None => VUndef
  end.

(** [v.toUpperCase()] *)
Definition upper (v : value) : outcome value :=
  match v with
  | VStr s => Ok (VStr (toUpperCase s))
  | _ => Throw
  end.

(** Lines 372-384: the single traveler of the booking payload. *)
Definition traveler (travelerName travelerEmail travelerPhone travelerDOB
    travelerGender : value) : outcome value :=
  let? pieces := split_on_space travelerName in
  let firstName := piece pieces 0 in
  let? pieces' := split_on_space travelerName in
  let lastName := or_else (piece pieces' 1) (VStr "") in
  let? gender := upper travelerGender in
  Ok (obj [("id", VStr "1");
           ("dateOfBirth", travelerDOB);
           ("name", obj [("firstName", firstName); ("lastName", lastName)]);
           ("gender", gender);
           ("contact",
            obj [("emailAddress", travelerEmail);
                 ("phones",
                  VArr [obj [("deviceType", VStr "MOBILE");
                             ("countryCallingCode", VStr "91");
                             ("number", travelerPhone)]])])]).

Definition bookingPayload (flightOffer travelerRecord : value) : value :=
  obj [("data",
        obj [("type", VStr "flight-order");
             ("flightOffers", VArr [flightOffer]);
             ("travelers", VArr [travelerRecord])])].

(** Line 406: the six values are encoded in turn. *)
Definition redirectUrl (travelerName travelerEmail travelerPhone travelerDOB
    travelerGender bookingId : value) : outcome string :=
  let? name := encodeURIComponent (to_String travelerName) in
  let? email := encodeURIComponent (to_String travelerEmail) in
  let? phone := encodeURIComponent (to_String travelerPhone) in
  let? dob := encodeURIComponent (to_String travelerDOB) in
  let? gender := encodeURIComponent (to_String travelerGender) in
  let? id := encodeURIComponent (to_String bookingId) in
  Ok ("/booked-flight?name=" +:+ name +:+ "&email=" +:+ email
      +:+ "&phone=" +:+ phone +:+ "&dob=" +:+ dob
      +:+ "&gender=" +:+ gender +:+ "&bookingId=" +:+ id).

Definition requiredFields : list string :=
  ["travelerName"; "travelerEmail"; "travelerPhone"; "travelerDOB";
   "travelerGender"; "offerId"; "originCode"; "destinationCode"; "departureDate"].

(** [app.post('/confirm-booking')], on the parsed JSON body *)
Definition confirm_booking (body : gmap string value) : M response :=
  let travelerName := query_param body "travelerName" in
  let travelerEmail := query_param body "travelerEmail" in
  let travelerPhone := query_param body "travelerPhone" in
  let travelerDOB := query_param body "travelerDOB" in
  let travelerGender := query_param body "travelerGender" in
  let offerId := query_param body "offerId" in
  let originCode := query_param body "originCode" in
  let destinationCode := query_param body "destinationCode" in
  let departureDate := query_param body "departureDate" in
  if negb (truthy travelerName) || negb (truthy travelerEmail)
     || negb (truthy travelerPhone) || negb (truthy travelerDOB)
     || negb (truthy travelerGender) || negb (truthy offerId)
     || negb (truthy originCode) || negb (truthy destinationCode)
     || negb (truthy departureDate)
  then ret (Json 400 (obj [("error", VStr "Missing required fields")]))
  else
    try_catch
      (let* authorization := bearer in
       let* found :=
         axios (GET flightOffersUrl authorization
                  (searchParams originCode destinationCode departureDate)) in
       let* flightOffer := lift (findOffer offerId found) in
       if negb (truthy flightOffer)
       then ret (Json 404 (obj [("error", VStr "Flight offer not found")]))
       else
         let* travelerRecord :=
           lift (traveler travelerName travelerEmail travelerPhone travelerDOB
                   travelerGender) in
         let* authorization := bearer in
         let* bookingData :=
           axios (POST flightOrdersUrl authorization
                    (bookingPayload flightOffer travelerRecord)) in
         let* booked :=
           lift (if negb (truthy bookingData) then Ok VUndef
                 else let? data := get_prop bookingData "data" in
                      if negb (truthy data) then Ok VUndef
                      else get_prop data "id") in
         if negb (truthy booked)
         then ret (Json 500 (obj [("error", VStr "Booking was not successful")]))
         else
           let* url :=
             lift (redirectUrl travelerName travelerEmail travelerPhone
                     travelerDOB travelerGender booked) in
           ret (Json 200 (obj [("redirect", VStr url)])))
      (ret (Json 500 (obj [("error", VStr "Error confirming booking")]))).

(** Lines 448-462: the object pushed onto [segments]. *)
Definition rebuilt (departureInfo arrivalInfo : location)
    (departureIata arrivalIata : value) (segment : value) : outcome value :=
  let? departure := get_prop segment "departure" in
  let? departureAt := get_prop departure "at" in
  let? arrival := get_prop segment "arrival" in
  let? arrivalAt := get_prop arrival "at" in
  Ok (VObj (<["arrival" :=
                obj [("cityName", city arrivalInfo);
                     ("airportName", airport arrivalInfo);
                     ("iataCode", arrivalIata);
                     ("at", arrivalAt)]]>
            (<["departure" :=
                obj [("cityName", city departureInfo);
                     ("airportName", airport departureInfo);
                     ("iataCode", departureIata);
                     ("at", departureAt)]]>
             (spread segment)))).

(** Lines 440-462: the body of the innermost loop.  [Promise.all] issues
    the departure lookup, then the arrival lookup. *)
Definition rebuildSegment (segment : value) : M value :=
  let* departure := lift (get_prop segment "departure") in
  let* departureIata := lift (get_prop departure "iataCode") in
  let* arrival := lift (get_prop segment "arrival") in
  let* arrivalIata := lift (get_prop arrival "iataCode") in
  let* departureInfo := getCityAndAirportName departureIata in
  let* arrivalInfo := getCityAndAirportName arrivalIata in
  lift (rebuilt departureInfo arrivalInfo departureIata arrivalIata segment).

(** A [for (const x of arr)] loop whose body pushes onto [segments]. *)
Fixpoint collect (body : value -> M (list value)) (arr : list value) : M (list value) :=
  match arr with
  | [] => ret []
  | x :: rest =>
      let* pushed := body x in
      let* more := collect body rest in
      ret (pushed ++ more)
  end.

(** The elements looped over under the guard [v && Array.isArray(v)]. *)
Definition when_array (v : value) : list value :=
  if truthy v && is_array v
  then match v with VArr l => l | _ => [] end
  else [].

Definition itinerarySegments (itinerary : value) : M (list value) :=
  let* segments := lift (get_prop itinerary "segments") in
  for_each rebuildSegment (when_array segments).

Definition offerSegments (offer : value) : M (list value) :=
  let* itineraries := lift (get_prop offer "itineraries") in
  collect itinerarySegments (when_array itineraries).

(** Lines 431-468: the array [segments] built from the booking record. *)
Definition bookedSegments (bookingDetails : value) : M (list value) :=
  let* data := lift (get_prop bookingDetails "data") in
  let* flightOffers := lift (get_prop data "flightOffers") in
  collect offerSegments (when_array flightOffers).

(** [app.get('/booked-flight')] *)
Definition booked_flight (query : gmap string value) : M response :=
  let bookingId := query_param query "bookingId" in
  if negb (truthy bookingId)
  then ret (Json 400 (obj [("error", VStr "Missing booking ID")]))
  else
    try_catch
      (let* authorization := bearer in
       let* bookingDetails :=
         axios (GET (flightOrdersUrl +:+ "/" +:+ to_String bookingId)
                  authorization VUndef) in
       let* segments := bookedSegments bookingDetails in
       ret (Render "booked-flight"
              (obj [("title", VStr "Booking Confirmation");
                    ("travelerInfo",
                     obj [("name", query_param query "name");
                          ("email", query_param query "email");
                          ("phone", query_param query "phone");
                          ("dob", query_param query "dob");
                          ("gender", query_param query "gender")]);
                    ("bookingDetails",
                     VObj (<["segments" := VArr segments]> (spread bookingDetails)))])))
      (ret (Json 500 (obj [("error", VStr "Error fetching booking details")]))).

(** ** The remaining functions and routes *)

(** Lines 161-183 *)
Definition getAirlineName (carrierCode : value) : M value :=
  try_catch
    (let* authorization := bearer in
     let* airlineData := axios (airlineCall authorization carrierCode) in
     let* nonEmpty :=
       lift (let? records := get_prop airlineData "data" in
             let? len := get_prop records "length" in
             Ok (greater_than_zero len)) in
     if (nonEmpty : bool)
     then lift (let? records := get_prop airlineData "data" in
                let? first := get_index records 0 in
                let? commonName := get_prop first "commonName" in
                if truthy commonName then Ok commonName
                else (let? records := get_prop airlineData "data" in
                      let? first := get_index records 0 in
                      get_prop first "businessName"))
     else ret carrierCode)
    (ret carrierCode).

(** Lines 68-72: one entry of the autocomplete list. *)
Definition suggestion (item : value) : outcome value :=
  let? address := get_prop item "address" in
  let? cityName := get_prop address "cityName" in
  let? name := get_prop item "name" in
  let? iataCode := get_prop item "iataCode" in
  Ok (obj [("city", cityName); ("airport", name); ("code", iataCode)]).

(** [app.get('/suggestions')] *)
Definition suggestions (query : gmap string value) : M response :=
  try_catch
    (let* authorization := bearer in
     let* data :=
       axios (locationCall authorization (query_param query "query") "AIRPORT,CITY") in
     let* found :=
       lift (let? records := get_prop data "data" in
             let? items := as_array records in
             map_by suggestion items) in
     ret (Json 200 (VArr found)))
    (ret (Send 500 "Error fetching suggestions")).

(** Lines 533-536 *)
Definition hotelSuggestion (item : value) : outcome value :=
  let? name := get_prop item "name" in
  let? iataCode := get_prop item "iataCode" in
  Ok (obj [("name", name); ("iataCode", iataCode)]).

(** [app.get('/hotel-suggestions')] *)
Definition hotel_suggestions (query : gmap string value) : M response :=
  try_catch
    (let* authorization := bearer in
     let* data :=
       axios (locationCall authorization (query_param query "query") "CITY,HOTEL") in
     let* found :=
       lift (let? records := get_prop data "data" in
             let? items := as_array records in
             map_by hotelSuggestion items) in
     ret (Json 200 (VArr found)))
    (ret (Send 500 "Error fetching hotel suggestions")).

Definition hotelOffersUrl := "https://test.api.amadeus.com/v2/shopping/hotel-offers".

Definition hotelCall (authorization : string) (query : gmap string value) : call :=
  GET hotelOffersUrl authorization
    (obj [("cityCode", query_param query "cityCode");
          ("checkInDate", query_param query "checkInDate");
          ("checkOutDate", query_param query "checkOutDate");
          ("adults", or_else (query_param query "adults") (VNum 1))]).

(** [app.get('/hotel-offers')] *)
Definition hotel_offers (query : gmap string value) : M response :=
  try_catch
    (let* authorization := bearer in
     let* hotelData := axios (hotelCall authorization query) in
     let* hotels := lift (get_prop hotelData "data") in
     ret (Render "hotel-offers"
            (obj [("title", VStr "Hotel Offers");
                  ("hotels", hotels);
                  ("query", VObj query)])))
    (ret (Send 500 "Error fetching hotel offers")).

(** [app.get('/')], [app.get('/flights')] and [app.get('/hotels')] *)
Definition landing : M response :=
  ret (Render "index" (obj [("title", VStr "Travix - Travel Booking")])).

Definition flights_page (query : gmap string value) : M response :=
  ret (Render "flights" (obj [("title", VStr "Search Flights"); ("query", VObj query)])).

Definition hotels_page (query : gmap string value) : M response :=
  ret (Render "hotels" (obj [("title", VStr "Search Hotels"); ("query", VObj query)])).

(** ** Vocabulary for the resolvers *)

(** The entry, if any, that the reply to an airline lookup contributes to
    the array [airlines]. *)
Definition resolved (reply : option value) : option value :=
  match reply with
  | Some data =>
      match airlineEntry data with
      | Ok entry => Some entry
      | Throw => None
      end
  | None => None
  end.

(** What upstream answers to the calls [cs], issued one after the other
    from the history [history]. *)
Fixpoint replies (history : list call) (cs : list call) : list (option value) :=
  match cs with
  | [] => []
  | c :: rest => upstream history c :: replies (history ++ [c]) rest
  end.

(** The lookup of [code] succeeded: the reply lists at least one record,
    the first one is the record of [code], and [name] is its common name
    or else its official name. *)
Definition answers_with (reply : option value) (code name : value) : Prop :=
  exists data record more commonName officialName,
    reply = Some data
    /\ get_prop data "data" = Ok (VArr (record :: more))
    /\ get_prop record "iataCode" = Ok code
    /\ get_prop record "commonName" = Ok commonName
    /\ get_prop record "officialName" = Ok officialName
    /\ name = or_else commonName officialName.

(** The lookup succeeded but matched nothing. *)
Definition answers_nothing (reply : option value) : Prop :=
  exists data, reply = Some data /\ get_prop data "data" = Ok (VArr []).

(** The distinct elements of a list, in order of first appearance. *)
Fixpoint first_occurrences (l : list string) : list string :=
  match l with
  | [] => []
  | x :: rest => x :: filter (fun y => y <> x) (first_occurrences rest)
  end.

(** The segments of an offer: those of its itineraries, in order. *)
Definition segments_in (itinerary : value) : list value :=
  match get_prop itinerary "segments" with
  | Ok (VArr segments) => segments
  | _ => []
  end.

Definition segments_of (offer : value) : list value :=
  match get_prop offer "itineraries" with
  | Ok (VArr itineraries) => concat (segments_in <$> itineraries)
  | _ => []
  end.

Definition is_airline_call (c : call) : bool :=
  match c with
  | GET url _ _ => String.eqb url airlinesUrl
  | _ => false
  end.

(** The net effect of lines 292-294 (or 295-297) on one endpoint of a
    segment. *)
Definition decorated (found : location) (endpoint : value) : outcome value :=
  let? endpoint := set_prop endpoint "cityName" (city found) in
  let? endpoint := set_prop endpoint "airportName" (airport found) in
  let? terminal := get_prop endpoint "terminal" in
  set_prop endpoint "terminal" (or_else terminal (VStr "N/A")).

(** The location that [getCityAndAirportName] resolves [iataCode] to when
    called in state [w]. *)
Definition lookup_location (iataCode : value) (w : world) : location :=
  match upstream (calls w)
          (locationCall (authorization_of w) iataCode "AIRPORT,CITY") with
  | Some data =>
      match firstLocation iataCode data with
      | Ok found => found
      | Throw => unknownAt iataCode
      end
  | None => unknownAt iataCode
  end.

(** ** Vocabulary for the enrichment *)

(** Every property outside [keys] reads the same in [v'] as in [v]. *)
Definition same_outside (keys : list string) (v v' : value) : Prop :=
  forall k, k ∉ keys -> get_prop v' k = get_prop v k.

(** The terminal is kept when there is one, and is "N/A" otherwise. *)
Definition terminal_defaulted (e e' : value) : Prop :=
  exists terminal,
    get_prop e "terminal" = Ok terminal
    /\ get_prop e' "terminal" = Ok (if truthy terminal then terminal else VStr "N/A").

(** The city and airport names of [e'] are those that a lookup of the
    code of [e] resolved to. *)
Definition endpoint_located (e e' : value) : Prop :=
  exists code w,
    get_prop e "iataCode" = Ok code
    /\ get_prop e' "cityName" = Ok (city (lookup_location code w))
    /\ get_prop e' "airportName" = Ok (airport (lookup_location code w)).

Definition endpoint_enriched (e e' : value) : Prop :=
  same_outside ["cityName"; "airportName"; "terminal"] e e'
  /\ terminal_defaulted e e'
  /\ endpoint_located e e'.

(** What [/flight-details] does to a segment, as far as the fields that
    come from upstream are concerned. *)
Definition segment_enriched (s s' : value) : Prop :=
  same_outside ["departure"; "arrival"; "airlineName"; "flightDuration"] s s'
  /\ exists d d' a a',
       get_prop s "departure" = Ok d /\ get_prop s' "departure" = Ok d'
       /\ get_prop s "arrival" = Ok a /\ get_prop s' "arrival" = Ok a'
       /\ endpoint_enriched d d' /\ endpoint_enriched a a'.

(** The derived fields of a segment enriched against [airlines]. *)
Definition segment_derived (airlines : list value) (s s' : value) : Prop :=
  get_prop s' "airlineName" = airlineNameOf airlines s
  /\ exists d a departureAt arrivalAt,
       get_prop s "departure" = Ok d /\ get_prop d "at" = Ok departureAt
       /\ get_prop s "arrival" = Ok a /\ get_prop a "at" = Ok arrivalAt
       /\ get_prop s' "flightDuration" =
            Ok (VStr (flightDuration (Date_of departureAt) (Date_of arrivalAt))).

(** A segment as upstream sends it: an object whose two endpoints are
    objects. *)
Definition wf_segment (s : value) : Prop :=
  exists m d a,
    s = VObj m /\ m !! "departure" = Some (VObj d) /\ m !! "arrival" = Some (VObj a).

Definition wf_itinerary (itinerary : value) : Prop :=
  exists m segments,
    itinerary = VObj m /\ m !! "segments" = Some (VArr segments)
    /\ Forall wf_segment segments.

Definition wf_offer (offer : value) : Prop :=
  exists m itineraries,
    offer = VObj m /\ m !! "itineraries" = Some (VArr itineraries)
    /\ Forall wf_itinerary itineraries.

(** The array [airlines] holds objects, as [getAirlinesFromFlightOffers]
    builds it. *)
Definition entries (airlines : list value) : Prop :=
  Forall (fun a => exists m, a = VObj m) airlines.

(** The number of airline lookups among the calls [cs]. *)
Definition airline_lookups (cs : list call) : nat :=
  length (List.filter is_airline_call cs).

(** The state moved from [w] to [w'] by issuing calls, at most [n] of them
    airline lookups. *)
Definition at_most (n : nat) (w w' : world) : Prop :=
  exists cs, w' = issued w cs /\ (airline_lookups cs <= n)%nat.

(** The computation [m] makes at most [n] airline lookups, whether it
    completes or throws. *)
Definition budget {A} (n : nat) (m : M A) : Prop :=
  forall w, at_most n w (m w).2.

(** The state moved from [w] to [w'] without any airline lookup. *)
Definition only_locations (w w' : world) : Prop := at_most 0 w w'.

(** The departure and arrival codes of a segment. *)
Definition endpoints_of (s : value) : outcome value * outcome value :=
  (let? d := get_prop s "departure" in get_prop d "iataCode",
   let? a := get_prop s "arrival" in get_prop a "iataCode").

Definition itineraries_of (offer : value) : list value :=
  match get_prop offer "itineraries" with
  | Ok (VArr itineraries) => itineraries
  | _ => []
  end.

(** What the loop of [/flight-details] does to one segment. *)
Definition enriches (airlines : list value) (s s' : value) : Prop :=
  wf_segment s' /\ segment_enriched s s' /\ segment_derived airlines s s'.

(** What [/booked-flight] keeps of an endpoint, and of a segment. *)
Definition endpoint_rebuilt (e e' : value) : Prop :=
  get_prop e' "iataCode" = get_prop e "iataCode"
  /\ get_prop e' "at" = get_prop e "at"
  /\ endpoint_located e e'.

Definition segment_rebuilt (s s' : value) : Prop :=
  same_outside ["departure"; "arrival"] s s'
  /\ exists d d' a a',
       get_prop s "departure" = Ok d /\ get_prop s' "departure" = Ok d'
       /\ get_prop s "arrival" = Ok a /\ get_prop s' "arrival" = Ok a'
       /\ endpoint_rebuilt d d' /\ endpoint_rebuilt a a'.

(** The segments of a booking record: those of its offers, in order. *)
Definition booking_segments (bookingDetails : value) : list value :=
  match (let? data := get_prop bookingDetails "data" in get_prop data "flightOffers") with
  | Ok (VArr offers) => concat (segments_of <$> offers)
  | _ => []
  end.

Definition wf_booking (bookingDetails : value) : Prop :=
  exists data offers,
    get_prop bookingDetails "data" = Ok data
    /\ get_prop data "flightOffers" = Ok (VArr offers)
    /\ Forall wf_offer offers.

(** Two time values close enough for the arithmetic of lines 304-308 to
    be exact: less than 2^53 milliseconds apart. *)
Definition exact_span (departureTime arrivalTime : Z) : Prop :=
  Z.abs (arrivalTime - departureTime) < 2 ^ 53.

(** ["<hours>h <minutes>m"] *)
Definition rendering (hours minutes : Z) : string :=
  pretty hours +:+ "h " +:+ pretty minutes +:+ "m".

(** The duration as the design document words it: the whole minutes [d]
    between the two time values, as [floor (d / 60)] hours and [d mod 60]
    minutes. *)
Definition stated_duration (departureTime arrivalTime : Z) : string :=
  let d := (arrivalTime - departureTime) / 60000 in
  rendering (d / 60) (d mod 60).

(** The entry [entry] is for another carrier than [carrierCode]. *)
Definition other_code (carrierCode entry : value) : Prop :=
  exists code, get_prop entry "code" = Ok code /\ strict_eq code carrierCode = false.

(** [entry] is the first entry of [airlines] whose code is strictly equal
    to [carrierCode]. *)
Definition first_entry_for (airlines : list value) (carrierCode entry : value) : Prop :=
  exists pre post code,
    airlines = pre ++ entry :: post /\ Forall (other_code carrierCode) pre
    /\ get_prop entry "code" = Ok code /\ strict_eq code carrierCode = true.

(** The airline name of the segment [s'] comes from the resolved set
    [airlines]: it is the name of the first entry for the carrier of
    [s'], and the carrier code when the set has no entry for it. *)
Definition named_from (airlines : list value) (s' : value) : Prop :=
  forall carrierCode,
    get_prop s' "carrierCode" = Ok carrierCode ->
    (forall entry, first_entry_for airlines carrierCode entry ->
                   get_prop s' "airlineName" = get_prop entry "name")
    /\ (Forall (other_code carrierCode) airlines ->
        get_prop s' "airlineName" = Ok carrierCode).

(** ** Vocabulary for the search filter *)

(** The first segment of the first itinerary of [flight] departs from
    [departureCode] and arrives at [arrivalCode]. *)
Definition first_leg (flight departureCode arrivalCode : value) : Prop :=
  exists itineraries itinerary segments segment departure arrival,
    get_prop flight "itineraries" = Ok itineraries
    /\ get_index itineraries 0 = Ok itinerary
    /\ get_prop itinerary "segments" = Ok segments
    /\ get_index segments 0 = Ok segment
    /\ get_prop segment "departure" = Ok departure
    /\ get_prop departure "iataCode" = Ok departureCode
    /\ get_prop segment "arrival" = Ok arrival
    /\ get_prop arrival "iataCode" = Ok arrivalCode.

(** The offers the design document says the search keeps. *)
Definition retained (originCode : value) (destinationCodes : list value)
    (flight : value) : Prop :=
  exists departureCode arrivalCode,
    first_leg flight departureCode arrivalCode
    /\ strict_eq departureCode originCode = true
    /\ includes destinationCodes arrivalCode = true.

(** ** Vocabulary for the booking *)

(** The part of [s] before the first [sep], and the remainder after it
    when there is one. *)
Fixpoint cut (sep : ascii) (s : string) : string * option string :=
  match s with
  | EmptyString => (EmptyString, None)
  | String c rest =>
      if Ascii.eqb c sep then (EmptyString, Some rest)
      else let '(before, after) := cut sep rest in (String c before, after)
  end.





(** The response to a request that lacks a required field. *)
Definition missingFields : response :=
  Json 400 (obj [("error", VStr "Missing required fields")]).


(** ** Vocabulary for the remaining routes *)

(** The call of [authenticateAmadeus]. *)
Definition credentialExchange : call :=
  POST_form authUrl
    (obj [("grant_type", VStr "client_credentials");
          ("client_id", AMADEUS_CLIENT_ID);
          ("client_secret", AMADEUS_CLIENT_SECRET)]).

(** The two location lookups that enriching segment [s] costs. *)
Definition endpoint_lookups (authorization : string) (s : value) : list call :=
  match endpoints_of s with
  | (Ok departureCode, Ok arrivalCode) =>
      [locationCall authorization departureCode "AIRPORT,CITY";
       locationCall authorization arrivalCode "AIRPORT,CITY"]
  | _ => []
  end.

(** How often the character [c] occurs in [s]. *)
Fixpoint occurrences (c : ascii) (s : string) : nat :=
  match s with
  | EmptyString => 0
  | String c' rest => (if Ascii.eqb c' c then 1 else 0) + occurrences c rest
  end.

(** The search that three routes start with. *)
Definition searchCall (w : world) (originCode destinationCode departureDate : value) : call :=
  GET flightOffersUrl (authorization_of w)
    (searchParams originCode destinationCode departureDate).

(** No offer of [offers] has the id [offerId]. *)
Definition no_offer_with (offerId : value) (offers : list value) : Prop :=
  Forall (fun offer => exists id, get_prop offer "id" = Ok id
                                  /\ strict_eq id offerId = false) offers.

(** The codes that [getRelatedAirportCodes] resolves [cityCode] to when
    called in state [w]. *)
Definition related_codes (cityCode : value) (w : world) : list value :=
  match upstream (calls w) (locationCall (authorization_of w) cityCode "AIRPORT") with
  | Some data =>
      match airportCodes data with
      | Ok codes => codes
      | Throw => [cityCode]
      end
  | None => [cityCode]
  end.

(** The calls that [/flight-offers] makes before it filters: the search,
    the two city names and the related codes. *)
Definition searchAndLookups (w : world) (originCode destinationCode departureDate : value)
    : list call :=
  [searchCall w originCode destinationCode departureDate;
   locationCall (authorization_of w) originCode "AIRPORT,CITY";
   locationCall (authorization_of w) destinationCode "AIRPORT,CITY";
   locationCall (authorization_of w) destinationCode "AIRPORT"].

(** The pricing call of [/flight-details] and the booking call of
    [/confirm-booking]. *)
Definition pricingCall (w : world) (flightOffer : value) : call :=
  POST flightPricingUrl (authorization_of w)
    (obj [("data",
           obj [("type", VStr "flight-offers-pricing");
                ("flightOffers", VArr [flightOffer])])]).


(** The call of [/booked-flight]. *)
Definition orderCall (w : world) (bookingId : value) : call :=
  GET (flightOrdersUrl +:+ "/" +:+ to_String bookingId) (authorization_of w) VUndef.

(** The page of [/booked-flight] for the traveler of [query], the booking
    record [bookingDetails] and the rebuilt [segments]. *)
Definition confirmation (query : gmap string value) (bookingDetails : value)
    (segments : list value) : response :=
  Render "booked-flight"
    (obj [("title", VStr "Booking Confirmation");
          ("travelerInfo",
           obj [("name", query_param query "name");
                ("email", query_param query "email");
                ("phone", query_param query "phone");
                ("dob", query_param query "dob");
                ("gender", query_param query "gender")]);
          ("bookingDetails",
           VObj (<["segments" := VArr segments]> (spread bookingDetails)))]).

(** The handlers that the server registers, for a request whose query
    string, or JSON body for [/confirm-booking], is [request]. *)
Definition routes (request : gmap string value) : list (M response) :=
  [landing; flights_page request; suggestions request; flight_offers request;
   flight_details request; confirm_booking request; booked_flight request;
   hotels_page request; hotel_offers request; hotel_suggestions request].

(** The calls that handlers make: all but the form post of the credential
    exchange. *)
Definition from_handler (c : call) : bool :=
  match c with
  | POST_form _ _ => false
  | _ => true
  end.

(** A computation that only issues such calls: it leaves the token alone
    and keeps the calls made so far, whether it completes or throws. *)
Definition grows {A} (m : M A) : Prop :=
  forall w, exists cs, (m w).2 = issued w cs /\ Forall (fun c => from_handler c = true) cs.

(** A computation that, besides, always completes. *)
Definition settles {A} (m : M A) : Prop :=
  forall w, exists a cs,
    m w = (Ok a, issued w cs) /\ Forall (fun c => from_handler c = true) cs.

(** ** Tactics *)

(** For goals of pure list reasoning: forget the parameters of the server,
    so that propositional automation does not pick them up. *)
Ltac forget_server :=
  clear upstream Date_of greater_than_zero encodeURIComponent
        AMADEUS_CLIENT_ID AMADEUS_CLIENT_SECRET.

Ltac map_lookups :=
  repeat first
    [ rewrite lookup_insert_eq
    | rewrite insert_insert_eq
    | rewrite lookup_insert_ne by discriminate ].

(** * Properties *)

(** ** The location resolver *)

Lemma getCityAndAirportName_run (iataCode : value) (w : world) :
  getCityAndAirportName iataCode w =
    (Ok (lookup_location iataCode w),
     issued w [locationCall (authorization_of w) iataCode "AIRPORT,CITY"]).
Proof.
  unfold getCityAndAirportName, lookup_location, try_catch, bind, bearer, axios, lift, ret.
  cbn [calls accessToken]. fold (authorization_of w).
  destruct (upstream _ _) as [data|]; [|reflexivity].
  destruct (firstLocation iataCode data); reflexivity.
Qed.

(** C6, amended.  On a successful lookup with at least one match, whose
    first record carries a city name and a name, [getCityAndAirportName]
    returns that city and that name; when the lookup is rejected, or
    succeeds with no match, it returns the input code and
    "Unknown Airport".  It never throws.  A first record does not always
    give its own fields: an empty or absent city name is replaced by the
    input code, an empty or absent name by "Unknown Airport", each on its
    own, and a first record without an [address] gives nothing at all. *)
Theorem getCityAndAirportName_first_match_or_fallback (iataCode : value) (w : world) :
  let lookup := locationCall (authorization_of w) iataCode "AIRPORT,CITY" in
  (forall data first rest address cityName name,
      upstream (calls w) lookup = Some data ->
      get_prop data "data" = Ok (VArr (first :: rest)) ->
      get_prop first "address" = Ok address ->
      get_prop address "cityName" = Ok cityName -> truthy cityName = true ->
      get_prop first "name" = Ok name -> truthy name = true ->
      (getCityAndAirportName iataCode w).1 = Ok (Location cityName name))
  /\ (upstream (calls w) lookup = None ->
      (getCityAndAirportName iataCode w).1 = Ok (unknownAt iataCode))
  /\ (forall data,
      upstream (calls w) lookup = Some data ->
      get_prop data "data" = Ok (VArr []) ->
      (getCityAndAirportName iataCode w).1 = Ok (unknownAt iataCode))
  /\ (exists found, (getCityAndAirportName iataCode w).1 = Ok found)
  /\ (forall data first rest address cityName name,
      upstream (calls w) lookup = Some data ->
      get_prop data "data" = Ok (VArr (first :: rest)) ->
      get_prop first "address" = Ok address ->
      get_prop address "cityName" = Ok cityName ->
      get_prop first "name" = Ok name ->
      (getCityAndAirportName iataCode w).1 =
        Ok (Location (if truthy cityName then cityName else iataCode)
                     (if truthy name then name else VStr "Unknown Airport")))
  /\ (forall data first rest address,
      upstream (calls w) lookup = Some data ->
      get_prop data "data" = Ok (VArr (first :: rest)) ->
      get_prop first "address" = Ok address -> address = VUndef \/ address = VNull ->
      (getCityAndAirportName iataCode w).1 = Ok (unknownAt iataCode)).
Proof.
  intros lookup. rewrite getCityAndAirportName_run. unfold lookup_location.
  fold lookup. cbn [fst].
  split; [|split; [|split; [|split; [|split]]]].
  - intros data first rest address cityName name -> Hdata Haddr Hcity Tcity Hname Tname.
    unfold firstLocation. rewrite Hdata. cbn.
    rewrite Haddr. cbn [obind]. rewrite Hcity. cbn [obind]. rewrite Hname. cbn [obind].
    unfold or_else. now rewrite Tcity, Tname.
  - now intros ->.
  - intros data -> Hdata. unfold firstLocation. now rewrite Hdata.
  - eexists. reflexivity.
  - intros data first rest address cityName name -> Hdata Haddr Hcity Hname.
    unfold firstLocation. rewrite Hdata. cbn.
    rewrite Haddr. cbn [obind]. rewrite Hcity. cbn [obind]. now rewrite Hname.
  - intros data first rest address -> Hdata Haddr Hnone.
    unfold firstLocation. rewrite Hdata. cbn. rewrite Haddr.
    now destruct Hnone as [-> | ->].
Qed.

(** ** Related airport codes *)

Lemma getRelatedAirportCodes_run (cityCode : value) (w : world) :
  getRelatedAirportCodes cityCode w =
    (Ok match upstream (calls w)
                (locationCall (authorization_of w) cityCode "AIRPORT") with
        | Some data =>
            match airportCodes data with
            | Ok codes => codes
            | Throw => [cityCode]
            end
        | None => [cityCode]
        end,
     issued w [locationCall (authorization_of w) cityCode "AIRPORT"]).
Proof.
  unfold getRelatedAirportCodes, try_catch, bind, bearer, axios, lift, ret.
  cbn [calls accessToken]. fold (authorization_of w).
  destruct (upstream _ _) as [data|]; [|reflexivity].
  destruct (airportCodes data); reflexivity.
Qed.

Lemma map_by_Forall2 {A} (f : value -> outcome A) (xs : list value) (ys : list A) :
  map_by f xs = Ok ys <-> Forall2 (fun x y => f x = Ok y) xs ys.
Proof.
  revert ys. induction xs as [|x xs IH]; intros ys; cbn [map_by].
  - split.
    + intros [= <-]. constructor.
    + intros H. inversion H. reflexivity.
  - split.
    + destruct (f x) as [y|] eqn:Hx; cbn [obind]; [|discriminate].
      destruct (map_by f xs) as [ys'|] eqn:Hxs; cbn [obind]; [|discriminate].
      intros [= <-]. constructor; [assumption|]. now apply IH.
    + intros H. inversion H as [|? y ? ys' Hx Hrest]; subst.
      rewrite Hx. cbn [obind]. apply IH in Hrest. rewrite Hrest. reflexivity.
Qed.

(** C2, amended.  When the lookup succeeds with a list of airports,
    [getRelatedAirportCodes] returns the [iataCode] of every airport, in
    order, and so as many codes as there are matches (none when nothing
    matches); when the lookup is rejected it returns exactly the input
    code.  It never throws. *)
Theorem getRelatedAirportCodes_codes_or_input (cityCode : value) (w : world) :
  let lookup := locationCall (authorization_of w) cityCode "AIRPORT" in
  (forall data airports codes,
      upstream (calls w) lookup = Some data ->
      get_prop data "data" = Ok (VArr airports) ->
      Forall2 (fun airport code => get_prop airport "iataCode" = Ok code) airports codes ->
      (getRelatedAirportCodes cityCode w).1 = Ok codes
      /\ length codes = length airports)
  /\ (upstream (calls w) lookup = None ->
      (getRelatedAirportCodes cityCode w).1 = Ok [cityCode])
  /\ (exists codes, (getRelatedAirportCodes cityCode w).1 = Ok codes).
Proof.
  intros lookup. rewrite getRelatedAirportCodes_run. fold lookup. cbn [fst].
  split; [|split; [|eexists; reflexivity]].
  - intros data airports codes -> Hdata Hcodes. split.
    + unfold airportCodes. rewrite Hdata. cbn [obind as_array].
      apply map_by_Forall2 in Hcodes. now rewrite Hcodes.
    + symmetry. eapply Forall2_length, Hcodes.
  - now intros ->.
Qed.

(** ** The airline resolver *)

Lemma issued_issued (w : world) (cs1 cs2 : list call) :
  issued (issued w cs1) cs2 = issued w (cs1 ++ cs2).
Proof. unfold issued. cbn. now rewrite <- app_assoc. Qed.

Lemma issued_nil (w : world) : issued w [] = w.
Proof. destruct w. unfold issued. cbn. now rewrite app_nil_r. Qed.

Lemma resolveAirlines_cons (code : value) (rest airlines : list value) (w : world) :
  resolveAirlines (code :: rest) airlines w =
    resolveAirlines rest
      (airlines ++
         option_list (resolved (upstream (calls w) (airlineCall (authorization_of w) code))))
      (issued w [airlineCall (authorization_of w) code]).
Proof.
  cbn [resolveAirlines]. unfold bind at 1.
  unfold try_catch, bind, bearer, axios, lift, ret. cbn [calls accessToken].
  fold (authorization_of w). fold (issued w [airlineCall (authorization_of w) code]).
  destruct (upstream _ _) as [data|]; cbn [resolved option_list].
  - destruct (airlineEntry data); cbn [option_list]; rewrite ?app_nil_r; reflexivity.
  - rewrite app_nil_r. reflexivity.
Qed.

(** The loop never throws, and looks every code up once, in order. *)
Lemma resolveAirlines_calls (codes airlines : list value) (w : world) :
  exists result,
    resolveAirlines codes airlines w =
      (Ok result, issued w (airlineCall (authorization_of w) <$> codes)).
Proof.
  revert airlines w. induction codes as [|code rest IH]; intros airlines w.
  - exists airlines. cbn. now rewrite issued_nil.
  - rewrite resolveAirlines_cons.
    destruct (IH (airlines ++ option_list (resolved
               (upstream (calls w) (airlineCall (authorization_of w) code))))
                 (issued w [airlineCall (authorization_of w) code])) as [result Hresult].
    exists result. rewrite Hresult, issued_issued. reflexivity.
Qed.

(** The loop collects the entries that the replies to its lookups
    contribute. *)
Lemma resolveAirlines_replies (codes airlines : list value) (w : world) :
  resolveAirlines codes airlines w =
    (Ok (airlines
         ++ omap resolved (replies (calls w) (airlineCall (authorization_of w) <$> codes))),
     issued w (airlineCall (authorization_of w) <$> codes)).
Proof.
  revert airlines w. induction codes as [|code rest IH]; intros airlines w.
  - cbn. now rewrite app_nil_r, issued_nil.
  - rewrite resolveAirlines_cons, IH, issued_issued, <- app_assoc.
    cbn [fmap list_fmap replies omap list_omap app calls issued].
    change (authorization_of (issued w _)) with (authorization_of w).
    destruct (resolved (upstream (calls w) (airlineCall (authorization_of w) code)));
      reflexivity.
Qed.

Lemma getAirlinesFromFlightOffers_unfold (flights carrierCodes : list value) (w : world) :
  map_by firstCarrierCode flights = Ok carrierCodes ->
  getAirlinesFromFlightOffers flights w = resolveAirlines (unique carrierCodes) [] w.
Proof.
  intros H. unfold getAirlinesFromFlightOffers, bind, lift. now rewrite H.
Qed.

Lemma strict_eq_sym (a b : value) : strict_eq a b = strict_eq b a.
Proof.
  destruct a, b; cbn; try reflexivity.
  - now destruct b, b0.
  - apply Z.eqb_sym.
  - apply String.eqb_sym.
Qed.

Lemma includes_snoc (seen : list value) (x y : value) :
  includes (seen ++ [x]) y = includes seen y || strict_eq x y.
Proof.
  unfold includes. rewrite existsb_app. cbn. now rewrite orb_false_r.
Qed.

Lemma unique_from_fresh (seen arr : list value) :
  Forall (fun y => includes seen y = false) (unique_from seen arr).
Proof.
  revert seen. induction arr as [|x rest IH]; intros seen; cbn [unique_from].
  - constructor.
  - destruct (includes seen x) eqn:Hx; [apply IH|].
    constructor; [exact Hx|].
    eapply Forall_impl; [apply (IH (seen ++ [x]))|].
    intros y Hy. cbn beta in Hy. rewrite includes_snoc in Hy.
    now apply orb_false_iff in Hy.
Qed.

(** No two of the codes kept by [new Set] are strictly equal. *)
Lemma unique_from_distinct (seen arr : list value) :
  ForallOrdPairs (fun x y => strict_eq x y = false) (unique_from seen arr).
Proof.
  revert seen. induction arr as [|x rest IH]; intros seen; cbn [unique_from].
  - constructor.
  - destruct (includes seen x); [apply IH|].
    constructor; [|apply IH].
    apply List.Forall_forall. intros y Hy.
    pose proof (unique_from_fresh (seen ++ [x]) rest) as Hfresh.
    rewrite List.Forall_forall in Hfresh. specialize (Hfresh y Hy).
    rewrite includes_snoc in Hfresh. now apply orb_false_iff in Hfresh.
Qed.

Lemma distinct_around (pre post : list value) (x : value) :
  ForallOrdPairs (fun a b => strict_eq a b = false) (pre ++ x :: post) ->
  Forall (fun c => strict_eq c x = false) (pre ++ post).
Proof.
  induction pre as [|p pre IH]; cbn [app]; intros H.
  - inversion H as [|? ? Hx _]; subst.
    eapply Forall_impl; [apply List.Forall_forall; rewrite List.Forall_forall in Hx; exact Hx|].
    intros c Hc. cbn beta in Hc. now rewrite strict_eq_sym.
  - inversion H as [|? ? Hp Hrest]; subst. constructor.
    + rewrite List.Forall_forall in Hp. apply Hp. apply in_elt.
    + now apply IH.
Qed.

Lemma airlineEntry_nothing (data : value) :
  get_prop data "data" = Ok (VArr []) -> airlineEntry data = Throw.
Proof. intros H. unfold airlineEntry. now rewrite H. Qed.

Lemma airlineEntry_answer (reply : option value) (code name : value) :
  answers_with reply code name ->
  resolved reply = Some (obj [("code", code); ("name", name)]).
Proof.
  intros (data & record & more & commonName & officialName
          & -> & Hdata & Hcode & Hcommon & Hofficial & ->).
  unfold resolved, airlineEntry. rewrite Hdata. cbn.
  rewrite Hcode. cbn. rewrite Hcommon. cbn. unfold or_else.
  destruct (truthy commonName); cbn; [reflexivity|].
  rewrite Hofficial. reflexivity.
Qed.

(** C10.  When the lookup of one of the unique carrier codes succeeds but
    lists no record, reading the first record's fields throws, and
    [getAirlinesFromFlightOffers] returns the entries that the other
    replies contribute and nothing else, exactly as when that lookup is
    rejected: no entry stands in for the code. *)
Theorem empty_airline_reply_is_omitted
    (flights carrierCodes pre post : list value) (code : value)
    (before after : list (option value)) (reply : option value) (w : world) :
  map_by firstCarrierCode flights = Ok carrierCodes ->
  unique carrierCodes = pre ++ code :: post ->
  length before = length pre ->
  replies (calls w) (airlineCall (authorization_of w) <$> pre ++ code :: post)
    = before ++ reply :: after ->
  answers_nothing reply \/ reply = None ->
  (forall data, get_prop data "data" = Ok (VArr []) -> airlineEntry data = Throw)
  /\ getAirlinesFromFlightOffers flights w =
       (Ok (omap resolved before ++ omap resolved after),
        issued w (airlineCall (authorization_of w) <$> pre ++ code :: post)).
Proof.
  intros Hcodes Hunique _ Hreplies Hreply. split; [exact airlineEntry_nothing|].
  rewrite (getAirlinesFromFlightOffers_unfold _ _ _ Hcodes), Hunique.
  rewrite resolveAirlines_replies, Hreplies.
  cbn [app]. rewrite omap_app. cbn [omap list_omap].
  assert (resolved reply = None) as ->; [|reflexivity].
  destruct Hreply as [(data & -> & Hdata)| ->]; [|reflexivity].
  cbn [resolved]. now rewrite airlineEntry_nothing.
Qed.

(** ** Decorating one segment *)

Lemma set_prop_frame (v v' : value) (k k' : string) (x : value) :
  set_prop v k x = Ok v' -> k <> k' -> get_prop v' k' = get_prop v k'.
Proof.
  destruct v; cbn; try discriminate; intros [= <-] Hk; try reflexivity.
  cbn. now rewrite lookup_insert_ne.
Qed.

Lemma decorated_obj (found : location) (m : gmap string value) :
  decorated found (VObj m) =
    Ok (VObj (<["terminal" := or_else (default VUndef (m !! "terminal")) (VStr "N/A")]>
              (<["airportName" := airport found]>
               (<["cityName" := city found]> m)))).
Proof. unfold decorated. cbn. map_lookups. reflexivity. Qed.

Lemma decorated_frame (found : location) (endpoint endpoint' : value) (k : string) :
  decorated found endpoint = Ok endpoint' ->
  k <> "cityName" -> k <> "airportName" -> k <> "terminal" ->
  get_prop endpoint' k = get_prop endpoint k.
Proof.
  unfold decorated. intros H Hc Ha Ht.
  destruct (set_prop endpoint "cityName" (city found)) as [e1|] eqn:H1; [|discriminate].
  cbn [obind] in H.
  destruct (set_prop e1 "airportName" (airport found)) as [e2|] eqn:H2; [|discriminate].
  cbn [obind] in H.
  destruct (get_prop e2 "terminal") as [t|]; [|discriminate]. cbn [obind] in H.
  rewrite (set_prop_frame _ _ _ k _ H) by congruence.
  rewrite (set_prop_frame _ _ _ k _ H2) by congruence.
  now rewrite (set_prop_frame _ _ _ k _ H1) by congruence.
Qed.

Lemma airlineNameOf_ext (airlines : list value) (s1 s2 : value) :
  get_prop s1 "carrierCode" = get_prop s2 "carrierCode" ->
  airlineNameOf airlines s1 = airlineNameOf airlines s2.
Proof.
  intros H. unfold airlineNameOf. now rewrite H.
Qed.

(** The loop body on a segment, in one expression: it needs an object
    with both endpoints, and rewrites the two endpoints, [airlineName] and
    [flightDuration]. *)
Lemma decorate_eq (airlines : list value) (departureLocation arrivalLocation : location)
    (segment : value) :
  decorate airlines departureLocation arrivalLocation segment =
    match segment with
    | VObj m =>
        match m !! "departure", m !! "arrival" with
        | Some departure, Some arrival =>
            let? departure' := decorated departureLocation departure in
            let? arrival' := decorated arrivalLocation arrival in
            let? airlineName := airlineNameOf airlines segment in
            let? departureAt := get_prop departure "at" in
            let? arrivalAt := get_prop arrival "at" in
            Ok (VObj (<["flightDuration" :=
                          VStr (flightDuration (Date_of departureAt) (Date_of arrivalAt))]>
                      (<["airlineName" := airlineName]>
                       (<["arrival" := arrival']>
                        (<["departure" := departure']> m)))))
        | _, _ => Throw
        end
    | _ => Throw
    end.
Proof.
  destruct segment as [| | | | s |l|m]; try reflexivity.
  unfold decorate, set_prop2. cbn [get_prop].
  destruct (m !! "departure") as [d|] eqn:Hd; cbn [default from_option id obind]; [|reflexivity].
  unfold decorated.
  destruct (set_prop d "cityName" (city departureLocation)) as [d1|] eqn:Hd1;
    cbn [obind set_prop get_prop]; [|now destruct (m !! "arrival")].
  map_lookups. cbn [default from_option id obind].
  destruct (set_prop d1 "airportName" (airport departureLocation)) as [d2|] eqn:Hd2;
    cbn [obind set_prop get_prop]; [|now destruct (m !! "arrival")].
  map_lookups. cbn [default from_option id obind].
  destruct (get_prop d2 "terminal") as [t|] eqn:Ht;
    cbn [obind set_prop get_prop]; [|now destruct (m !! "arrival")].
  destruct (set_prop d2 "terminal" (or_else t (VStr "N/A"))) as [d3|] eqn:Hd3;
    cbn [obind set_prop get_prop]; [|now destruct (m !! "arrival")].
  map_lookups.
  destruct (m !! "arrival") as [a|] eqn:Ha; cbn [default from_option id obind]; [|reflexivity].
  destruct (set_prop a "cityName" (city arrivalLocation)) as [a1|] eqn:Ha1;
    cbn [obind set_prop get_prop]; [|reflexivity].
  map_lookups. cbn [default from_option id obind].
  destruct (set_prop a1 "airportName" (airport arrivalLocation)) as [a2|] eqn:Ha2;
    cbn [obind set_prop get_prop]; [|reflexivity].
  map_lookups. cbn [default from_option id obind].
  destruct (get_prop a2 "terminal") as [t'|] eqn:Ht';
    cbn [obind set_prop get_prop]; [|reflexivity].
  destruct (set_prop a2 "terminal" (or_else t' (VStr "N/A"))) as [a3|] eqn:Ha3;
    cbn [obind set_prop get_prop]; [|reflexivity].
  rewrite (airlineNameOf_ext airlines _ (VObj m))
    by (cbn [get_prop]; now map_lookups).
  destruct (airlineNameOf airlines (VObj m)) as [an|]; cbn [obind]; [|reflexivity].
  map_lookups. cbn [default from_option id obind].
  assert (get_prop d3 "at" = get_prop d "at") as ->.
  { rewrite (set_prop_frame _ _ _ "at" _ Hd3) by discriminate.
    rewrite (set_prop_frame _ _ _ "at" _ Hd2) by discriminate.
    now rewrite (set_prop_frame _ _ _ "at" _ Hd1) by discriminate. }
  destruct (get_prop d "at") as [dAt|]; cbn [obind]; [|reflexivity].
  assert (get_prop a3 "at" = get_prop a "at") as ->.
  { rewrite (set_prop_frame _ _ _ "at" _ Ha3) by discriminate.
    rewrite (set_prop_frame _ _ _ "at" _ Ha2) by discriminate.
    now rewrite (set_prop_frame _ _ _ "at" _ Ha1) by discriminate. }
  destruct (get_prop a "at") as [aAt|]; cbn [obind]; reflexivity.
Qed.

Lemma find_entry (airlines : list value) (x : value) :
  entries airlines ->
  exists found,
    find_by (fun a => let? code := get_prop a "code" in
                      let? carrierCode := Ok x in
                      Ok (strict_eq code carrierCode)) airlines = Ok found
    /\ (found = VUndef \/ exists m, found = VObj m).
Proof.
  induction 1 as [|a airlines [m ->] _ IH]; cbn [find_by].
  - exists VUndef. auto.
  - cbn [get_prop obind].
    destruct (strict_eq _ x); [|exact IH].
    exists (VObj m). eauto.
Qed.

Lemma airlineNameOf_total (airlines : list value) (m : gmap string value) :
  entries airlines -> exists name, airlineNameOf airlines (VObj m) = Ok name.
Proof.
  intros H. unfold airlineNameOf. cbn [get_prop].
  destruct (find_entry airlines (default VUndef (m !! "carrierCode")) H)
    as (found & -> & [-> | [am ->]]); cbn; eauto.
Qed.

Lemma airline_lookups_app (cs1 cs2 : list call) :
  airline_lookups (cs1 ++ cs2) = (airline_lookups cs1 + airline_lookups cs2)%nat.
Proof. unfold airline_lookups. now rewrite List.filter_app, length_app. Qed.

Lemma at_most_refl (w : world) : at_most 0 w w.
Proof. exists []. split; [now rewrite issued_nil | reflexivity]. Qed.

Lemma at_most_trans (a b : nat) (w1 w2 w3 : world) :
  at_most a w1 w2 -> at_most b w2 w3 -> at_most (a + b) w1 w3.
Proof.
  intros (cs1 & -> & H1) (cs2 & -> & H2). exists (cs1 ++ cs2).
  split; [apply issued_issued | rewrite airline_lookups_app; lia].
Qed.

Lemma at_most_le (a b : nat) (w w' : world) :
  (a <= b)%nat -> at_most a w w' -> at_most b w w'.
Proof. intros Hab (cs & -> & H). exists cs. split; [reflexivity | lia]. Qed.

Lemma only_locations_refl (w : world) : only_locations w w.
Proof. apply at_most_refl. Qed.

Lemma only_locations_trans (w1 w2 w3 : world) :
  only_locations w1 w2 -> only_locations w2 w3 -> only_locations w1 w3.
Proof. apply (at_most_trans 0 0). Qed.

Lemma segment_enriched_endpoints (s s' : value) :
  segment_enriched s s' -> endpoints_of s' = endpoints_of s.
Proof.
  intros (_ & d & d' & a & a' & Hd & Hd' & Ha & Ha' & [Fd _] & [Fa _]).
  unfold endpoints_of. rewrite Hd, Hd', Ha, Ha'. cbn [obind].
  rewrite (Fd "iataCode"), (Fa "iataCode"); [reflexivity| |];
    rewrite !not_elem_of_cons; repeat split; try discriminate; apply not_elem_of_nil.
Qed.

Lemma endpoint_enriched_obj (d : gmap string value) (w : world) :
  endpoint_enriched (VObj d)
    (VObj (<["terminal" := or_else (default VUndef (d !! "terminal")) (VStr "N/A")]>
           (<["airportName" :=
               airport (lookup_location (default VUndef (d !! "iataCode")) w)]>
            (<["cityName" :=
                city (lookup_location (default VUndef (d !! "iataCode")) w)]> d)))).
Proof.
  split; [|split].
  - intros k Hk. rewrite !not_elem_of_cons in Hk. destruct Hk as (? & ? & ? & _).
    cbn [get_prop]. now rewrite !lookup_insert_ne.
  - eexists. cbn [get_prop]. map_lookups. split; reflexivity.
  - eexists _, w. cbn [get_prop]. map_lookups. repeat split; reflexivity.
Qed.

(** The loop body on a well-formed segment: it completes, after two
    location lookups, and touches nothing but the fields it derives. *)
Lemma enrichSegment_wf (airlines : list value) (s : value) (w : world) :
  wf_segment s -> entries airlines ->
  exists s' w',
    enrichSegment airlines s w = (Ok s', w')
    /\ only_locations w w'
    /\ wf_segment s'
    /\ segment_enriched s s'
    /\ segment_derived airlines s s'.
Proof.
  intros (m & d & a & -> & Hd & Ha) Hentries.
  destruct (airlineNameOf_total airlines m Hentries) as [name Hname].
  unfold enrichSegment, bind, lift. cbn [get_prop]. rewrite Hd, Ha.
  cbn [default from_option id get_prop].
  rewrite getCityAndAirportName_run. rewrite getCityAndAirportName_run.
  rewrite decorate_eq, Hd, Ha, !decorated_obj, Hname. cbn [obind get_prop].
  eexists _, _. split; [reflexivity|]. split; [|split; [|split]].
  - eexists [_; _]. unfold issued. cbn [calls accessToken]. rewrite <- app_assoc.
    split; reflexivity.
  - eexists _, _, _. split; [reflexivity|]. now map_lookups.
  - split.
    + intros k Hk. rewrite !not_elem_of_cons in Hk.
      destruct Hk as (? & ? & ? & ? & _). cbn [get_prop]. now rewrite !lookup_insert_ne.
    + exists (VObj d). eexists. exists (VObj a). eexists.
      cbn [get_prop]. map_lookups. rewrite Hd, Ha. cbn [default from_option id].
      split; [reflexivity|]. split; [reflexivity|].
      split; [reflexivity|]. split; [reflexivity|].
      split; apply endpoint_enriched_obj.
  - split.
    + cbn [get_prop]. map_lookups. now rewrite Hname.
    + exists (VObj d), (VObj a). eexists. eexists.
      cbn [get_prop]. map_lookups. rewrite Hd, Ha.
      repeat split; reflexivity.
Qed.

(** ** The loops over itineraries and segments *)

Lemma for_each_Forall2 {A} (body : value -> M A) (R : value -> A -> Prop)
    (Q : world -> world -> Prop) (l : list value) :
  (forall w, Q w w) ->
  (forall w1 w2 w3, Q w1 w2 -> Q w2 w3 -> Q w1 w3) ->
  Forall (fun x => forall w, exists y w', body x w = (Ok y, w') /\ Q w w' /\ R x y) l ->
  forall w, exists l' w', for_each body l w = (Ok l', w') /\ Q w w' /\ Forall2 R l l'.
Proof.
  intros Qrefl Qtrans. induction 1 as [|x l Hx _ IH]; intros w; cbn [for_each].
  - exists [], w. repeat split; [apply Qrefl | constructor].
  - destruct (Hx w) as (y & w1 & Hy & Q1 & Rxy).
    destruct (IH w1) as (l' & w2 & Hl' & Q2 & Rl).
    exists (y :: l'), w2. unfold bind, ret. rewrite Hy, Hl'.
    repeat split; [eapply Qtrans; eassumption | now constructor].
Qed.

Lemma Forall2_concat_fmap {A B C D} (P : C -> D -> Prop) (f : A -> list C)
    (g : B -> list D) (l : list A) (k : list B) :
  Forall2 (fun x y => Forall2 P (f x) (g y)) l k ->
  Forall2 P (concat (f <$> l)) (concat (g <$> k)).
Proof.
  induction 1; cbn; [constructor | now apply Forall2_app].
Qed.

Lemma enrichItinerary_wf (airlines : list value) (itinerary : value) (w : world) :
  wf_itinerary itinerary -> entries airlines ->
  exists itinerary' w',
    enrichItinerary airlines itinerary w = (Ok itinerary', w')
    /\ only_locations w w'
    /\ same_outside ["segments"] itinerary itinerary'
    /\ Forall2 (enriches airlines) (segments_in itinerary) (segments_in itinerary').
Proof.
  intros (m & segments & -> & Hsegments & Hwf) Hentries.
  destruct (for_each_Forall2 (enrichSegment airlines) (enriches airlines) only_locations
              segments only_locations_refl only_locations_trans) with (w := w)
    as (segments' & w' & Hrun & Hcalls & Hrel).
  { eapply Forall_impl; [exact Hwf|]. intros s Hs w0.
    destruct (enrichSegment_wf airlines s w0 Hs Hentries) as (s' & w1 & ? & ? & ? & ? & ?).
    exists s', w1. unfold enriches. auto. }
  exists (VObj (<["segments" := VArr segments']> m)), w'.
  unfold enrichItinerary, bind, lift, for_of_update, ret. cbn [get_prop].
  rewrite Hsegments. cbn [default from_option id]. unfold bind. rewrite Hrun.
  cbn [set_prop]. repeat split; [exact Hcalls | |].
  - intros k Hk. rewrite !not_elem_of_cons in Hk. destruct Hk as (? & _).
    cbn [get_prop]. now rewrite lookup_insert_ne.
  - unfold segments_in. cbn [get_prop]. map_lookups. rewrite Hsegments. exact Hrel.
Qed.

Lemma enrichOffer_wf (airlines : list value) (offer : value) (w : world) :
  wf_offer offer -> entries airlines ->
  exists offer' w',
    enrichOffer airlines offer w = (Ok offer', w')
    /\ only_locations w w'
    /\ same_outside ["itineraries"] offer offer'
    /\ Forall2 (same_outside ["segments"]) (itineraries_of offer) (itineraries_of offer')
    /\ Forall2 (enriches airlines) (segments_of offer) (segments_of offer').
Proof.
  intros (m & itineraries & -> & Hitineraries & Hwf) Hentries.
  destruct (for_each_Forall2 (enrichItinerary airlines)
              (fun i i' => same_outside ["segments"] i i'
                           /\ Forall2 (enriches airlines) (segments_in i) (segments_in i'))
              only_locations itineraries only_locations_refl only_locations_trans)
    with (w := w) as (itineraries' & w' & Hrun & Hcalls & Hrel).
  { eapply Forall_impl; [exact Hwf|]. intros i Hi w0.
    destruct (enrichItinerary_wf airlines i w0 Hi Hentries) as (i' & w1 & ? & ? & ? & ?).
    exists i', w1. auto. }
  exists (VObj (<["itineraries" := VArr itineraries']> m)), w'.
  unfold enrichOffer, bind, lift, for_of_update, ret. cbn [get_prop].
  rewrite Hitineraries. cbn [default from_option id]. unfold bind. rewrite Hrun.
  cbn [set_prop]. repeat split; [exact Hcalls | | |].
  - intros k Hk. rewrite !not_elem_of_cons in Hk. destruct Hk as (? & _).
    cbn [get_prop]. now rewrite lookup_insert_ne.
  - unfold itineraries_of. cbn [get_prop]. map_lookups. rewrite Hitineraries.
    cbn [default from_option id]. eapply Forall2_impl; [exact Hrel|]. now intros ? ? [? _].
  - unfold segments_of. cbn [get_prop]. map_lookups. rewrite Hitineraries.
    cbn [default from_option id]. apply Forall2_concat_fmap.
    eapply Forall2_impl; [exact Hrel|]. now intros ? ? [_ ?].
Qed.

(** ** Rebuilding the segments of a booking *)

Lemma endpoint_rebuilt_obj (d : gmap string value) (w : world) :
  endpoint_rebuilt (VObj d)
    (obj [("cityName", city (lookup_location (default VUndef (d !! "iataCode")) w));
          ("airportName", airport (lookup_location (default VUndef (d !! "iataCode")) w));
          ("iataCode", default VUndef (d !! "iataCode"));
          ("at", default VUndef (d !! "at"))]).
Proof.
  split; [reflexivity|]. split; [reflexivity|].
  eexists _, w. repeat split; reflexivity.
Qed.

Lemma rebuildSegment_wf (s : value) (w : world) :
  wf_segment s ->
  exists s' w',
    rebuildSegment s w = (Ok s', w') /\ only_locations w w' /\ segment_rebuilt s s'.
Proof.
  intros (m & d & a & -> & Hd & Ha).
  unfold rebuildSegment, bind, lift. cbn [get_prop]. rewrite Hd, Ha.
  cbn [default from_option id get_prop].
  rewrite getCityAndAirportName_run. rewrite getCityAndAirportName_run.
  unfold rebuilt. cbn [get_prop spread]. rewrite Hd, Ha.
  cbn [default from_option id get_prop obind].
  eexists _, _. split; [reflexivity|]. split; [|split].
  - eexists [_; _]. unfold issued. cbn [calls accessToken]. rewrite <- app_assoc.
    split; reflexivity.
  - intros k Hk. rewrite !not_elem_of_cons in Hk. destruct Hk as (? & ? & _).
    cbn [get_prop]. now rewrite !lookup_insert_ne.
  - exists (VObj d). eexists. exists (VObj a). eexists.
    cbn [get_prop]. map_lookups. rewrite Hd, Ha. cbn [default from_option id].
    split; [reflexivity|]. split; [reflexivity|].
    split; [reflexivity|]. split; [reflexivity|].
    split; apply endpoint_rebuilt_obj.
Qed.

Lemma collect_Forall2 (body : value -> M (list value)) (f : value -> list value)
    (R : value -> value -> Prop) (l : list value) :
  Forall (fun x => forall w, exists ys w',
            body x w = (Ok ys, w') /\ only_locations w w' /\ Forall2 R (f x) ys) l ->
  forall w, exists ys w',
    collect body l w = (Ok ys, w') /\ only_locations w w'
    /\ Forall2 R (concat (f <$> l)) ys.
Proof.
  induction 1 as [|x l Hx _ IH]; intros w; cbn [collect].
  - exists [], w. repeat split; [apply only_locations_refl | constructor].
  - destruct (Hx w) as (ys & w1 & Hys & Q1 & Rys).
    destruct (IH w1) as (more & w2 & Hmore & Q2 & Rmore).
    exists (ys ++ more), w2. unfold bind, ret. rewrite Hys, Hmore.
    repeat split; [eapply only_locations_trans; eassumption|].
    cbn. now apply Forall2_app.
Qed.

Lemma itinerarySegments_wf (itinerary : value) (w : world) :
  wf_itinerary itinerary ->
  exists segments' w',
    itinerarySegments itinerary w = (Ok segments', w') /\ only_locations w w'
    /\ Forall2 segment_rebuilt (segments_in itinerary) segments'.
Proof.
  intros (m & segments & -> & Hsegments & Hwf).
  unfold itinerarySegments, bind, lift, segments_in. cbn [get_prop].
  rewrite Hsegments. cbn [default from_option id when_array truthy is_array andb].
  apply for_each_Forall2;
    [exact only_locations_refl | exact only_locations_trans |].
  eapply Forall_impl; [exact Hwf|]. intros s Hs w0. now apply rebuildSegment_wf.
Qed.

Lemma offerSegments_wf (offer : value) (w : world) :
  wf_offer offer ->
  exists segments' w',
    offerSegments offer w = (Ok segments', w') /\ only_locations w w'
    /\ Forall2 segment_rebuilt (segments_of offer) segments'.
Proof.
  intros (m & itineraries & -> & Hitineraries & Hwf).
  unfold offerSegments, bind, lift, segments_of. cbn [get_prop].
  rewrite Hitineraries. cbn [default from_option id when_array truthy is_array andb].
  apply collect_Forall2.
  eapply Forall_impl; [exact Hwf|]. intros i Hi w0. now apply itinerarySegments_wf.
Qed.

Lemma bookedSegments_wf (bookingDetails : value) (w : world) :
  wf_booking bookingDetails ->
  exists segments' w',
    bookedSegments bookingDetails w = (Ok segments', w') /\ only_locations w w'
    /\ Forall2 segment_rebuilt (booking_segments bookingDetails) segments'.
Proof.
  intros (data & offers & Hdata & Hoffers & Hwf).
  unfold bookedSegments, bind, lift, booking_segments. rewrite Hdata. cbn [obind].
  rewrite Hoffers. cbn [when_array truthy is_array andb].
  apply collect_Forall2.
  eapply Forall_impl; [exact Hwf|]. intros o Ho w0. now apply offerSegments_wf.
Qed.

Lemma segment_rebuilt_endpoints (s s' : value) :
  segment_rebuilt s s' -> endpoints_of s' = endpoints_of s.
Proof.
  intros (_ & d & d' & a & a' & Hd & Hd' & Ha & Ha' & [Fd _] & [Fa _]).
  unfold endpoints_of. rewrite Hd, Hd', Ha, Ha'. cbn [obind]. now rewrite Fd, Fa.
Qed.

(** ** Counting airline lookups *)

Lemma budget_le {A} (a b : nat) (m : M A) :
  (a <= b)%nat -> budget a m -> budget b m.
Proof. intros Hab H w. eapply at_most_le; [exact Hab | apply H]. Qed.

Lemma budget_ret {A} (a : A) : budget 0 (ret a).
Proof. intros w. apply at_most_refl. Qed.

Lemma budget_lift {A} (o : outcome A) : budget 0 (lift o).
Proof. intros w. apply at_most_refl. Qed.

Lemma budget_throw {A} : budget 0 (@throw A).
Proof. intros w. apply at_most_refl. Qed.

Lemma budget_bearer : budget 0 bearer.
Proof. intros w. apply at_most_refl. Qed.

Lemma budget_axios (c : call) :
  budget (if is_airline_call c then 1 else 0) (axios c).
Proof.
  intros w. exists [c]. split; [reflexivity|].
  unfold airline_lookups. cbn. now destruct (is_airline_call c).
Qed.

Lemma budget_bind {A B} (a b : nat) (m : M A) (f : A -> M B) :
  budget a m -> (forall x, budget b (f x)) -> budget (a + b) (bind m f).
Proof.
  intros Hm Hf w. unfold bind. specialize (Hm w).
  destruct (m w) as [[x|] w1]; cbn [snd] in *.
  - eapply at_most_trans; [exact Hm | apply Hf].
  - eapply at_most_le; [|exact Hm]. lia.
Qed.

Lemma budget_try_catch {A} (a b : nat) (body handler : M A) :
  budget a body -> budget b handler -> budget (a + b) (try_catch body handler).
Proof.
  intros Hbody Hhandler w. unfold try_catch. specialize (Hbody w).
  destruct (body w) as [[x|] w1]; cbn [snd] in *.
  - eapply at_most_le; [|exact Hbody]. lia.
  - eapply at_most_trans; [exact Hbody | apply Hhandler].
Qed.

Lemma budget_for_each {A} (body : value -> M A) (l : list value) :
  (forall x, budget 0 (body x)) -> budget 0 (for_each body l).
Proof.
  intros Hbody. induction l as [|x l IH]; cbn [for_each]; [apply budget_ret|].
  apply (budget_bind 0 0); [apply Hbody|]. intros y.
  apply (budget_bind 0 0); [exact IH|]. intros ys. apply budget_ret.
Qed.

Lemma budget_for_of_update (body : value -> M value) (v : value) :
  (forall x, budget 0 (body x)) -> budget 0 (for_of_update body v).
Proof.
  intros Hbody. destruct v; cbn [for_of_update]; try apply budget_throw.
  - apply (budget_bind 0 0); [now apply budget_for_each|]. intros. apply budget_ret.
  - apply (budget_bind 0 0); [now apply budget_for_each|]. intros. apply budget_ret.
Qed.

Lemma budget_getCityAndAirportName (iataCode : value) :
  budget 0 (getCityAndAirportName iataCode).
Proof.
  intros w. rewrite getCityAndAirportName_run. eexists [_]. split; reflexivity.
Qed.

Lemma budget_enrichSegment (airlines : list value) (s : value) :
  budget 0 (enrichSegment airlines s).
Proof.
  unfold enrichSegment.
  apply (budget_bind 0 0); [apply budget_lift|]. intros d.
  apply (budget_bind 0 0); [apply budget_lift|]. intros dc.
  apply (budget_bind 0 0); [apply budget_getCityAndAirportName|]. intros ld.
  apply (budget_bind 0 0); [apply budget_lift|]. intros a.
  apply (budget_bind 0 0); [apply budget_lift|]. intros ac.
  apply (budget_bind 0 0); [apply budget_getCityAndAirportName|]. intros la.
  apply budget_lift.
Qed.

Lemma budget_enrichItinerary (airlines : list value) (itinerary : value) :
  budget 0 (enrichItinerary airlines itinerary).
Proof.
  unfold enrichItinerary.
  apply (budget_bind 0 0); [apply budget_lift|]. intros segments.
  apply (budget_bind 0 0);
    [apply budget_for_of_update, budget_enrichSegment|]. intros segments'.
  apply budget_lift.
Qed.

(** The enrichment loop looks no airline up, whatever it is given. *)
Lemma budget_enrichOffer (airlines : list value) (offer : value) :
  budget 0 (enrichOffer airlines offer).
Proof.
  unfold enrichOffer.
  apply (budget_bind 0 0); [apply budget_lift|]. intros itineraries.
  apply (budget_bind 0 0);
    [apply budget_for_of_update, budget_enrichItinerary|]. intros itineraries'.
  apply budget_lift.
Qed.

Lemma budget_resolveAirlines (codes airlines : list value) :
  budget (length codes) (resolveAirlines codes airlines).
Proof.
  intros w. destruct (resolveAirlines_calls codes airlines w) as [result ->].
  eexists. split; [reflexivity|]. unfold airline_lookups.
  etransitivity; [apply List.filter_length_le|]. now rewrite length_fmap.
Qed.

(** A batch of one offer costs at most one airline lookup. *)
Lemma budget_getAirlinesFromFlightOffers_one (flight : value) :
  budget 1 (getAirlinesFromFlightOffers [flight]).
Proof.
  intros w. unfold getAirlinesFromFlightOffers, bind, lift. cbn [map_by].
  destruct (firstCarrierCode flight) as [code|]; cbn [obind snd].
  - apply (budget_resolveAirlines [code] [] w).
  - eapply at_most_le; [|apply at_most_refl]. lia.
Qed.

(** [/flight-details] looks at most one airline up. *)
Lemma budget_flight_details (query : gmap string value) :
  budget 1 (flight_details query).
Proof.
  unfold flight_details.
  destruct (negb (truthy (query_param query "offerId")));
    [eapply budget_le; [|apply budget_ret]; lia|].
  apply (budget_try_catch 1 0); [|apply budget_ret].
  apply (budget_bind 0 1); [apply budget_bearer|]. intros authorization.
  apply (budget_bind 0 1); [apply (budget_axios (GET flightOffersUrl _ _))|].
  intros found.
  apply (budget_bind 0 1); [apply budget_lift|]. intros flightOffer.
  destruct (negb (truthy flightOffer));
    [eapply budget_le; [|apply budget_ret]; lia|].
  apply (budget_bind 0 1); [apply budget_bearer|]. intros authorization'.
  apply (budget_bind 0 1); [apply (budget_axios (POST flightPricingUrl _ _))|].
  intros flightDetails.
  apply (budget_bind 1 0); [apply budget_getAirlinesFromFlightOffers_one|].
  intros airlines.
  apply (budget_bind 0 0); [apply budget_lift|]. intros priced.
  apply (budget_bind 0 0); [apply budget_enrichOffer|]. intros flight.
  apply budget_lift.
Qed.

(** ** What every enriched segment satisfies *)

Lemma decorate_names (airlines : list value) (departureLocation arrivalLocation : location)
    (s s' : value) :
  decorate airlines departureLocation arrivalLocation s = Ok s' ->
  get_prop s' "airlineName" = airlineNameOf airlines s'.
Proof.
  rewrite decorate_eq. destruct s as [| | | | | |m]; try discriminate.
  destruct (m !! "departure") as [d|]; [|discriminate].
  destruct (m !! "arrival") as [a|]; [|discriminate].
  destruct (decorated departureLocation d) as [d'|]; [|discriminate].
  destruct (decorated arrivalLocation a) as [a'|]; [|discriminate]. cbn [obind].
  destruct (airlineNameOf airlines (VObj m)) as [name|] eqn:Hname; [|discriminate].
  destruct (get_prop d "at"); [|discriminate].
  destruct (get_prop a "at"); [|discriminate]. cbn [obind].
  intros [= <-]. cbn [get_prop]. map_lookups. cbn [default from_option id].
  rewrite <- Hname. apply airlineNameOf_ext. cbn [get_prop]. now map_lookups.
Qed.

Lemma enrichSegment_names (airlines : list value) (s s' : value) (w w' : world) :
  enrichSegment airlines s w = (Ok s', w') ->
  get_prop s' "airlineName" = airlineNameOf airlines s'.
Proof.
  unfold enrichSegment, bind, lift.
  destruct (get_prop s "departure") as [d|]; [|discriminate].
  destruct (get_prop d "iataCode") as [dc|]; [|discriminate].
  rewrite getCityAndAirportName_run.
  destruct (get_prop s "arrival") as [a|]; [|discriminate].
  destruct (get_prop a "iataCode") as [ac|]; [|discriminate].
  rewrite getCityAndAirportName_run.
  intros [= H _]. eapply decorate_names, H.
Qed.

Lemma for_each_post {A} (body : value -> M A) (P : A -> Prop) (l : list value) :
  (forall x w y w', body x w = (Ok y, w') -> P y) ->
  forall w l' w', for_each body l w = (Ok l', w') -> Forall P l'.
Proof.
  intros Hbody. induction l as [|x l IH]; intros w l' w'; cbn [for_each].
  - intros [= <- _]. constructor.
  - unfold bind, ret. destruct (body x w) as [[y|] w1] eqn:Hy; [|discriminate].
    destruct (for_each body l w1) as [[ys|] w2] eqn:Hys; [|discriminate].
    intros [= <- _]. constructor; [eapply Hbody, Hy | eapply IH, Hys].
Qed.

Lemma for_of_update_post (body : value -> M value) (P : value -> Prop) (v : value) :
  (forall x w y w', body x w = (Ok y, w') -> P y) ->
  forall w v' w', for_of_update body v w = (Ok v', w') ->
  match v' with
  | VArr l' => Forall P l'
  | _ => True
  end.
Proof.
  intros Hbody w v' w'. destruct v; cbn [for_of_update]; try discriminate.
  - unfold bind, ret. destruct (for_each body (chars s) w) as [[l'|] w1]; [|discriminate].
    now intros [= <- _].
  - unfold bind, ret.
    destruct (for_each body elems w) as [[l'|] w1] eqn:Hrun; [|discriminate].
    intros [= <- _]. eapply for_each_post; eassumption.
Qed.

Lemma enrichItinerary_names (airlines : list value) (itinerary itinerary' : value)
    (w w' : world) :
  enrichItinerary airlines itinerary w = (Ok itinerary', w') ->
  Forall (fun s' => get_prop s' "airlineName" = airlineNameOf airlines s')
    (segments_in itinerary').
Proof.
  unfold enrichItinerary, bind, lift.
  destruct (get_prop itinerary "segments") as [segments|] eqn:Hsegments; [|discriminate].
  destruct (for_of_update (enrichSegment airlines) segments w) as [[segments'|] w1] eqn:Hrun;
    [|discriminate].
  pose proof (for_of_update_post _ _ segments
                (fun x w0 y w0' => enrichSegment_names airlines x y w0 w0') _ _ _ Hrun)
    as Hpost.
  destruct itinerary as [| | | | s |l|m]; cbn [set_prop]; try discriminate;
    intros [= <- _]; unfold segments_in; cbn [get_prop].
  - constructor.
  - constructor.
  - destruct (String.eqb "segments" "length"); constructor.
  - destruct (String.eqb "segments" "length"); constructor.
  - map_lookups. cbn [default from_option id].
    destruct segments'; try constructor. exact Hpost.
Qed.

Lemma Forall_concat_fmap {A B} (P : B -> Prop) (f : A -> list B) (l : list A) :
  Forall (fun x => Forall P (f x)) l -> Forall P (concat (f <$> l)).
Proof. induction 1; cbn; [constructor | now apply Forall_app]. Qed.

(** In every offer that the enrichment loop returns, the [airlineName] of
    a segment is the name the resolved set gives its [carrierCode]. *)
Lemma enrichOffer_names (airlines : list value) (offer offer' : value) (w w' : world) :
  enrichOffer airlines offer w = (Ok offer', w') ->
  Forall (fun s' => get_prop s' "airlineName" = airlineNameOf airlines s')
    (segments_of offer').
Proof.
  unfold enrichOffer, bind, lift.
  destruct (get_prop offer "itineraries") as [itineraries|]; [|discriminate].
  destruct (for_of_update (enrichItinerary airlines) itineraries w)
    as [[itineraries'|] w1] eqn:Hrun; [|discriminate].
  pose proof (for_of_update_post _ _ itineraries
                (fun x w0 y w0' => enrichItinerary_names airlines x y w0 w0') _ _ _ Hrun)
    as Hpost.
  destruct offer as [| | | | s |l|m]; cbn [set_prop]; try discriminate;
    intros [= <- _]; unfold segments_of; cbn [get_prop].
  - constructor.
  - constructor.
  - destruct (String.eqb "itineraries" "length"); constructor.
  - destruct (String.eqb "itineraries" "length"); constructor.
  - map_lookups. cbn [default from_option id].
    destruct itineraries'; try constructor. now apply Forall_concat_fmap.
Qed.

Lemma same_carrier_same_name (airlines segments : list value) (s1 s2 : value) :
  Forall (fun s' => get_prop s' "airlineName" = airlineNameOf airlines s') segments ->
  s1 ∈ segments -> s2 ∈ segments ->
  get_prop s1 "carrierCode" = get_prop s2 "carrierCode" ->
  get_prop s1 "airlineName" = get_prop s2 "airlineName".
Proof.
  rewrite Forall_forall. intros Hnames H1 H2 Hsame.
  rewrite (Hnames s1 H1), (Hnames s2 H2). now apply airlineNameOf_ext.
Qed.

(** The offer that [/flight-details] renders is one that the enrichment
    loop returned. *)
Lemma flight_details_renders_enriched (query : gmap string value) (view : string)
    (locals : value) (w w' : world) :
  flight_details query w = (Ok (Render view locals), w') ->
  exists airlines priced w1 flight,
    enrichOffer airlines priced w1 = (Ok flight, w')
    /\ get_prop locals "flight" = Ok flight.
Proof.
  unfold flight_details.
  destruct (negb (truthy (query_param query "offerId"))); [discriminate|].
  unfold try_catch, bind at 1. unfold bearer at 1.
  unfold bind at 1. destruct (axios _ _) as [[found|] w1]; [|discriminate].
  unfold bind at 1, lift at 1.
  destruct (findOffer _ found) as [flightOffer|]; [|discriminate].
  destruct (negb (truthy flightOffer)); [discriminate|].
  unfold bind at 1. unfold bearer at 1.
  unfold bind at 1. destruct (axios _ _) as [[flightDetails|] w2]; [|discriminate].
  unfold bind at 1.
  destruct (getAirlinesFromFlightOffers [flightOffer] w2) as [[airlines|] w3];
    [|discriminate].
  unfold bind at 1, lift at 1.
  destruct (let? data := get_prop flightDetails "data" in
            let? offers := get_prop data "flightOffers" in get_index offers 0)
    as [priced|]; [|discriminate].
  unfold bind.
  destruct (enrichOffer airlines priced w3) as [[flight|] w4] eqn:Hrun; [|discriminate].
  unfold lift.
  destruct (get_prop flight "price") as [price|]; [|discriminate]. cbn [obind].
  destruct (get_prop price "total") as [total|]; [|discriminate]. cbn [obind].
  destruct (get_prop price "totalTaxes") as [taxes|]; [|discriminate]. cbn [obind].
  intros [= <- <- <-]. exists airlines, priced, w3, flight. split; [exact Hrun | reflexivity].
Qed.

(** ** Enrichment keeps what upstream sent *)

Lemma Forall2_fmap_eq {A B} (f : A -> B) (l k : list A) :
  Forall2 (fun x y => f y = f x) l k -> f <$> k = f <$> l.
Proof. induction 1 as [|x y l k Hxy _ IH]; cbn; [reflexivity|]. now rewrite Hxy, IH. Qed.

(** C1, amended.  On an offer, or a booking record, whose segments are
    objects with two endpoint objects, both enrichments complete and
    return as many segments as they were given, in the same order, with
    the same departure and arrival codes.  The loop of [/flight-details]
    leaves every field of the offer other than [itineraries], every field
    of an itinerary other than [segments], and every field of a segment
    other than [departure], [arrival], [airlineName] and [flightDuration]
    as it was; in an endpoint it leaves every field other than [cityName],
    [airportName] and [terminal] as it was, keeps the terminal when there
    is one and sets it to "N/A" otherwise; it sets [cityName] and
    [airportName] to what a lookup of the endpoint's code resolves to,
    [airlineName] to the name the resolved set gives the carrier, and
    [flightDuration].  The reconstruction of [/booked-flight] leaves every
    field of a segment other than [departure] and [arrival] as it was, and
    gives each endpoint the [iataCode] and [at] it had, with the
    [cityName] and [airportName] that a lookup of its code resolves to. *)
Theorem enrichment_keeps_upstream_fields
    (airlines : list value) (offer bookingDetails : value) (w : world) :
  wf_offer offer -> entries airlines -> wf_booking bookingDetails ->
  (exists offer' w',
      enrichOffer airlines offer w = (Ok offer', w')
      /\ same_outside ["itineraries"] offer offer'
      /\ Forall2 (same_outside ["segments"]) (itineraries_of offer) (itineraries_of offer')
      /\ length (segments_of offer') = length (segments_of offer)
      /\ endpoints_of <$> segments_of offer' = endpoints_of <$> segments_of offer
      /\ Forall2 (fun s s' => segment_enriched s s' /\ segment_derived airlines s s')
           (segments_of offer) (segments_of offer'))
  /\ (exists segments' w',
      bookedSegments bookingDetails w = (Ok segments', w')
      /\ length segments' = length (booking_segments bookingDetails)
      /\ endpoints_of <$> segments' = endpoints_of <$> booking_segments bookingDetails
      /\ Forall2 segment_rebuilt (booking_segments bookingDetails) segments').
Proof.
  intros Hoffer Hentries Hbooking. split.
  - destruct (enrichOffer_wf airlines offer w Hoffer Hentries)
      as (offer' & w' & Hrun & _ & Hframe & Hitineraries & Hsegments).
    exists offer', w'. repeat split; try assumption.
    + symmetry. eapply Forall2_length, Hsegments.
    + apply Forall2_fmap_eq. eapply Forall2_impl; [exact Hsegments|].
      intros s s' (_ & Hs & _). now apply segment_enriched_endpoints.
    + eapply Forall2_impl; [exact Hsegments|]. now intros s s' (_ & Hs & Hd).
  - destruct (bookedSegments_wf bookingDetails w Hbooking)
      as (segments' & w' & Hrun & _ & Hsegments).
    exists segments', w'. repeat split; try assumption.
    + symmetry. eapply Forall2_length, Hsegments.
    + apply Forall2_fmap_eq. eapply Forall2_impl; [exact Hsegments|].
      intros s s' Hs. now apply segment_rebuilt_endpoints.
Qed.

(** ** The duration of a segment *)

Lemma flightDuration_rendering (t1 t2 : Z) :
  flightDuration (Some t1) (Some t2) =
    rendering ((t2 - t1) / 60000 / 60) (Z.rem ((t2 - t1) / 60000) 60).
Proof. reflexivity. Qed.

(** C4, amended.  For a segment whose [departure.at] and [arrival.at] have
    the time values [t1] and [t2], less than 2^53 milliseconds apart, with
    [d = floor ((t2 - t1) / 60000)] whole minutes between them,
    [flightDuration] is
    ["<floor (d / 60)>h <r>m"] where [r] is the remainder of [d] by 60 with
    the sign of [d]; [r] is [d mod 60] whenever [d] is not negative.
    Nothing guards a negative [d].  Two and a half hours render as
    "2h 30m", equal time values as "0h 0m", and two and a half hours
    backwards as "-3h -30m". *)
Theorem flightDuration_hours_and_remainder
    (airlines : list value) (s departureAt arrivalAt : value) (t1 t2 : Z) (w : world) :
  wf_segment s -> entries airlines ->
  read s ["departure"; "at"] = Ok departureAt ->
  read s ["arrival"; "at"] = Ok arrivalAt ->
  Date_of departureAt = Some t1 -> Date_of arrivalAt = Some t2 ->
  exact_span t1 t2 ->
  let d := (t2 - t1) / 60000 in
  (exists s' w',
      enrichSegment airlines s w = (Ok s', w')
      /\ get_prop s' "flightDuration" = Ok (VStr (rendering (d / 60) (Z.rem d 60))))
  /\ (0 <= d -> Z.rem d 60 = d mod 60)
  /\ (t2 = t1 + 9000000 -> rendering (d / 60) (Z.rem d 60) = "2h 30m")
  /\ (t2 = t1 -> rendering (d / 60) (Z.rem d 60) = "0h 0m")
  /\ (t2 = t1 - 9000000 -> rendering (d / 60) (Z.rem d 60) = "-3h -30m").
Proof.
  intros Hs Hentries Hdep Harr Ht1 Ht2 _ d. split; [|split; [|split; [|split]]].
  - destruct (enrichSegment_wf airlines s w Hs Hentries)
      as (s' & w' & Hrun & _ & _ & _ & _ & d0 & a0 & dAt & aAt & Hd & HdAt & Ha & HaAt & Hfield).
    exists s', w'. split; [exact Hrun|].
    cbn [read] in Hdep, Harr. rewrite Hd in Hdep. rewrite Ha in Harr.
    cbn [obind] in Hdep, Harr. rewrite HdAt in Hdep. rewrite HaAt in Harr.
    cbn [obind] in Hdep, Harr. injection Hdep as ->. injection Harr as ->.
    rewrite Hfield, Ht1, Ht2. now rewrite flightDuration_rendering.
  - intros Hd. apply Z.rem_mod_nonneg; lia.
  - intros ->. subst d. now replace (t1 + 9000000 - t1) with 9000000 by lia.
  - intros ->. subst d. now rewrite Z.sub_diag.
  - intros ->. subst d. now replace (t1 - 9000000 - t1) with (-9000000) by lia.
Qed.

(** ** One failing lookup among several *)

Lemma resolved_entries (codes : list value) (answers : list (option value)) :
  Forall2 (fun c reply => exists name, answers_with reply c name) codes answers ->
  Forall2 (fun c entry => exists name, entry = obj [("code", c); ("name", name)])
    codes (omap resolved answers)
  /\ Forall2 (fun reply entry => resolved reply = Some entry)
       answers (omap resolved answers).
Proof.
  induction 1 as [|c reply codes answers [name Hc] _ [IH1 IH2]]; cbn [omap list_omap].
  - split; constructor.
  - rewrite (airlineEntry_answer _ _ _ Hc).
    split; constructor; eauto using airlineEntry_answer.
Qed.

Lemma airlineNameOf_unmatched (codes airlines : list value) (s code : value) :
  Forall2 (fun c entry => exists name, entry = obj [("code", c); ("name", name)])
    codes airlines ->
  Forall (fun c => strict_eq c code = false) codes ->
  get_prop s "carrierCode" = Ok code ->
  airlineNameOf airlines s = Ok code.
Proof.
  intros Hentries Hdistinct Hcode. unfold airlineNameOf. rewrite Hcode.
  induction Hentries as [|c entry codes airlines [name ->] _ IH]; cbn [find_by].
  - reflexivity.
  - inversion Hdistinct as [|? ? Hc Hrest]; subst.
    replace (get_prop (obj [("code", c); ("name", name)]) "code") with (Ok c)
      by reflexivity.
    cbn [obind]. rewrite Hc. now apply IH.
Qed.

Lemma entries_of_answers (codes airlines : list value) :
  Forall2 (fun c entry => exists name, entry = obj [("code", c); ("name", name)])
    codes airlines ->
  entries airlines.
Proof.
  induction 1 as [|c entry codes airlines [name ->] _ IH]; constructor; eauto.
Qed.

(** C7.  When the lookup of one unique carrier code is rejected and those
    of the others succeed, [getAirlinesFromFlightOffers] still looks every
    code up and returns exactly the entries of the codes that succeeded,
    in order; a segment that carries the failing code is then enriched
    with that code as its [airlineName]. *)
Theorem failed_airline_lookup_is_omitted
    (flights carrierCodes pre post : list value) (code : value)
    (before after : list (option value)) (w : world) :
  map_by firstCarrierCode flights = Ok carrierCodes ->
  unique carrierCodes = pre ++ code :: post ->
  replies (calls w) (airlineCall (authorization_of w) <$> pre ++ code :: post)
    = before ++ None :: after ->
  Forall2 (fun c reply => exists name, answers_with reply c name) pre before ->
  Forall2 (fun c reply => exists name, answers_with reply c name) post after ->
  exists airlines,
    getAirlinesFromFlightOffers flights w =
      (Ok airlines, issued w (airlineCall (authorization_of w) <$> pre ++ code :: post))
    /\ Forall2 (fun c entry => exists name, entry = obj [("code", c); ("name", name)])
         (pre ++ post) airlines
    /\ Forall2 (fun reply entry => resolved reply = Some entry) (before ++ after) airlines
    /\ forall s w1,
         wf_segment s -> get_prop s "carrierCode" = Ok code ->
         exists s' w2,
           enrichSegment airlines s w1 = (Ok s', w2)
           /\ get_prop s' "airlineName" = Ok code.
Proof.
  intros Hcodes Hunique Hreplies Hpre Hpost.
  exists (omap resolved (before ++ after)).
  destruct (resolved_entries _ _ Hpre) as [Hpre1 Hpre2].
  destruct (resolved_entries _ _ Hpost) as [Hpost1 Hpost2].
  assert (Forall2 (fun c entry => exists name, entry = obj [("code", c); ("name", name)])
            (pre ++ post) (omap resolved (before ++ after))) as Hshape
    by (rewrite omap_app; now apply Forall2_app).
  split; [|split; [exact Hshape|split]].
  - rewrite (getAirlinesFromFlightOffers_unfold _ _ _ Hcodes), Hunique.
    rewrite resolveAirlines_replies, Hreplies.
    cbn [app]. now rewrite !omap_app.
  - rewrite omap_app. now apply Forall2_app.
  - intros s w1 Hs Hcarrier.
    destruct (enrichSegment_wf _ s w1 Hs (entries_of_answers _ _ Hshape))
      as (s' & w2 & Hrun & _ & _ & _ & Hname & _).
    exists s', w2. split; [exact Hrun|]. rewrite Hname.
    eapply airlineNameOf_unmatched; [exact Hshape | | exact Hcarrier].
    apply distinct_around. rewrite <- Hunique. apply unique_from_distinct.
Qed.

(** ** One resolution per batch *)

Lemma includes_strings (seen : list string) (x : string) :
  includes (VStr <$> seen) (VStr x) = bool_decide (x ∈ seen).
Proof.
  forget_server.
  induction seen as [|y seen IH]; [reflexivity|].
  unfold includes in *. cbn [fmap list_fmap existsb strict_eq]. rewrite IH.
  destruct (String.eqb_spec y x) as [->|Hne].
  - cbn. symmetry. apply bool_decide_eq_true. left.
  - cbn [orb]. apply bool_decide_ext. rewrite elem_of_cons.
    split; [tauto|]. intros [->|Hx]; [congruence | exact Hx].
Qed.

Lemma unique_from_strings (seen codes : list string) :
  unique_from (VStr <$> seen) (VStr <$> codes) =
    VStr <$> filter (fun y => y ∉ seen) (first_occurrences codes).
Proof.
  forget_server.
  revert seen. induction codes as [|x codes IH]; intros seen; [reflexivity|].
  cbn [fmap list_fmap unique_from first_occurrences]. rewrite includes_strings.
  rewrite filter_cons. rewrite list_filter_filter. case_bool_decide as Hx.
  - rewrite decide_False by tauto. change (list_fmap _ _ VStr ?l) with (VStr <$> l).
    rewrite IH. f_equal. apply list_filter_iff. intros y. split; [|tauto].
    intros Hy. split; [exact Hy | congruence].
  - rewrite decide_True by exact Hx. cbn [fmap list_fmap]. f_equal.
    change (list_fmap _ _ VStr ?l) with (VStr <$> l).
    replace ((VStr <$> seen) ++ [VStr x]) with (VStr <$> (seen ++ [x]))
      by now rewrite fmap_app.
    rewrite IH. f_equal. apply list_filter_iff. intros y.
    rewrite not_elem_of_app, list_elem_of_singleton. tauto.
Qed.

(** [new Set] keeps the carrier codes in order of first appearance. *)
Lemma unique_strings (codes : list string) :
  unique (VStr <$> codes) = VStr <$> first_occurrences codes.
Proof.
  unfold unique. change (@nil value) with (VStr <$> @nil string).
  rewrite unique_from_strings. f_equal.
  induction (first_occurrences codes) as [|y l IH]; [reflexivity|].
  rewrite filter_cons, decide_True by apply not_elem_of_nil. now rewrite IH.
Qed.

Lemma first_occurrences_NoDup (codes : list string) : NoDup (first_occurrences codes).
Proof.
  forget_server.
  induction codes as [|x codes IH]; cbn [first_occurrences]; constructor.
  - rewrite list_elem_of_filter. tauto.
  - now apply NoDup_filter.
Qed.

Lemma first_occurrences_elem (codes : list string) (x : string) :
  x ∈ first_occurrences codes <-> x ∈ codes.
Proof.
  forget_server.
  induction codes as [|y codes IH]; cbn [first_occurrences]; [reflexivity|].
  rewrite !elem_of_cons, list_elem_of_filter, IH.
  destruct (decide (x = y)); tauto.
Qed.

Lemma airlineEntry_object (data entry : value) :
  airlineEntry data = Ok entry -> exists m, entry = VObj m.
Proof.
  unfold airlineEntry.
  destruct (get_prop data "data") as [records|]; [|discriminate]. cbn [obind].
  destruct (get_index records 0) as [first|]; [|discriminate]. cbn [obind].
  destruct (get_prop first "iataCode"); [|discriminate]. cbn [obind].
  destruct (get_prop first "commonName") as [common|]; [|discriminate]. cbn [obind].
  destruct (if truthy common then Ok common else get_prop first "officialName");
    [|discriminate].
  cbn [obind]. intros [= <-]. eexists. reflexivity.
Qed.

Lemma resolveAirlines_entries (codes airlines result : list value) (w w' : world) :
  entries airlines ->
  resolveAirlines codes airlines w = (Ok result, w') -> entries result.
Proof.
  revert airlines w. induction codes as [|code rest IH]; intros airlines w Hentries.
  - cbn. now intros [= <- _].
  - rewrite resolveAirlines_cons. apply IH. apply Forall_app. split; [exact Hentries|].
    unfold resolved. destruct (upstream _ _) as [data|]; [|constructor].
    destruct (airlineEntry data) as [entry|] eqn:Hentry; [|constructor].
    repeat constructor. eapply airlineEntry_object, Hentry.
Qed.

Lemma find_by_first (p : value -> outcome bool) (arr : list value) (found : value) :
  find_by p arr = Ok found -> truthy found = true ->
  exists pre post,
    arr = pre ++ found :: post /\ p found = Ok true
    /\ Forall (fun x => p x = Ok false) pre.
Proof.
  forget_server. induction arr as [|x arr IH]; cbn.
  - intros [= <-]. discriminate.
  - destruct (p x) as [[|]|] eqn:Hx; cbn; try discriminate.
    + intros [= <-] _. exists [], arr. repeat split; [exact Hx | constructor].
    + intros Hfind Hfound. destruct (IH Hfind Hfound) as (pre & post & -> & Hp & Hpre).
      exists (x :: pre), post. repeat split; [exact Hp | now constructor].
Qed.

Lemma find_by_skip (p : value -> outcome bool) (pre rest : list value) :
  Forall (fun x => p x = Ok false) pre -> find_by p (pre ++ rest) = find_by p rest.
Proof.
  forget_server. induction 1 as [|x pre Hx _ IH]; cbn; [reflexivity|].
  now rewrite Hx.
Qed.

Lemma airlineNameOf_named (airlines : list value) (s : value) :
  entries airlines ->
  forall carrierCode,
    get_prop s "carrierCode" = Ok carrierCode ->
    (forall entry, first_entry_for airlines carrierCode entry ->
                   airlineNameOf airlines s = get_prop entry "name")
    /\ (Forall (other_code carrierCode) airlines ->
        airlineNameOf airlines s = Ok carrierCode).
Proof.
  forget_server. intros Hentries carrierCode Hcode.
  assert (forall l, Forall (other_code carrierCode) l ->
                    Forall (fun a => (let? code := get_prop a "code" in
                                      let? carrierCode := get_prop s "carrierCode" in
                                      Ok (strict_eq code carrierCode)) = Ok false) l)
    as Hskip.
  { intros l Hl. eapply Forall_impl; [exact Hl|]. intros a (code & -> & Hother).
    cbn [obind]. rewrite Hcode. cbn [obind]. now rewrite Hother. }
  unfold airlineNameOf. split.
  - intros entry (pre & post & code & -> & Hpre & Hentry & Hsame).
    rewrite (find_by_skip _ _ _ (Hskip _ Hpre)). cbn [find_by].
    rewrite Hentry. cbn [obind]. rewrite Hcode. cbn [obind]. rewrite Hsame.
    apply Forall_app in Hentries as [_ Hentries].
    apply Forall_cons in Hentries as [[m ->] _]. reflexivity.
  - intros Hnone. rewrite <- (app_nil_r airlines).
    rewrite (find_by_skip _ _ _ (Hskip _ Hnone)). cbn [find_by obind truthy].
    exact Hcode.
Qed.

Lemma flight_details_renders_resolved (query : gmap string value) (view : string)
    (locals : value) (w w' : world) :
  flight_details query w = (Ok (Render view locals), w') ->
  exists found flightOffer airlines priced w2 w3 flight,
    upstream (calls w)
      (searchCall w (query_param query "originCode") (query_param query "destinationCode")
         (query_param query "departureDate")) = Some found
    /\ findOffer (query_param query "offerId") found = Ok flightOffer
    /\ getAirlinesFromFlightOffers [flightOffer] w2 = (Ok airlines, w3)
    /\ enrichOffer airlines priced w3 = (Ok flight, w')
    /\ get_prop locals "flight" = Ok flight.
Proof.
  unfold flight_details, searchCall.
  destruct (negb (truthy (query_param query "offerId"))); [discriminate|].
  unfold try_catch, bind at 1. unfold bearer at 1.
  unfold bind at 1, axios at 1. cbn [calls accessToken]. fold (authorization_of w).
  destruct (upstream (calls w) _) as [found|]; [|discriminate].
  unfold bind at 1, lift at 1.
  destruct (findOffer _ found) as [flightOffer|] eqn:Hfind; [|discriminate].
  destruct (negb (truthy flightOffer)); [discriminate|].
  unfold bind at 1. unfold bearer at 1.
  unfold bind at 1. destruct (axios _ _) as [[flightDetails|] w2]; [|discriminate].
  unfold bind at 1.
  destruct (getAirlinesFromFlightOffers [flightOffer] w2) as [[airlines|] w3] eqn:Hset;
    [|discriminate].
  unfold bind at 1, lift at 1.
  destruct (let? data := get_prop flightDetails "data" in
            let? offers := get_prop data "flightOffers" in get_index offers 0)
    as [priced|]; [|discriminate].
  unfold bind.
  destruct (enrichOffer airlines priced w3) as [[flight|] w4] eqn:Hrun; [|discriminate].
  unfold lift.
  destruct (get_prop flight "price") as [price|]; [|discriminate]. cbn [obind].
  destruct (get_prop price "total") as [total|]; [|discriminate]. cbn [obind].
  destruct (get_prop price "totalTaxes") as [taxes|]; [|discriminate]. cbn [obind].
  intros [= <- <- <-]. exists found, flightOffer, airlines, priced, w2, w3, flight.
  repeat split; try reflexivity; assumption.
Qed.

Lemma getAirlinesFromFlightOffers_entries (flights airlines : list value) (w w' : world) :
  getAirlinesFromFlightOffers flights w = (Ok airlines, w') -> entries airlines.
Proof.
  unfold getAirlinesFromFlightOffers, bind, lift.
  destruct (map_by firstCarrierCode flights) as [carrierCodes|]; [|discriminate].
  apply resolveAirlines_entries, Forall_nil_2.
Qed.

Lemma enrichOffer_named (airlines : list value) (offer offer' : value) (w w' : world) :
  entries airlines -> enrichOffer airlines offer w = (Ok offer', w') ->
  Forall (named_from airlines) (segments_of offer').
Proof.
  intros Hentries Hrun. eapply Forall_impl; [exact (enrichOffer_names _ _ _ _ _ Hrun)|].
  intros s' Hname carrierCode Hcode. cbn beta in Hname. rewrite Hname.
  now apply airlineNameOf_named.
Qed.

(** C3.  [getAirlinesFromFlightOffers] resolves a batch with one lookup
    per distinct carrier code, in order of first appearance.  The
    enrichment loop that uses its result looks no airline up, and in the
    offer it returns two segments with the same [carrierCode] have the same
    [airlineName].  So [/flight-details] makes at most one airline lookup,
    and the offer it renders gives segments that share a carrier code the
    same airline name.  That name comes from the resolved set: it is the
    name of the first entry of the set for the carrier of the segment, and
    the carrier code when the set has no entry for it; on the page the set
    is the one resolved once for the offer found.  The set itself holds
    what the lookups answered, one entry for each lookup that succeeded,
    with the code and the common or else official name of its first
    record. *)
Theorem airline_names_resolved_once_per_batch
    (flights : list value) (codes : list string) (w : world) :
  map_by firstCarrierCode flights = Ok (VStr <$> codes) ->
  NoDup (first_occurrences codes)
  /\ (forall c, c ∈ first_occurrences codes <-> c ∈ codes)
  /\ (exists airlines,
       getAirlinesFromFlightOffers flights w =
         (Ok airlines,
          issued w ((fun c => airlineCall (authorization_of w) (VStr c))
                      <$> first_occurrences codes)))
  /\ (forall airlines offer w1, only_locations w1 (enrichOffer airlines offer w1).2)
  /\ (forall airlines offer w1 offer' w2 s1 s2,
       enrichOffer airlines offer w1 = (Ok offer', w2) ->
       s1 ∈ segments_of offer' -> s2 ∈ segments_of offer' ->
       get_prop s1 "carrierCode" = get_prop s2 "carrierCode" ->
       get_prop s1 "airlineName" = get_prop s2 "airlineName")
  /\ (forall query w0, at_most 1 w0 (flight_details query w0).2)
  /\ (forall query w0 view locals w' ,
       flight_details query w0 = (Ok (Render view locals), w') ->
       exists flight,
         get_prop locals "flight" = Ok flight
         /\ forall s1 s2,
              s1 ∈ segments_of flight -> s2 ∈ segments_of flight ->
              get_prop s1 "carrierCode" = get_prop s2 "carrierCode" ->
              get_prop s1 "airlineName" = get_prop s2 "airlineName")
  /\ (forall airlines w', getAirlinesFromFlightOffers flights w = (Ok airlines, w') ->
                          entries airlines)
  /\ (forall airlines offer w1 offer' w2,
       entries airlines -> enrichOffer airlines offer w1 = (Ok offer', w2) ->
       Forall (named_from airlines) (segments_of offer'))
  /\ (forall query w0 view locals w',
       flight_details query w0 = (Ok (Render view locals), w') ->
       exists found flightOffer airlines w2 w3 flight,
         upstream (calls w0)
           (searchCall w0 (query_param query "originCode")
              (query_param query "destinationCode")
              (query_param query "departureDate")) = Some found
         /\ findOffer (query_param query "offerId") found = Ok flightOffer
         /\ getAirlinesFromFlightOffers [flightOffer] w2 = (Ok airlines, w3)
         /\ get_prop locals "flight" = Ok flight
         /\ Forall (named_from airlines) (segments_of flight))
  /\ (getAirlinesFromFlightOffers flights w).1 =
       Ok (omap resolved
             (replies (calls w)
                ((fun c => airlineCall (authorization_of w) (VStr c))
                   <$> first_occurrences codes)))
  /\ (forall reply code name,
       answers_with reply code name ->
       resolved reply = Some (obj [("code", code); ("name", name)])).
Proof.
  intros Hcodes.
  split; [apply first_occurrences_NoDup|]. split; [apply first_occurrences_elem|].
  split; [|split; [|split; [|split; [|split; [|split; [|split; [|split; [|split]]]]]]]].
  - destruct (resolveAirlines_calls (unique (VStr <$> codes)) [] w) as [airlines Hrun].
    exists airlines.
    rewrite (getAirlinesFromFlightOffers_unfold _ _ _ Hcodes), Hrun.
    now rewrite unique_strings, <- list_fmap_compose.
  - intros airlines offer w1. apply budget_enrichOffer.
  - intros airlines offer w1 offer' w2 s1 s2 Hrun.
    eapply same_carrier_same_name, enrichOffer_names, Hrun.
  - intros query w0. apply budget_flight_details.
  - intros query w0 view locals w' Hrun.
    destruct (flight_details_renders_enriched _ _ _ _ _ Hrun)
      as (airlines & priced & w1 & flight & Hflight & Hlocals).
    exists flight. split; [exact Hlocals|]. intros s1 s2.
    eapply same_carrier_same_name, enrichOffer_names, Hflight.
  - intros airlines w'. apply getAirlinesFromFlightOffers_entries.
  - intros airlines offer w1 offer' w2. apply enrichOffer_named.
  - intros query w0 view locals w' Hrun.
    destruct (flight_details_renders_resolved _ _ _ _ _ Hrun)
      as (found & flightOffer & airlines & priced & w2 & w3 & flight
          & Hfound & Hfind & Hset & Hflight & Hlocals).
    exists found, flightOffer, airlines, w2, w3, flight.
    repeat split; try assumption.
    eapply enrichOffer_named; [|exact Hflight].
    eapply getAirlinesFromFlightOffers_entries, Hset.
  - rewrite (getAirlinesFromFlightOffers_unfold _ _ _ Hcodes), resolveAirlines_replies.
    now rewrite unique_strings, <- list_fmap_compose.
  - apply airlineEntry_answer.
Qed.

(** ** The search filter *)

Lemma departsAndArrives_first_leg (originCode : value) (destinationCodes : list value)
    (flight departureCode arrivalCode : value) :
  first_leg flight departureCode arrivalCode ->
  departsAndArrives originCode destinationCodes flight =
    Ok (strict_eq departureCode originCode && includes destinationCodes arrivalCode).
Proof.
  intros (itineraries & itinerary & segments & segment & departure & arrival
          & H1 & H2 & H3 & H4 & H5 & H6 & H7 & H8).
  unfold departsAndArrives, firstSegment.
  rewrite H1. cbn [obind]. rewrite H2. cbn [obind]. rewrite H3. cbn [obind].
  rewrite H4. cbn [obind]. rewrite H5. cbn [obind]. rewrite H6. cbn [obind].
  rewrite H7. cbn [obind]. rewrite H8. reflexivity.
Qed.

Lemma filter_by_total (p : value -> outcome bool) (keep : value -> bool)
    (arr : list value) :
  Forall (fun x => p x = Ok (keep x)) arr ->
  filter_by p arr = Ok (List.filter keep arr).
Proof.
  induction 1 as [|x arr Hx _ IH]; cbn [filter_by List.filter]; [reflexivity|].
  rewrite Hx. cbn [obind]. rewrite IH. cbn [obind]. now destruct (keep x).
Qed.

(** The offers that [/flight-offers] renders are those the filter kept,
    for the related codes of the requested destination. *)
Lemma flight_offers_renders_filtered (query : gmap string value) (view : string)
    (locals : value) (w w' : world) :
  flight_offers query w = (Ok (Render view locals), w') ->
  exists flightData destinationCodes flights w1,
    upstream (calls w)
      (GET flightOffersUrl (authorization_of w)
         (searchParams (query_param query "originCode")
            (query_param query "destinationCode")
            (query_param query "departureDate"))) = Some flightData
    /\ (getRelatedAirportCodes (query_param query "destinationCode") w1).1
       = Ok destinationCodes
    /\ filteredFlights (query_param query "originCode") destinationCodes flightData
       = Ok flights
    /\ get_prop locals "flights" = Ok (VArr flights).
Proof.
  unfold flight_offers, try_catch, bind at 1. unfold bearer at 1.
  unfold bind at 1, axios at 1. cbn [calls accessToken]. fold (authorization_of w).
  destruct (upstream (calls w) _) as [flightData|] eqn:Hsearch; [|discriminate].
  unfold bind at 1.
  destruct (getCityNameFromIATA _ _) as [[originCity|] w1]; [|discriminate].
  unfold bind at 1.
  destruct (getCityNameFromIATA _ _) as [[destinationCity|] w2]; [|discriminate].
  unfold bind at 1.
  destruct (getRelatedAirportCodes _ w2) as [[destinationCodes|] w3] eqn:Hcodes;
    [|discriminate].
  unfold bind at 1, lift at 1.
  destruct (filteredFlights _ destinationCodes flightData) as [flights|] eqn:Hfilter;
    [|discriminate].
  unfold bind, ret.
  destruct (getAirlinesFromFlightOffers flights w3) as [[airlines|] w4]; [|discriminate].
  intros [= <- <- <-]. exists flightData, destinationCodes, flights, w2.
  rewrite Hcodes. repeat split; try reflexivity; assumption.
Qed.

(** C5.  On a list of offers that each have a first segment with two
    endpoints, the filter of [/flight-offers] returns, in their order,
    exactly the offers whose first segment departs from a code strictly
    equal to [originCode] and arrives at one of [destinationCodes]; the
    offers that the route renders are the result of that filter on the
    search result, for the related codes of the destination.  Of four
    offers from JFK or LGA to LHR or CDG, with origin JFK and related
    codes [LHR], it keeps the one from JFK to LHR. *)
Theorem filteredFlights_retains_matching_first_leg
    (originCode : value) (destinationCodes offers : list value) (flightData : value) :
  get_prop flightData "data" = Ok (VArr offers) ->
  Forall (fun flight => exists departureCode arrivalCode,
            first_leg flight departureCode arrivalCode) offers ->
  (exists keep : value -> bool,
      (forall flight,
          flight ∈ offers ->
          keep flight = true <-> retained originCode destinationCodes flight)
      /\ filteredFlights originCode destinationCodes flightData
         = Ok (List.filter keep offers))
  /\ (forall query view locals w w',
      flight_offers query w = (Ok (Render view locals), w') ->
      exists found related flights w1,
        upstream (calls w)
          (GET flightOffersUrl (authorization_of w)
             (searchParams (query_param query "originCode")
                (query_param query "destinationCode")
                (query_param query "departureDate"))) = Some found
        /\ (getRelatedAirportCodes (query_param query "destinationCode") w1).1
           = Ok related
        /\ filteredFlights (query_param query "originCode") related found = Ok flights
        /\ get_prop locals "flights" = Ok (VArr flights))
  /\ filteredFlights (VStr "JFK") [VStr "LHR"] (obj [("data", VArr Samples.offers)])
     = Ok [Samples.jfk_lhr].
Proof.
  intros Hdata Hlegs. split; [|split; [|reflexivity]].
  - exists (fun flight =>
              match departsAndArrives originCode destinationCodes flight with
              | Ok b => b
              | Throw => false
              end).
    split.
    + intros flight Hin. rewrite Forall_forall in Hlegs.
      destruct (Hlegs flight Hin) as (departureCode & arrivalCode & Hleg).
      rewrite (departsAndArrives_first_leg _ _ _ _ _ Hleg). split.
      * intros [H1 H2]%andb_true_iff. exists departureCode, arrivalCode. auto.
      * intros (departureCode' & arrivalCode' & Hleg' & H1 & H2).
        pose proof (departsAndArrives_first_leg originCode destinationCodes _ _ _ Hleg)
          as E.
        rewrite (departsAndArrives_first_leg originCode destinationCodes _ _ _ Hleg')
          in E.
        injection E as <-. now rewrite H1, H2.
    + unfold filteredFlights. rewrite Hdata. cbn [obind as_array].
      apply filter_by_total. eapply Forall_impl; [exact Hlegs|].
      intros flight (departureCode & arrivalCode & Hleg). cbn beta.
      now rewrite (departsAndArrives_first_leg _ _ _ _ _ Hleg).
  - intros query view locals w w' Hrun.
    destruct (flight_offers_renders_filtered _ _ _ _ _ Hrun)
      as (found & related & flights & w1 & Hfound & Hrelated & Hfilter & Hlocals).
    exists found, related, flights, w1. auto.
Qed.

(** ** Validation of a booking request *)

Lemma confirm_booking_falsy (body : gmap string value) (k : string) (w : world) :
  k ∈ requiredFields -> truthy (query_param body k) = false ->
  confirm_booking body w = (Ok missingFields, w).
Proof.
  unfold requiredFields. rewrite !elem_of_cons. intros Hk Hfalsy.
  unfold confirm_booking.
  destruct Hk as [->|[->|[->|[->|[->|[->|[->|[->|[->|Hk]]]]]]]]];
    [| | | | | | | | |now apply not_elem_of_nil in Hk];
    rewrite Hfalsy; cbn [negb orb]; rewrite ?orb_true_r; reflexivity.
Qed.

(** Without a token the middleware first tries the credential exchange,
    whatever the route. *)
Lemma ensureAuthenticated_exchange {A} (next : M A) (w : world) :
  truthy (accessToken w) = false ->
  exists w1,
    ensureAuthenticated next w = next w1
    /\ calls w1 =
         calls w ++ [POST_form authUrl
                       (obj [("grant_type", VStr "client_credentials");
                             ("client_id", AMADEUS_CLIENT_ID);
                             ("client_secret", AMADEUS_CLIENT_SECRET)])].
Proof.
  intros Htoken.
  unfold ensureAuthenticated, bind, getToken, ret. rewrite Htoken.
  unfold authenticateAmadeus, try_catch, bind, axios, lift, setToken, ret.
  destruct (upstream _ _) as [data|]; [|eexists; split; reflexivity].
  destruct (get_prop data "access_token"); eexists; split; reflexivity.
Qed.

(** C8.  A request to [/confirm-booking] that lacks one of the nine
    required fields is answered with status 400, and the handler issues no
    upstream call; with a token in place, neither does the middleware in
    front of it. *)
Theorem confirm_booking_missing_field (body : gmap string value) (k : string) (w : world) :
  k ∈ requiredFields -> body !! k = None ->
  confirm_booking body w = (Ok missingFields, w)
  /\ (truthy (accessToken w) = true ->
      ensureAuthenticated (confirm_booking body) w = (Ok missingFields, w)).
Proof.
  intros Hk Hmissing.
  assert (confirm_booking body w = (Ok missingFields, w)) as Hrun.
  { apply (confirm_booking_falsy body k w Hk). unfold query_param. now rewrite Hmissing. }
  split; [exact Hrun|].
  intros Htoken. unfold ensureAuthenticated, bind, getToken, ret. now rewrite Htoken.
Qed.

(** ** The traveler of a booking *)

Lemma split_cut (sep : ascii) (s : string) :
  split sep s =
    (cut sep s).1 :: match (cut sep s).2 with
                     | Some rest => split sep rest
                     | None => []
                     end.
Proof.
  induction s as [|c s IH]; cbn [split cut]; [reflexivity|].
  destruct (Ascii.eqb c sep); [reflexivity|].
  rewrite IH. now destruct (cut sep s).
Qed.


Lemma or_else_empty (s : string) : or_else (VStr s) (VStr "") = VStr s.
Proof.
  unfold or_else. cbn [truthy]. destruct (String.eqb_spec s ""); cbn; congruence.
Qed.

(** The names sent for a traveler called [name]. *)
Lemma traveler_names (name gender : string) (email phone dob : value) :
  traveler (VStr name) email phone dob (VStr gender) =
    Ok (obj [("id", VStr "1");
             ("dateOfBirth", dob);
             ("name",
              obj [("firstName", VStr (cut " " name).1);
                   ("lastName",
                    VStr match (cut " " name).2 with
                         | Some rest => (cut " " rest).1
                         | None => ""
                         end)]);
             ("gender", VStr (toUpperCase gender));
             ("contact",
              obj [("emailAddress", email);
                   ("phones",
                    VArr [obj [("deviceType", VStr "MOBILE");
                               ("countryCallingCode", VStr "91");
                               ("number", phone)]])])]).
Proof.
  unfold traveler. cbn [split_on_space upper obind]. rewrite split_cut.
  cbn [piece lookup list_lookup].
  destruct (cut " " name).2 as [rest|].
  - rewrite split_cut. cbn [piece lookup list_lookup]. now rewrite or_else_empty.
  - reflexivity.
Qed.




(** * Further properties of [index.js] *)

(** ** The credential exchange *)

(** X1.  The middleware never blocks a route.  With a token in place it
    runs the route as it is.  Without one it makes exactly the credential
    exchange first: when that resolves, the route runs with whatever the
    reply has under [access_token] as the token, and its calls carry it;
    when it is rejected, or the reply cannot be read, the route runs
    with the token unchanged. *)
Theorem middleware_token_lifecycle {A} (next : M A) (iataCode : value) (w : world) :
  (truthy (accessToken w) = true -> ensureAuthenticated next w = next w)
  /\ (forall data token,
        truthy (accessToken w) = false ->
        upstream (calls w) credentialExchange = Some data ->
        get_prop data "access_token" = Ok token ->
        ensureAuthenticated next w = next (World token (calls w ++ [credentialExchange]))
        /\ calls (ensureAuthenticated (getCityAndAirportName iataCode) w).2 =
             calls w ++ [credentialExchange;
                         locationCall ("Bearer " +:+ to_String token) iataCode
                           "AIRPORT,CITY"])
  /\ (truthy (accessToken w) = false ->
      upstream (calls w) credentialExchange = None
      \/ (exists data, upstream (calls w) credentialExchange = Some data
                       /\ get_prop data "access_token" = Throw) ->
      ensureAuthenticated next w = next (issued w [credentialExchange])).
Proof.
  split; [|split].
  - intros Htoken. unfold ensureAuthenticated, bind, getToken, ret. now rewrite Htoken.
  - intros data token Htoken Hreply Hfield.
    assert (forall B (route : M B),
               ensureAuthenticated route w
               = route (World token (calls w ++ [credentialExchange]))) as Hrun.
    { intros B route. unfold ensureAuthenticated, bind, getToken, ret. rewrite Htoken.
      unfold authenticateAmadeus, try_catch, bind, axios, lift, setToken, ret.
      fold credentialExchange. now rewrite Hreply, Hfield. }
    split; [apply Hrun|].
    rewrite Hrun, getCityAndAirportName_run. cbn [snd calls issued accessToken].
    now rewrite <- app_assoc.
  - intros Htoken Hfail.
    unfold ensureAuthenticated, bind, getToken, ret. rewrite Htoken.
    unfold authenticateAmadeus, try_catch, bind, axios, lift, setToken, ret.
    fold credentialExchange.
    destruct Hfail as [-> | (data & -> & ->)]; reflexivity.
Qed.

(** ** The city name of a code *)

Lemma data_is_object (data records : value) :
  get_prop data "data" = Ok records -> records <> VUndef -> truthy data = true.
Proof.
  destruct data as [| | | | s |l|m]; cbn; try discriminate; intros [= <-]; congruence.
Qed.

(** X2.  [getCityNameFromIATA] never throws and makes exactly one lookup.
    It returns the city name of the first match when that is not empty,
    and the code it was given in every other case: an empty city name, no
    match, or a rejected lookup. *)
Theorem getCityNameFromIATA_name_or_code (iataCode : value) (w : world) :
  (forall n, greater_than_zero (VNum n) = (0 <? n)%Z) ->
  let lookup := locationCall (authorization_of w) iataCode "AIRPORT,CITY" in
  (exists name, getCityNameFromIATA iataCode w = (Ok name, issued w [lookup]))
  /\ (forall data first rest address cityName,
        upstream (calls w) lookup = Some data ->
        get_prop data "data" = Ok (VArr (first :: rest)) ->
        get_prop first "address" = Ok address ->
        get_prop address "cityName" = Ok cityName ->
        (getCityNameFromIATA iataCode w).1
        = Ok (if truthy cityName then cityName else iataCode))
  /\ (forall data,
        upstream (calls w) lookup = Some data ->
        get_prop data "data" = Ok (VArr []) ->
        (getCityNameFromIATA iataCode w).1 = Ok iataCode)
  /\ (upstream (calls w) lookup = None ->
      (getCityNameFromIATA iataCode w).1 = Ok iataCode).
Proof.
  intros Hgt lookup.
  assert (forall data,
            upstream (calls w) lookup = Some data ->
            getCityNameFromIATA iataCode w =
              (Ok match (if truthy data
                         then let? records := get_prop data "data" in
                              let? len := get_prop records "length" in
                              Ok (greater_than_zero len)
                         else Ok false) with
                  | Ok true =>
                      match (let? records := get_prop data "data" in
                             let? first := get_index records 0 in
                             let? address := get_prop first "address" in
                             let? cityName := get_prop address "cityName" in
                             Ok (or_else cityName iataCode)) with
                      | Ok name => name
                      | Throw => iataCode
                      end
                  | _ => iataCode
                  end, issued w [lookup])) as Hrun.
  { intros data Hreply.
    unfold getCityNameFromIATA, try_catch, bind, bearer, axios, lift, ret.
    cbn [calls accessToken]. fold (authorization_of w). fold lookup. rewrite Hreply.
    destruct (if truthy data then _ else _) as [[|]|]; try reflexivity.
    destruct (let? records := get_prop data "data" in _); reflexivity. }
  split; [|split; [|split]].
  - destruct (upstream (calls w) lookup) as [data|] eqn:Hreply.
    + rewrite (Hrun data eq_refl). eexists. reflexivity.
    + unfold getCityNameFromIATA, try_catch, bind, bearer, axios, lift, ret.
      cbn [calls accessToken]. fold (authorization_of w). fold lookup. rewrite Hreply.
      eexists. reflexivity.
  - intros data first rest address cityName Hreply Hdata Haddress Hcity.
    rewrite (Hrun data Hreply). cbn [fst].
    rewrite (data_is_object _ _ Hdata) by discriminate. rewrite Hdata.
    cbn [obind get_prop String.eqb Ascii.eqb Bool.eqb]. rewrite Hgt. cbn [length].
    replace (0 <? Z.of_nat (S (length rest)))%Z with true
      by (symmetry; apply Z.ltb_lt; lia).
    cbn [get_index]. cbn. rewrite Haddress. cbn [obind]. rewrite Hcity. reflexivity.
  - intros data Hreply Hdata. rewrite (Hrun data Hreply). cbn [fst].
    rewrite (data_is_object _ _ Hdata) by discriminate. rewrite Hdata.
    cbn [obind get_prop String.eqb Ascii.eqb Bool.eqb]. rewrite Hgt. reflexivity.
  - intros Hreply.
    unfold getCityNameFromIATA, try_catch, bind, bearer, axios, lift, ret.
    cbn [calls accessToken]. fold (authorization_of w). fold lookup. now rewrite Hreply.
Qed.

(** ** Field by field *)

(** X3.  In [getCityAndAirportName] each field falls back on its own: a
    first match with an empty city name still gives its name, and one
    with an empty name still gives its city.  A first match that has no
    [address] at all loses both: the result is the code and
    "Unknown Airport" even when the match has a name. *)
Theorem getCityAndAirportName_field_fallbacks (iataCode : value) (w : world) :
  let lookup := locationCall (authorization_of w) iataCode "AIRPORT,CITY" in
  (forall data first rest address cityName name,
      upstream (calls w) lookup = Some data ->
      get_prop data "data" = Ok (VArr (first :: rest)) ->
      get_prop first "address" = Ok address ->
      get_prop address "cityName" = Ok cityName ->
      get_prop first "name" = Ok name ->
      (getCityAndAirportName iataCode w).1
      = Ok (Location (if truthy cityName then cityName else iataCode)
                     (if truthy name then name else VStr "Unknown Airport")))
  /\ (forall data first rest,
      upstream (calls w) lookup = Some data ->
      get_prop data "data" = Ok (VArr (first :: rest)) ->
      get_prop first "address" = Ok VUndef ->
      (getCityAndAirportName iataCode w).1 = Ok (unknownAt iataCode)).
Proof.
  intros lookup. rewrite getCityAndAirportName_run. unfold lookup_location.
  fold lookup. cbn [fst]. split.
  - intros data first rest address cityName name -> Hdata Haddress Hcity Hname.
    unfold firstLocation. rewrite Hdata. cbn. rewrite Haddress. cbn [obind].
    rewrite Hcity. cbn [obind]. now rewrite Hname.
  - intros data first rest -> Hdata Haddress.
    unfold firstLocation. rewrite Hdata. cbn. now rewrite Haddress.
Qed.

(** ** The name of one airline *)

(** X4.  [getAirlineName] never throws and makes exactly one lookup.  It
    returns the common name of the first record, or else its business
    name; when the lookup matches nothing or is rejected it returns the
    carrier code. *)
Theorem getAirlineName_name_or_code (carrierCode : value) (w : world) :
  (forall n, greater_than_zero (VNum n) = (0 <? n)%Z) ->
  let lookup := airlineCall (authorization_of w) carrierCode in
  (exists name, getAirlineName carrierCode w = (Ok name, issued w [lookup]))
  /\ (forall data first rest commonName businessName,
        upstream (calls w) lookup = Some data ->
        get_prop data "data" = Ok (VArr (first :: rest)) ->
        get_prop first "commonName" = Ok commonName ->
        get_prop first "businessName" = Ok businessName ->
        (getAirlineName carrierCode w).1
        = Ok (if truthy commonName then commonName else businessName))
  /\ (forall data,
        upstream (calls w) lookup = Some data ->
        get_prop data "data" = Ok (VArr []) ->
        (getAirlineName carrierCode w).1 = Ok carrierCode)
  /\ (upstream (calls w) lookup = None ->
      (getAirlineName carrierCode w).1 = Ok carrierCode).
Proof.
  intros Hgt lookup.
  assert (forall reply,
            upstream (calls w) lookup = reply ->
            exists name,
              getAirlineName carrierCode w = (Ok name, issued w [lookup])
              /\ name =
                 match reply with
                 | Some data =>
                     match (let? records := get_prop data "data" in
                            let? len := get_prop records "length" in
                            Ok (greater_than_zero len)) with
                     | Ok true =>
                         match (let? records := get_prop data "data" in
                                let? first := get_index records 0 in
                                let? commonName := get_prop first "commonName" in
                                if truthy commonName then Ok commonName
                                else (let? records := get_prop data "data" in
                                      let? first := get_index records 0 in
                                      get_prop first "businessName")) with
                         | Ok name => name
                         | Throw => carrierCode
                         end
                     | _ => carrierCode
                     end
                 | None => carrierCode
                 end) as Hrun.
  { intros reply Hreply.
    unfold getAirlineName, try_catch, bind, bearer, axios, lift, ret.
    cbn [calls accessToken]. fold (authorization_of w). fold lookup. rewrite Hreply.
    destruct reply as [data|]; [|eexists; split; reflexivity].
    destruct (let? records := get_prop data "data" in
              let? len := get_prop records "length" in Ok (greater_than_zero len))
      as [[|]|]; try (eexists; split; reflexivity).
    destruct (let? records := get_prop data "data" in
              let? first := get_index records 0 in _);
      eexists; split; reflexivity. }
  split; [|split; [|split]].
  - destruct (Hrun _ eq_refl) as (name & Hname & _). eauto.
  - intros data first rest commonName businessName Hreply Hdata Hcommon Hbusiness.
    destruct (Hrun _ Hreply) as (name & -> & ->). cbn [fst]. rewrite Hdata.
    cbn [obind get_prop String.eqb Ascii.eqb Bool.eqb]. rewrite Hgt. cbn [length].
    replace (0 <? Z.of_nat (S (length rest)))%Z with true
      by (symmetry; apply Z.ltb_lt; lia).
    cbn. rewrite Hcommon. cbn [obind].
    destruct (truthy commonName); [reflexivity|]. now rewrite Hbusiness.
  - intros data Hreply Hdata. destruct (Hrun _ Hreply) as (name & -> & ->).
    cbn [fst]. rewrite Hdata.
    cbn [obind get_prop String.eqb Ascii.eqb Bool.eqb]. now rewrite Hgt.
  - intros Hreply. destruct (Hrun _ Hreply) as (name & -> & ->). reflexivity.
Qed.

(** ** An airline without a name *)

Lemma get_code_of_entry (code name : value) :
  get_prop (obj [("code", code); ("name", name)]) "code" = Ok code
  /\ get_prop (obj [("code", code); ("name", name)]) "name" = Ok name.
Proof. split; reflexivity. Qed.

(** X5.  A record that has neither a common name nor an official name
    still yields an entry for its code, with the official name, whatever
    it is, as the name.  A segment of that carrier then gets that value
    as its [airlineName], [undefined] when the field is absent, and not
    the carrier code. *)
Theorem unnamed_airline_is_not_the_code
    (flight data record s : value) (more : list value) (code : string)
    (commonName officialName : value) (w w1 : world) :
  firstCarrierCode flight = Ok (VStr code) ->
  upstream (calls w) (airlineCall (authorization_of w) (VStr code)) = Some data ->
  get_prop data "data" = Ok (VArr (record :: more)) ->
  get_prop record "iataCode" = Ok (VStr code) ->
  get_prop record "commonName" = Ok commonName -> truthy commonName = false ->
  get_prop record "officialName" = Ok officialName ->
  wf_segment s -> get_prop s "carrierCode" = Ok (VStr code) ->
  getAirlinesFromFlightOffers [flight] w =
    (Ok [obj [("code", VStr code); ("name", officialName)]],
     issued w [airlineCall (authorization_of w) (VStr code)])
  /\ exists s' w2,
       enrichSegment [obj [("code", VStr code); ("name", officialName)]] s w1 = (Ok s', w2)
       /\ get_prop s' "airlineName" = Ok officialName.
Proof.
  intros Hflight Hreply Hdata Hcode Hcommon Hfalsy Hofficial Hs Hcarrier. split.
  - unfold getAirlinesFromFlightOffers, bind, lift. cbn [map_by]. rewrite Hflight.
    cbn [obind]. change (unique [VStr code]) with [VStr code].
    rewrite resolveAirlines_cons, Hreply. cbn [resolveAirlines ret].
    unfold resolved, airlineEntry. rewrite Hdata. cbn. rewrite Hcode. cbn [obind].
    rewrite Hcommon. cbn [obind]. rewrite Hfalsy, Hofficial. reflexivity.
  - destruct (enrichSegment_wf [obj [("code", VStr code); ("name", officialName)]] s w1 Hs)
      as (s' & w2 & Hrun & _ & _ & _ & Hname & _).
    { repeat constructor. eexists. reflexivity. }
    exists s', w2. split; [exact Hrun|]. rewrite Hname.
    unfold airlineNameOf. rewrite Hcarrier. cbn [find_by].
    rewrite (proj1 (get_code_of_entry _ _)). cbn [obind strict_eq].
    rewrite String.eqb_refl. cbn [truthy]. apply get_code_of_entry.
Qed.

(** ** The shape of the airline list *)

Lemma map_by_Throw {A} (f : value -> outcome A) (xs : list value) :
  map_by f xs = Throw <-> Exists (fun x => f x = Throw) xs.
Proof.
  forget_server. induction xs as [|x xs IH]; cbn.
  - split; [discriminate | intros H; inversion H].
  - destruct (f x) eqn:Hx; cbn.
    + destruct (map_by f xs); cbn.
      * split; [discriminate|]. intros H. inversion H; subst; [congruence|].
        match goal with H1 : Exists _ xs |- _ => apply IH in H1; discriminate end.
      * split; [|reflexivity]. intros _. right. now apply IH.
    + split; [|reflexivity]. intros _. now left.
Qed.

Lemma map_by_length {A} (f : value -> outcome A) (xs : list value) (ys : list A) :
  map_by f xs = Ok ys -> length ys = length xs.
Proof. intros H. apply map_by_Forall2 in H. symmetry. eapply Forall2_length, H. Qed.

Lemma unique_from_length (seen arr : list value) :
  (length (unique_from seen arr) <= length arr)%nat.
Proof.
  forget_server. revert seen. induction arr as [|x arr IH]; intros seen; cbn; [lia|].
  destruct (includes seen x); cbn; [specialize (IH seen) | specialize (IH (seen ++ [x]))];
    lia.
Qed.

Lemma replies_length (history cs : list call) :
  length (replies history cs) = length cs.
Proof. revert history. induction cs; intros history; cbn; [|rewrite IHcs]; reflexivity. Qed.

Lemma omap_length_le {A B} (f : A -> option B) (l : list A) :
  (length (omap f l) <= length l)%nat.
Proof.
  forget_server. induction l as [|x l IH]; cbn; [lia|]. destruct (f x); cbn; lia.
Qed.

(** X6.  [getAirlinesFromFlightOffers] throws, before any lookup, when
    some flight has no first segment to read a carrier code from.
    Otherwise it never throws: it makes one lookup per distinct code and
    returns objects, at most one per distinct code, so never more than
    there are flights. *)
Theorem getAirlinesFromFlightOffers_shape (flights : list value) (w : world) :
  (Exists (fun flight => firstCarrierCode flight = Throw) flights ->
   getAirlinesFromFlightOffers flights w = (Throw, w))
  /\ (forall carrierCodes,
        Forall2 (fun flight code => firstCarrierCode flight = Ok code) flights carrierCodes ->
        exists airlines,
          getAirlinesFromFlightOffers flights w =
            (Ok airlines,
             issued w (airlineCall (authorization_of w) <$> unique carrierCodes))
          /\ (length airlines <= length (unique carrierCodes) <= length flights)%nat
          /\ entries airlines).
Proof.
  split.
  - intros H. apply map_by_Throw in H.
    unfold getAirlinesFromFlightOffers, bind, lift. now rewrite H.
  - intros carrierCodes H. apply map_by_Forall2 in H.
    rewrite (getAirlinesFromFlightOffers_unfold _ _ _ H).
    pose proof (resolveAirlines_replies (unique carrierCodes) [] w) as Hrun.
    eexists. split; [exact Hrun|]. split; [split|].
    + cbn [app]. etransitivity; [apply omap_length_le|].
      now rewrite replies_length, length_fmap.
    + rewrite <- (map_by_length _ _ _ H). apply unique_from_length.
    + eapply resolveAirlines_entries; [|exact Hrun]. apply Forall_nil_2.
Qed.

(** ** Finding the offer *)

Lemma no_offer_with_spec (offerId : value) (offers : list value) :
  no_offer_with offerId offers <->
  Forall (fun offer => (let? id := get_prop offer "id" in Ok (strict_eq id offerId))
                       = Ok false) offers.
Proof.
  forget_server. unfold no_offer_with. apply Forall_iff. intros offer. split.
  - intros (id & -> & Hid). cbn. now rewrite Hid.
  - destruct (get_prop offer "id") as [id|]; cbn; [|discriminate].
    intros [= Hid]. now exists id.
Qed.

(** X7.  The offer that [/flight-details] and [/confirm-booking] act on
    is the first one of the search result whose [id] is strictly equal to
    the requested id, and only that one: every offer before it has
    another id.  When no offer has the id, the result is [undefined]. *)
Theorem findOffer_first_match (offerId data : value) (offers : list value) :
  get_prop data "data" = Ok (VArr offers) ->
  (forall found,
      findOffer offerId data = Ok found /\ truthy found = true <->
      truthy found = true
      /\ exists pre post id,
           offers = pre ++ found :: post
           /\ get_prop found "id" = Ok id /\ strict_eq id offerId = true
           /\ no_offer_with offerId pre)
  /\ (no_offer_with offerId offers -> findOffer offerId data = Ok VUndef).
Proof.
  intros Hdata. unfold findOffer. rewrite Hdata. cbn [obind as_array]. split.
  - intros found. split.
    + intros [Hfind Hfound]. split; [exact Hfound|].
      destruct (find_by_first _ _ _ Hfind Hfound) as (pre & post & -> & Hp & Hpre).
      destruct (get_prop found "id") as [id|] eqn:Hid; cbn in Hp; [|discriminate].
      exists pre, post, id. repeat split; [congruence|].
      now apply no_offer_with_spec.
    + intros (Hfound & pre & post & id & -> & Hid & Heq & Hpre). split; [|exact Hfound].
      rewrite find_by_skip by now apply no_offer_with_spec.
      cbn. rewrite Hid. cbn. now rewrite Heq.
  - intros Hnone. apply no_offer_with_spec in Hnone.
    rewrite <- (app_nil_r offers). now rewrite find_by_skip.
Qed.

(** ** What the search route answers *)

Lemma getCityNameFromIATA_calls (iataCode : value) (w : world) :
  exists name,
    getCityNameFromIATA iataCode w =
      (Ok name, issued w [locationCall (authorization_of w) iataCode "AIRPORT,CITY"]).
Proof.
  unfold getCityNameFromIATA, try_catch, bind, bearer, axios, lift, ret.
  cbn [calls accessToken]. fold (authorization_of w).
  destruct (upstream (calls w) _) as [data|]; [|eexists; reflexivity].
  destruct (if truthy data then _ else _) as [[|]|]; try (eexists; reflexivity).
  destruct (let? records := get_prop data "data" in _); eexists; reflexivity.
Qed.

Lemma filter_by_Throw (p : value -> outcome bool) (arr : list value) :
  Exists (fun x => p x = Throw) arr -> filter_by p arr = Throw.
Proof.
  forget_server. induction 1 as [x arr Hx|x arr _ IH]; cbn.
  - now rewrite Hx.
  - rewrite IH. now destruct (p x).
Qed.

Lemma filter_by_sound (p : value -> outcome bool) (arr kept : list value) :
  filter_by p arr = Ok kept ->
  sublist kept arr /\ Forall (fun x => p x = Ok true) kept.
Proof.
  forget_server. revert kept. induction arr as [|x arr IH]; cbn; intros kept.
  - intros [= <-]. split; [constructor | apply Forall_nil_2].
  - destruct (p x) as [keep|] eqn:Hx; cbn; [|discriminate].
    destruct (filter_by p arr) as [kept'|]; cbn; [|discriminate].
    destruct (IH kept' eq_refl) as (Hsub & Hall).
    destruct keep; intros [= <-].
    + split; [now apply sublist_skip | now constructor].
    + split; [now apply sublist_cons | assumption].
Qed.

Lemma departsAndArrives_retained (originCode : value) (destinationCodes : list value)
    (flight : value) :
  departsAndArrives originCode destinationCodes flight = Ok true ->
  retained originCode destinationCodes flight.
Proof.
  forget_server. unfold departsAndArrives, firstSegment, retained, first_leg.
  destruct (get_prop flight "itineraries") as [itineraries|] eqn:H1; cbn; [|discriminate].
  destruct (get_index itineraries 0) as [itinerary|] eqn:H2; cbn; [|discriminate].
  destruct (get_prop itinerary "segments") as [segments|] eqn:H3; cbn; [|discriminate].
  destruct (get_index segments 0) as [segment|] eqn:H4; cbn; [|discriminate].
  destruct (get_prop segment "departure") as [departure|] eqn:H5; cbn; [|discriminate].
  destruct (get_prop departure "iataCode") as [departureCode|] eqn:H6; cbn;
    [|discriminate].
  destruct (get_prop segment "arrival") as [arrival|] eqn:H7; cbn; [|discriminate].
  destruct (get_prop arrival "iataCode") as [arrivalCode|] eqn:H8; cbn; [|discriminate].
  intros [= H]. apply andb_prop in H as [Hfrom Hto].
  exists departureCode, arrivalCode. split; [|now split].
  exists itineraries, itinerary, segments, segment, departure, arrival.
  repeat split; assumption.
Qed.

Lemma departsAndArrives_Throw (originCode : value) (destinationCodes : list value)
    (flight : value) :
  firstSegment flight = Throw ->
  departsAndArrives originCode destinationCodes flight = Throw.
Proof. intros H. unfold departsAndArrives. now rewrite H. Qed.

(** Running one step of an [async] function. *)
Lemma bind_bearer {A} (f : string -> M A) (w : world) :
  bind bearer f w = f (authorization_of w) w.
Proof. reflexivity. Qed.

Lemma bind_axios {A} (c : call) (f : value -> M A) (w : world) :
  bind (axios c) f w =
    match upstream (calls w) c with
    | Some d => f d (issued w [c])
    | None => (Throw, issued w [c])
    end.
Proof. unfold bind, axios. now destruct (upstream (calls w) c). Qed.

Lemma bind_lift {A B} (o : outcome A) (f : A -> M B) (w : world) :
  bind (lift o) f w =
    match o with
    | Ok a => f a w
    | Throw => (Throw, w)
    end.
Proof. forget_server. unfold bind, lift. now destruct o. Qed.

Lemma bind_ok {A B} (m : M A) (f : A -> M B) (w w' : world) (a : A) :
  m w = (Ok a, w') -> bind m f w = f a w'.
Proof. forget_server. intros H. unfold bind. now rewrite H. Qed.

Lemma getCityNameFromIATA_after (iataCode : value) (w : world) (cs : list call) :
  exists name,
    getCityNameFromIATA iataCode (issued w cs) =
      (Ok name,
       issued w (cs ++ [locationCall (authorization_of w) iataCode "AIRPORT,CITY"])).
Proof.
  destruct (getCityNameFromIATA_calls iataCode (issued w cs)) as (name & H).
  exists name. rewrite H. now rewrite issued_issued.
Qed.

Lemma getRelatedAirportCodes_after (cityCode : value) (w : world) (cs : list call) :
  getRelatedAirportCodes cityCode (issued w cs) =
    (Ok (related_codes cityCode (issued w cs)),
     issued w (cs ++ [locationCall (authorization_of w) cityCode "AIRPORT"])).
Proof. rewrite getRelatedAirportCodes_run. now rewrite issued_issued. Qed.

(** The route up to the filter: four calls, whatever they answer. *)
Lemma flight_offers_run (query : gmap string value) (flightData : value) (w : world) :
  let originCode := query_param query "originCode" in
  let destinationCode := query_param query "destinationCode" in
  let departureDate := query_param query "departureDate" in
  let w2 := issued w (take 3 (searchAndLookups w originCode destinationCode departureDate)) in
  let w3 := issued w (searchAndLookups w originCode destinationCode departureDate) in
  upstream (calls w) (searchCall w originCode destinationCode departureDate)
    = Some flightData ->
  exists originCity destinationCity,
    flight_offers query w =
      match filteredFlights originCode (related_codes destinationCode w2) flightData with
      | Ok flights =>
          match getAirlinesFromFlightOffers flights w3 with
          | (Ok airlines, w4) =>
              (Ok (Render "flight-offers"
                     (obj [("title", VStr "Flight Offers");
                           ("flights", VArr flights);
                           ("originCode", originCode);
                           ("destinationCode", destinationCode);
                           ("originCity", originCity);
                           ("destinationCity", destinationCity);
                           ("airlines", VArr airlines);
                           ("query", VObj query)])), w4)
          | (Throw, w4) => (Ok (Send 500 "Error fetching flight offers"), w4)
          end
      | Throw => (Ok (Send 500 "Error fetching flight offers"), w3)
      end.
Proof.
  intros originCode destinationCode departureDate w2 w3 Hsearch.
  unfold searchCall in Hsearch.
  destruct (getCityNameFromIATA_after originCode w
              [searchCall w originCode destinationCode departureDate])
    as (originCity & Horigin).
  destruct (getCityNameFromIATA_after destinationCode w
              (take 2 (searchAndLookups w originCode destinationCode departureDate)))
    as (destinationCity & Hdestination).
  exists originCity, destinationCity.
  unfold flight_offers, try_catch. rewrite bind_bearer, bind_axios.
  fold originCode destinationCode departureDate. rewrite Hsearch.
  unfold searchCall in Horigin. rewrite (bind_ok _ _ _ _ _ Horigin).
  unfold searchAndLookups, searchCall in Hdestination. cbn [take app] in Hdestination |- *.
  rewrite (bind_ok _ _ _ _ _ Hdestination).
  rewrite (bind_ok _ _ _ _ _ (getRelatedAirportCodes_after _ _ _)).
  rewrite bind_lift. unfold w2, w3, searchAndLookups, searchCall. cbn [take app].
  destruct (filteredFlights _ _ flightData) as [flights|]; [|reflexivity].
  unfold bind, ret.
  destruct (getAirlinesFromFlightOffers flights _) as [[airlines|] w4]; reflexivity.
Qed.

Lemma flight_offers_rejected (query : gmap string value) (w : world) :
  let search :=
    searchCall w (query_param query "originCode") (query_param query "destinationCode")
      (query_param query "departureDate") in
  upstream (calls w) search = None ->
  flight_offers query w = (Ok (Send 500 "Error fetching flight offers"), issued w [search]).
Proof.
  intros search Hsearch. subst search. unfold searchCall in Hsearch |- *.
  unfold flight_offers, try_catch. rewrite bind_bearer, bind_axios. now rewrite Hsearch.
Qed.

(** X8.  [/flight-offers] answers 500 after the search alone when the
    search is rejected.  When the search succeeds but one of its offers
    has no first segment, or its reply holds no array of offers, the route
    still looks up both cities and the related codes, and then answers
    500: one malformed offer fails the whole search. *)
Theorem flight_offers_failures (query : gmap string value) (w : world) :
  let originCode := query_param query "originCode" in
  let destinationCode := query_param query "destinationCode" in
  let departureDate := query_param query "departureDate" in
  let search := searchCall w originCode destinationCode departureDate in
  let failure : outcome response := Ok (Send 500 "Error fetching flight offers") in
  (upstream (calls w) search = None ->
   flight_offers query w = (failure, issued w [search]))
  /\ (forall flightData offers,
        upstream (calls w) search = Some flightData ->
        get_prop flightData "data" = Ok (VArr offers) ->
        Exists (fun flight => firstSegment flight = Throw) offers ->
        flight_offers query w =
          (failure, issued w (searchAndLookups w originCode destinationCode departureDate)))
  /\ (forall flightData records,
        upstream (calls w) search = Some flightData ->
        get_prop flightData "data" = Ok records -> is_array records = false ->
        flight_offers query w =
          (failure, issued w (searchAndLookups w originCode destinationCode departureDate))).
Proof.
  intros originCode destinationCode departureDate search failure.
  split; [apply flight_offers_rejected | split].
  - intros flightData offers Hsearch Hdata Hbad.
    destruct (flight_offers_run query flightData w Hsearch)
      as (originCity & destinationCity & ->).
    unfold filteredFlights. rewrite Hdata. cbn [obind as_array].
    rewrite filter_by_Throw; [reflexivity|].
    eapply Exists_impl; [exact Hbad|]. intros flight. apply departsAndArrives_Throw.
  - intros flightData records Hsearch Hdata Hrecords.
    destruct (flight_offers_run query flightData w Hsearch)
      as (originCity & destinationCity & ->).
    unfold filteredFlights. rewrite Hdata. cbn [obind].
    destruct records; try reflexivity; discriminate.
Qed.

(** X9.  Whatever upstream answers, when [/flight-offers] renders, the
    flights on the page are offers of the search result, in their order,
    each with a first segment that departs from the origin and arrives at
    one of the related codes of the destination; the page lists at most
    one airline per flight; and the route has issued the search, three
    location lookups and one airline lookup per distinct carrier. *)
Theorem flight_offers_renders_only_retained
    (query : gmap string value) (view : string) (locals : value) (w w' : world) :
  let originCode := query_param query "originCode" in
  let destinationCode := query_param query "destinationCode" in
  let departureDate := query_param query "departureDate" in
  let lookups := searchAndLookups w originCode destinationCode departureDate in
  flight_offers query w = (Ok (Render view locals), w') ->
  exists flightData offers flights airlines carrierCodes,
    upstream (calls w) (searchCall w originCode destinationCode departureDate)
      = Some flightData
    /\ get_prop flightData "data" = Ok (VArr offers)
    /\ get_prop locals "flights" = Ok (VArr flights)
    /\ get_prop locals "airlines" = Ok (VArr airlines)
    /\ sublist flights offers
    /\ Forall (retained originCode
                 (related_codes destinationCode (issued w (take 3 lookups)))) flights
    /\ Forall2 (fun flight code => firstCarrierCode flight = Ok code) flights carrierCodes
    /\ (length airlines <= length flights)%nat
    /\ w' = issued w (lookups ++ (airlineCall (authorization_of w) <$> unique carrierCodes)).
Proof.
  intros originCode destinationCode departureDate lookups Hrun.
  destruct (upstream (calls w) (searchCall w originCode destinationCode departureDate))
    as [flightData|] eqn:Hsearch;
    [|rewrite (flight_offers_rejected query w Hsearch) in Hrun; discriminate].
  destruct (flight_offers_run query flightData w Hsearch)
    as (originCity & destinationCity & Heq).
  rewrite Heq in Hrun. clear Heq. fold originCode destinationCode departureDate in Hrun.
  fold lookups in Hrun.
  destruct (filteredFlights _ _ flightData) as [flights|] eqn:Hfilter; [|discriminate].
  unfold filteredFlights in Hfilter.
  destruct (get_prop flightData "data") as [records|] eqn:Hdata; [|discriminate].
  destruct records as [| | | | |offers|]; try discriminate. cbn [obind as_array] in Hfilter.
  destruct (filter_by_sound _ _ _ Hfilter) as [Hsub Hall].
  destruct (map_by firstCarrierCode flights) as [carrierCodes|] eqn:Hcodes.
  - rewrite (getAirlinesFromFlightOffers_unfold _ _ _ Hcodes) in Hrun.
    rewrite resolveAirlines_replies in Hrun. injection Hrun as <- <- <-.
    eexists flightData, offers, flights, _, carrierCodes.
    split; [reflexivity|]. split; [exact Hdata|]. do 2 (split; [reflexivity|]).
    repeat split.
    + exact Hsub.
    + eapply Forall_impl; [exact Hall|]. intros flight. apply departsAndArrives_retained.
    + now apply map_by_Forall2.
    + cbn [app]. etransitivity; [apply omap_length_le|].
      rewrite replies_length, length_fmap, <- (map_by_length _ _ _ Hcodes).
      apply unique_from_length.
    + now rewrite issued_issued.
  - unfold getAirlinesFromFlightOffers in Hrun. rewrite bind_lift, Hcodes in Hrun.
    discriminate.
Qed.

(** ** What the details route answers when it cannot render *)

Lemma findOffer_none (offerId data : value) (offers : list value) :
  get_prop data "data" = Ok (VArr offers) -> no_offer_with offerId offers ->
  findOffer offerId data = Ok VUndef.
Proof.
  intros Hdata Hnone. unfold findOffer. rewrite Hdata. cbn [obind as_array].
  apply no_offer_with_spec in Hnone.
  rewrite <- (app_nil_r offers). now rewrite find_by_skip.
Qed.

(** X10.  [/flight-details] answers 400 without any call when the offer id
    is missing or empty; 500 after the search alone when the search is
    rejected; 404 after the search alone, so without a pricing call, when
    no offer of the result has the id; and 500 after the search and the
    pricing call, without any lookup, when pricing is rejected. *)
Theorem flight_details_failures (query : gmap string value) (w : world) :
  let offerId := query_param query "offerId" in
  let search :=
    searchCall w (query_param query "originCode") (query_param query "destinationCode")
      (query_param query "departureDate") in
  (truthy offerId = false ->
   flight_details query w = (Ok (Send 400 "Flight offer ID is required"), w))
  /\ (truthy offerId = true -> upstream (calls w) search = None ->
      flight_details query w =
        (Ok (Send 500 "Error fetching flight details"), issued w [search]))
  /\ (forall found offers,
        truthy offerId = true -> upstream (calls w) search = Some found ->
        get_prop found "data" = Ok (VArr offers) -> no_offer_with offerId offers ->
        flight_details query w = (Ok (Send 404 "Flight offer not found"), issued w [search]))
  /\ (forall found flightOffer,
        truthy offerId = true -> upstream (calls w) search = Some found ->
        findOffer offerId found = Ok flightOffer -> truthy flightOffer = true ->
        upstream (calls w ++ [search]) (pricingCall w flightOffer) = None ->
        flight_details query w =
          (Ok (Send 500 "Error fetching flight details"),
           issued w [search; pricingCall w flightOffer])).
Proof.
  intros offerId search. subst search. unfold searchCall, pricingCall.
  split; [|split; [|split]].
  - intros Hid. unfold flight_details. fold offerId. now rewrite Hid.
  - intros Hid Hsearch. unfold flight_details. fold offerId. rewrite Hid. cbn [negb].
    unfold try_catch. rewrite bind_bearer, bind_axios. now rewrite Hsearch.
  - intros found offers Hid Hsearch Hdata Hnone.
    unfold flight_details. fold offerId. rewrite Hid. cbn [negb].
    unfold try_catch. rewrite bind_bearer, bind_axios, Hsearch, bind_lift.
    now rewrite (findOffer_none _ _ _ Hdata Hnone).
  - intros found flightOffer Hid Hsearch Hfind Hoffer Hpricing.
    unfold flight_details. fold offerId. rewrite Hid. cbn [negb].
    unfold try_catch. rewrite bind_bearer, bind_axios, Hsearch, bind_lift, Hfind, Hoffer.
    cbn [negb]. rewrite bind_bearer, bind_axios.
    change (calls (issued w ?cs)) with (calls w ++ cs).
    change (authorization_of (issued w ?cs)) with (authorization_of w).
    rewrite Hpricing. now rewrite issued_issued.
Qed.

(** ** The lookups of the two enrichment loops *)

Lemma for_each_lookups {A} (body : value -> M A) (cost : string -> value -> list call)
    (l : list value) :
  Forall (fun x => forall w, exists y,
            body x w = (Ok y, issued w (cost (authorization_of w) x))) l ->
  forall w, exists l',
    for_each body l w = (Ok l', issued w (concat (cost (authorization_of w) <$> l))).
Proof.
  induction 1 as [|x l Hx _ IH]; intros w; cbn [for_each].
  - exists []. unfold ret. cbn. now rewrite issued_nil.
  - destruct (Hx w) as (y & Hy). destruct (IH (issued w (cost (authorization_of w) x)))
      as (l' & Hl').
    exists (y :: l'). rewrite (bind_ok _ _ _ _ _ Hy), (bind_ok _ _ _ _ _ Hl').
    unfold ret. cbn. now rewrite issued_issued.
Qed.

Lemma collect_lookups (body : value -> M (list value))
    (cost : string -> value -> list call) (l : list value) :
  Forall (fun x => forall w, exists ys,
            body x w = (Ok ys, issued w (cost (authorization_of w) x))) l ->
  forall w, exists ys,
    collect body l w = (Ok ys, issued w (concat (cost (authorization_of w) <$> l))).
Proof.
  induction 1 as [|x l Hx _ IH]; intros w; cbn [collect].
  - exists []. unfold ret. cbn. now rewrite issued_nil.
  - destruct (Hx w) as (ys & Hys). destruct (IH (issued w (cost (authorization_of w) x)))
      as (more & Hmore).
    exists (ys ++ more). rewrite (bind_ok _ _ _ _ _ Hys), (bind_ok _ _ _ _ _ Hmore).
    unfold ret. cbn. now rewrite issued_issued.
Qed.

Lemma concat_fmap_concat {A B} (f : A -> list B) (ls : list (list A)) :
  concat (f <$> concat ls) = concat ((fun l => concat (f <$> l)) <$> ls).
Proof.
  forget_server. induction ls as [|l ls IH]; cbn; [reflexivity|].
  now rewrite fmap_app, concat_app, IH.
Qed.

Lemma endpoint_lookups_wf (authorization : string) (s : value) :
  wf_segment s -> length (endpoint_lookups authorization s) = 2%nat.
Proof.
  intros (m & d & a & -> & Hd & Ha). unfold endpoint_lookups, endpoints_of.
  cbn [get_prop]. now rewrite Hd, Ha.
Qed.

Lemma enrichSegment_lookups (airlines : list value) (s : value) (w : world) :
  wf_segment s -> entries airlines ->
  exists s',
    enrichSegment airlines s w = (Ok s', issued w (endpoint_lookups (authorization_of w) s)).
Proof.
  intros (m & d & a & -> & Hd & Ha) Hentries.
  destruct (airlineNameOf_total airlines m Hentries) as [name Hname].
  unfold enrichSegment, bind, lift, endpoint_lookups, endpoints_of. cbn [get_prop].
  rewrite Hd, Ha. cbn [default from_option id get_prop obind].
  rewrite getCityAndAirportName_run. rewrite getCityAndAirportName_run.
  rewrite decorate_eq, Hd, Ha, !decorated_obj, Hname. cbn [obind get_prop].
  eexists. now rewrite issued_issued.
Qed.

Lemma rebuildSegment_lookups (s : value) (w : world) :
  wf_segment s ->
  exists s',
    rebuildSegment s w = (Ok s', issued w (endpoint_lookups (authorization_of w) s)).
Proof.
  intros (m & d & a & -> & Hd & Ha).
  unfold rebuildSegment, bind, lift, endpoint_lookups, endpoints_of. cbn [get_prop].
  rewrite Hd, Ha. cbn [default from_option id get_prop obind].
  rewrite getCityAndAirportName_run. rewrite getCityAndAirportName_run.
  unfold rebuilt. cbn [get_prop spread]. rewrite Hd, Ha.
  cbn [default from_option id get_prop obind].
  eexists. now rewrite issued_issued.
Qed.

Lemma enrichItinerary_lookups (airlines : list value) (itinerary : value) (w : world) :
  wf_itinerary itinerary -> entries airlines ->
  exists itinerary',
    enrichItinerary airlines itinerary w =
      (Ok itinerary',
       issued w (concat (endpoint_lookups (authorization_of w) <$> segments_in itinerary))).
Proof.
  intros (m & segments & -> & Hsegments & Hwf) Hentries.
  destruct (for_each_lookups (enrichSegment airlines) endpoint_lookups segments)
    with (w := w) as (segments' & Hrun).
  { eapply Forall_impl; [exact Hwf|]. intros s Hs w0.
    now apply enrichSegment_lookups. }
  unfold enrichItinerary, segments_in. rewrite bind_lift. cbn [get_prop].
  rewrite Hsegments. cbn [default from_option id for_of_update].
  unfold bind at 1. rewrite (bind_ok _ _ _ _ _ Hrun). unfold ret, lift.
  cbn [set_prop]. eexists. reflexivity.
Qed.

Lemma enrichOffer_lookups (airlines : list value) (offer : value) (w : world) :
  wf_offer offer -> entries airlines ->
  exists offer',
    enrichOffer airlines offer w =
      (Ok offer',
       issued w (concat (endpoint_lookups (authorization_of w) <$> segments_of offer))).
Proof.
  intros (m & itineraries & -> & Hitineraries & Hwf) Hentries.
  destruct (for_each_lookups (enrichItinerary airlines)
              (fun authorization i =>
                 concat (endpoint_lookups authorization <$> segments_in i)) itineraries)
    with (w := w) as (itineraries' & Hrun).
  { eapply Forall_impl; [exact Hwf|]. intros i Hi w0.
    now apply enrichItinerary_lookups. }
  unfold enrichOffer, segments_of. rewrite bind_lift. cbn [get_prop].
  rewrite Hitineraries. cbn [default from_option id for_of_update].
  unfold bind at 1. rewrite (bind_ok _ _ _ _ _ Hrun). unfold ret, lift.
  cbn [set_prop]. rewrite concat_fmap_concat, <- list_fmap_compose.
  eexists. reflexivity.
Qed.

Lemma itinerarySegments_lookups (itinerary : value) (w : world) :
  wf_itinerary itinerary ->
  exists segments',
    itinerarySegments itinerary w =
      (Ok segments',
       issued w (concat (endpoint_lookups (authorization_of w) <$> segments_in itinerary))).
Proof.
  intros (m & segments & -> & Hsegments & Hwf).
  unfold itinerarySegments, segments_in. rewrite bind_lift. cbn [get_prop].
  rewrite Hsegments. cbn [default from_option id when_array truthy is_array andb].
  apply (for_each_lookups rebuildSegment endpoint_lookups).
  eapply Forall_impl; [exact Hwf|]. intros s Hs w0. now apply rebuildSegment_lookups.
Qed.

Lemma offerSegments_lookups (offer : value) (w : world) :
  wf_offer offer ->
  exists segments',
    offerSegments offer w =
      (Ok segments',
       issued w (concat (endpoint_lookups (authorization_of w) <$> segments_of offer))).
Proof.
  intros (m & itineraries & -> & Hitineraries & Hwf).
  unfold offerSegments, segments_of. rewrite bind_lift. cbn [get_prop].
  rewrite Hitineraries. cbn [default from_option id when_array truthy is_array andb].
  rewrite concat_fmap_concat, <- list_fmap_compose.
  apply (collect_lookups itinerarySegments
           (fun authorization i =>
              concat (endpoint_lookups authorization <$> segments_in i))).
  eapply Forall_impl; [exact Hwf|]. intros i Hi w0. now apply itinerarySegments_lookups.
Qed.

Lemma bookedSegments_lookups (bookingDetails : value) (w : world) :
  wf_booking bookingDetails ->
  exists segments',
    bookedSegments bookingDetails w =
      (Ok segments',
       issued w (concat (endpoint_lookups (authorization_of w)
                           <$> booking_segments bookingDetails))).
Proof.
  intros (data & offers & Hdata & Hoffers & Hwf).
  unfold bookedSegments, booking_segments. rewrite bind_lift, Hdata, bind_lift.
  cbn [obind]. rewrite Hoffers. cbn [when_array truthy is_array andb].
  rewrite concat_fmap_concat, <- list_fmap_compose.
  apply (collect_lookups offerSegments
           (fun authorization o =>
              concat (endpoint_lookups authorization <$> segments_of o))).
  eapply Forall_impl; [exact Hwf|]. intros o Ho w0. now apply offerSegments_lookups.
Qed.

Lemma wf_segments_of (offer : value) : wf_offer offer -> Forall wf_segment (segments_of offer).
Proof.
  forget_server. intros (m & itineraries & -> & Hitineraries & Hwf).
  unfold segments_of. cbn [get_prop]. rewrite Hitineraries. cbn [default from_option id].
  apply Forall_concat_fmap. eapply Forall_impl; [exact Hwf|].
  intros i (mi & segments & -> & Hsegments & Hs). unfold segments_in. cbn [get_prop].
  now rewrite Hsegments.
Qed.

Lemma lookups_length (authorization : string) (segments : list value) :
  Forall wf_segment segments ->
  length (concat (endpoint_lookups authorization <$> segments)) = (2 * length segments)%nat.
Proof.
  induction 1 as [|s segments Hs _ IH]; cbn [fmap list_fmap concat length]; [reflexivity|].
  rewrite length_app, IH, (endpoint_lookups_wf _ _ Hs). lia.
Qed.

(** X11.  On an offer whose segments have both endpoints, the loop of
    [/flight-details] issues exactly two location lookups per segment, for
    the departure code and then the arrival code, segment after segment;
    so does the loop of [/booked-flight] on such a booking.  Nothing is
    remembered between segments: an airport that two segments share is
    looked up once for each. *)
Theorem enrichment_lookups_two_per_segment
    (airlines : list value) (offer bookingDetails : value) (w : world) :
  wf_offer offer -> entries airlines -> wf_booking bookingDetails ->
  let lookups segments :=
    concat (endpoint_lookups (authorization_of w) <$> segments) in
  (enrichOffer airlines offer w).2 = issued w (lookups (segments_of offer))
  /\ length (lookups (segments_of offer)) = (2 * length (segments_of offer))%nat
  /\ (bookedSegments bookingDetails w).2 = issued w (lookups (booking_segments bookingDetails))
  /\ length (lookups (booking_segments bookingDetails))
     = (2 * length (booking_segments bookingDetails))%nat.
Proof.
  intros Hoffer Hentries Hbooking lookups.
  destruct (enrichOffer_lookups airlines offer w Hoffer Hentries) as (offer' & ->).
  destruct (bookedSegments_lookups bookingDetails w Hbooking) as (segments' & ->).
  split; [reflexivity|]. split; [apply lookups_length, wf_segments_of, Hoffer|].
  split; [reflexivity|]. apply lookups_length.
  destruct Hbooking as (data & offers & Hdata & Hoffers & Hwf).
  unfold booking_segments. rewrite Hdata. cbn [obind]. rewrite Hoffers.
  apply Forall_concat_fmap. eapply Forall_impl; [exact Hwf|]. apply wf_segments_of.
Qed.

(** ** What the confirmation page answers *)

Lemma wf_booking_object (bookingDetails : value) :
  wf_booking bookingDetails -> exists m, bookingDetails = VObj m.
Proof.
  forget_server. intros (data & offers & Hdata & Hoffers & _).
  destruct bookingDetails as [| | | |s|l|m]; cbn in Hdata; try discriminate;
    try (injection Hdata as <-; cbn in Hoffers; discriminate).
  now exists m.
Qed.

Lemma bookedSegments_run (bookingDetails : value) (w : world) :
  bookedSegments bookingDetails w =
    match get_prop bookingDetails "data" with
    | Ok data =>
        match get_prop data "flightOffers" with
        | Ok flightOffers => collect offerSegments (when_array flightOffers) w
        | Throw => (Throw, w)
        end
    | Throw => (Throw, w)
    end.
Proof.
  unfold bookedSegments. rewrite bind_lift.
  destruct (get_prop bookingDetails "data") as [data|]; [|reflexivity].
  rewrite bind_lift. now destruct (get_prop data "flightOffers").
Qed.

(** X12.  [/booked-flight] answers 400 without any call when the booking
    id is missing or empty, and 500 after one call when the order cannot
    be fetched or its reply has no [data].  A reply whose [data] holds no
    array of offers is rendered with an empty list of segments and no
    lookup.  A booking whose segments have both endpoints is rendered after
    two lookups per segment: the traveler is the one of the query string,
    the booking record is passed on with every field but [segments] as
    upstream sent it, and [segments] holds one rebuilt segment for each
    segment of the booking, in order. *)
Theorem booked_flight_outcomes (query : gmap string value) (w : world) :
  let bookingId := query_param query "bookingId" in
  let failure : outcome response :=
    Ok (Json 500 (obj [("error", VStr "Error fetching booking details")])) in
  (truthy bookingId = false ->
   booked_flight query w = (Ok (Json 400 (obj [("error", VStr "Missing booking ID")])), w))
  /\ (truthy bookingId = true ->
      upstream (calls w) (orderCall w bookingId) = None
      \/ (exists bookingDetails,
            upstream (calls w) (orderCall w bookingId) = Some bookingDetails
            /\ get_prop bookingDetails "data" = Ok VUndef) ->
      booked_flight query w = (failure, issued w [orderCall w bookingId]))
  /\ (forall bookingDetails data flightOffers,
        truthy bookingId = true ->
        upstream (calls w) (orderCall w bookingId) = Some bookingDetails ->
        get_prop bookingDetails "data" = Ok data ->
        get_prop data "flightOffers" = Ok flightOffers -> is_array flightOffers = false ->
        booked_flight query w =
          (Ok (confirmation query bookingDetails []), issued w [orderCall w bookingId]))
  /\ (forall bookingDetails,
        truthy bookingId = true ->
        upstream (calls w) (orderCall w bookingId) = Some bookingDetails ->
        wf_booking bookingDetails ->
        exists segments,
          booked_flight query w =
            (Ok (confirmation query bookingDetails segments),
             issued w (orderCall w bookingId
                         :: concat (endpoint_lookups (authorization_of w)
                                      <$> booking_segments bookingDetails)))
          /\ Forall2 segment_rebuilt (booking_segments bookingDetails) segments
          /\ same_outside ["segments"] bookingDetails
               (VObj (<["segments" := VArr segments]> (spread bookingDetails)))).
Proof.
  intros bookingId failure. unfold orderCall.
  split; [|split; [|split]].
  - intros Hid. unfold booked_flight. fold bookingId. now rewrite Hid.
  - intros Hid Hfetch. unfold booked_flight. fold bookingId. rewrite Hid. cbn [negb].
    unfold try_catch. rewrite bind_bearer, bind_axios.
    destruct Hfetch as [->|(bookingDetails & -> & Hdata)]; [reflexivity|].
    unfold bind at 1. now rewrite bookedSegments_run, Hdata.
  - intros bookingDetails data flightOffers Hid Hfetch Hdata Hoffers Harray.
    unfold booked_flight. fold bookingId. rewrite Hid. cbn [negb].
    unfold try_catch. rewrite bind_bearer, bind_axios, Hfetch.
    unfold bind at 1. rewrite bookedSegments_run, Hdata, Hoffers.
    unfold when_array. rewrite Harray, andb_false_r. reflexivity.
  - intros bookingDetails Hid Hfetch Hwf.
    unfold booked_flight. fold bookingId. rewrite Hid. cbn [negb].
    unfold try_catch. rewrite bind_bearer, bind_axios, Hfetch.
    destruct (bookedSegments_lookups bookingDetails
                (issued w [GET (flightOrdersUrl +:+ "/" +:+ to_String bookingId)
                             (authorization_of w) VUndef]) Hwf) as (segments & Hrun).
    destruct (bookedSegments_wf bookingDetails
                (issued w [GET (flightOrdersUrl +:+ "/" +:+ to_String bookingId)
                             (authorization_of w) VUndef]) Hwf)
      as (segments' & w' & Hrun' & _ & Hrebuilt).
    rewrite Hrun in Hrun'. injection Hrun' as <- _.
    rewrite (bind_ok _ _ _ _ _ Hrun). exists segments.
    split; [unfold ret; now rewrite issued_issued|]. split; [exact Hrebuilt|].
    destruct (wf_booking_object _ Hwf) as [m ->]. intros k Hk.
    rewrite not_elem_of_cons in Hk. destruct Hk as [Hk _].
    cbn [get_prop spread]. now rewrite lookup_insert_ne.
Qed.

(** ** What a booking request is answered *)





(** ** The two names of the traveler *)

Lemma cut_before (sep : ascii) (s : string) : occurrences sep (cut sep s).1 = 0%nat.
Proof.
  forget_server. induction s as [|c s IH]; cbn; [reflexivity|].
  destruct (Ascii.eqb c sep) eqn:Hc; [reflexivity|].
  destruct (cut sep s) as [before after]. cbn in *. now rewrite Hc.
Qed.

Lemma cut_after (sep : ascii) (s : string) :
  match (cut sep s).2 with
  | Some rest =>
      s = (cut sep s).1 +:+ String sep rest
      /\ occurrences sep s = S (occurrences sep rest)
  | None => (cut sep s).1 = s /\ occurrences sep s = 0%nat
  end.
Proof.
  forget_server. induction s as [|c s IH]; cbn; [split; reflexivity|].
  destruct (Ascii.eqb c sep) eqn:Hc.
  - apply Ascii.eqb_eq in Hc as ->. cbn. split; reflexivity.
  - destruct (cut sep s) as [before [rest|]]; cbn in *.
    + destruct IH as [-> ->]. split; reflexivity.
    + destruct IH as [-> ->]. split; reflexivity.
Qed.

Lemma length_append (s1 s2 : string) :
  String.length (s1 +:+ s2) = (String.length s1 + String.length s2)%nat.
Proof.
  forget_server. induction s1 as [|c s1 IH]; simpl; [reflexivity | now rewrite IH].
Qed.

(** X14.  Neither name sent for the traveler contains a space.  For a
    name without a space the first name is the whole name and the last
    name is empty; for a name with exactly one space the two names joined
    by a space give the name back; for a name with more spaces part of it
    is not sent. *)
Theorem traveler_name_round_trip (name gender : string) (email phone dob : value) :
  exists record firstName lastName,
    traveler (VStr name) email phone dob (VStr gender) = Ok record
    /\ read record ["name"; "firstName"] = Ok (VStr firstName)
    /\ read record ["name"; "lastName"] = Ok (VStr lastName)
    /\ occurrences " " firstName = 0%nat /\ occurrences " " lastName = 0%nat
    /\ (occurrences " " name = 0%nat -> firstName = name /\ lastName = "")
    /\ (occurrences " " name = 1%nat -> firstName +:+ " " +:+ lastName = name)
    /\ ((2 <= occurrences " " name)%nat ->
        (String.length firstName + String.length lastName + 1 < String.length name)%nat).
Proof.
  forget_server. eexists _, _, _. split; [apply traveler_names|].
  split; [reflexivity|]. split; [reflexivity|].
  pose proof (cut_before " " name) as Hfirst. pose proof (cut_after " " name) as Hname.
  destruct (cut " " name) as [firstName [rest|]]; cbn [fst snd] in Hfirst, Hname |- *.
  - pose proof (cut_before " " rest) as Hlast. pose proof (cut_after " " rest) as Hrest.
    destruct Hname as [-> Hcount]. rewrite Hcount.
    destruct (cut " " rest) as [lastName [rest'|]]; cbn [fst snd] in Hlast, Hrest |- *.
    + destruct Hrest as [-> Hcount']. rewrite Hcount'.
      split; [exact Hfirst|]. split; [exact Hlast|]. split; [discriminate|].
      split; [discriminate|]. intros _. rewrite !length_append. simpl String.length.
      rewrite length_append. simpl String.length. lia.
    + destruct Hrest as [-> Hcount']. rewrite Hcount'.
      split; [exact Hfirst|]. split; [reflexivity|]. split; [discriminate|].
      split; [reflexivity | lia].
  - destruct Hname as [-> Hcount]. rewrite Hcount.
    split; [reflexivity|]. split; [reflexivity|]. split; [now split|].
    split; [discriminate | lia].
Qed.

(** ** Every request is answered, and the token stays *)

Create HintDb grows.

Lemma grows_ret {A} (a : A) : grows (ret a).
Proof. intros w. exists []. cbn. rewrite issued_nil. split; [reflexivity | constructor]. Qed.

Lemma grows_throw {A} : grows (@throw A).
Proof. intros w. exists []. cbn. rewrite issued_nil. split; [reflexivity | constructor]. Qed.

Lemma grows_lift {A} (o : outcome A) : grows (lift o).
Proof. intros w. exists []. cbn. rewrite issued_nil. split; [reflexivity | constructor]. Qed.

Lemma grows_bearer : grows bearer.
Proof. intros w. exists []. cbn. rewrite issued_nil. split; [reflexivity | constructor]. Qed.

Lemma grows_axios (c : call) : from_handler c = true -> grows (axios c).
Proof. intros Hc w. exists [c]. split; [reflexivity | now repeat constructor]. Qed.

Lemma grows_bind {A B} (m : M A) (f : A -> M B) :
  grows m -> (forall x, grows (f x)) -> grows (bind m f).
Proof.
  intros Hm Hf w. unfold bind. destruct (Hm w) as (cs & Hcs & Hall).
  destruct (m w) as [[a|] w1]; cbn in Hcs; subst w1; [|now exists cs].
  destruct (Hf a (issued w cs)) as (cs' & -> & Hall'). exists (cs ++ cs').
  split; [apply issued_issued | now apply Forall_app].
Qed.

Lemma grows_try_catch {A} (body handler : M A) :
  grows body -> grows handler -> grows (try_catch body handler).
Proof.
  intros Hbody Hhandler w. unfold try_catch. destruct (Hbody w) as (cs & Hcs & Hall).
  destruct (body w) as [[a|] w1]; cbn in Hcs; subst w1; [now exists cs|].
  destruct (Hhandler (issued w cs)) as (cs' & -> & Hall'). exists (cs ++ cs').
  split; [apply issued_issued | now apply Forall_app].
Qed.

#[local] Hint Resolve grows_ret grows_throw grows_lift grows_bearer grows_axios
  grows_bind grows_try_catch : grows.
#[local] Hint Extern 1 (grows (if ?b then _ else _)) => destruct b : grows.
#[local] Hint Extern 1 (from_handler _ = true) => reflexivity : grows.

Lemma grows_for_each {A} (body : value -> M A) (l : list value) :
  (forall x, grows (body x)) -> grows (for_each body l).
Proof. intros Hbody. induction l; cbn [for_each]; auto with grows. Qed.

Lemma grows_for_of_update (body : value -> M value) (v : value) :
  (forall x, grows (body x)) -> grows (for_of_update body v).
Proof.
  intros Hbody. pose proof (grows_for_each body) as Hloop.
  destruct v; cbn [for_of_update]; auto with grows.
Qed.

Lemma grows_collect (body : value -> M (list value)) (l : list value) :
  (forall x, grows (body x)) -> grows (collect body l).
Proof. intros Hbody. induction l; cbn [collect]; auto with grows. Qed.

Lemma grows_resolveAirlines (codes airlines : list value) :
  grows (resolveAirlines codes airlines).
Proof.
  revert airlines. induction codes; intros airlines; cbn [resolveAirlines];
    auto 10 with grows.
Qed.

#[local] Hint Resolve grows_for_each grows_for_of_update grows_collect
  grows_resolveAirlines : grows.

Lemma grows_getAirlinesFromFlightOffers (flights : list value) :
  grows (getAirlinesFromFlightOffers flights).
Proof. unfold getAirlinesFromFlightOffers. auto with grows. Qed.

Lemma grows_getCityNameFromIATA (iataCode : value) : grows (getCityNameFromIATA iataCode).
Proof. unfold getCityNameFromIATA. auto 10 with grows. Qed.

Lemma grows_getAirlineName (carrierCode : value) : grows (getAirlineName carrierCode).
Proof. unfold getAirlineName. auto 10 with grows. Qed.

Lemma grows_getRelatedAirportCodes (cityCode : value) :
  grows (getRelatedAirportCodes cityCode).
Proof. unfold getRelatedAirportCodes. auto 10 with grows. Qed.

Lemma grows_getCityAndAirportName (iataCode : value) :
  grows (getCityAndAirportName iataCode).
Proof. unfold getCityAndAirportName. auto 10 with grows. Qed.

#[local] Hint Resolve grows_getAirlinesFromFlightOffers grows_getCityNameFromIATA
  grows_getRelatedAirportCodes grows_getCityAndAirportName : grows.

Lemma grows_enrichOffer (airlines : list value) (offer : value) :
  grows (enrichOffer airlines offer).
Proof.
  assert (forall s, grows (enrichSegment airlines s)) as Hsegment
    by (intros s; unfold enrichSegment; auto 20 with grows).
  assert (forall i, grows (enrichItinerary airlines i)) as Hitinerary
    by (intros i; unfold enrichItinerary; auto 10 with grows).
  unfold enrichOffer. auto 10 with grows.
Qed.

Lemma grows_bookedSegments (bookingDetails : value) : grows (bookedSegments bookingDetails).
Proof.
  assert (forall s, grows (rebuildSegment s)) as Hsegment
    by (intros s; unfold rebuildSegment; auto 20 with grows).
  assert (forall i, grows (itinerarySegments i)) as Hitinerary
    by (intros i; unfold itinerarySegments; auto 10 with grows).
  assert (forall o, grows (offerSegments o)) as Hoffer
    by (intros o; unfold offerSegments; auto 10 with grows).
  unfold bookedSegments. auto 10 with grows.
Qed.

#[local] Hint Resolve grows_enrichOffer grows_bookedSegments : grows.

Lemma settles_ret {A} (a : A) : settles (ret a).
Proof.
  intros w. exists a, []. unfold ret. rewrite issued_nil.
  split; [reflexivity | constructor].
Qed.

Lemma settles_try_catch {A} (body : M A) (a : A) :
  grows body -> settles (try_catch body (ret a)).
Proof.
  intros Hbody w. unfold try_catch, ret. destruct (Hbody w) as (cs & Hcs & Hall).
  destruct (body w) as [[x|] w1]; cbn in Hcs; subst w1; eexists _, cs; now split.
Qed.

Lemma routes_settle (request : gmap string value) (handler : M response) :
  handler ∈ routes request -> settles handler.
Proof.
  unfold routes. rewrite !elem_of_cons.
  intros [->|[->|[->|[->|[->|[->|[->|[->|[->|[->|H]]]]]]]]]];
    [| | | | | | | | | |now apply not_elem_of_nil in H];
    try apply settles_ret.
  - apply settles_try_catch. auto 10 with grows.
  - apply settles_try_catch. auto 20 with grows.
  - unfold flight_details. destruct (negb _); [apply settles_ret|].
    apply settles_try_catch. auto 20 with grows.
  - unfold confirm_booking. destruct (_ || _); [apply settles_ret|].
    apply settles_try_catch. auto 20 with grows.
  - unfold booked_flight. destruct (negb _); [apply settles_ret|].
    apply settles_try_catch. auto 10 with grows.
  - apply settles_try_catch. auto 10 with grows.
  - apply settles_try_catch. auto 10 with grows.
Qed.

Lemma from_handler_exchange (cs : list call) :
  Forall (fun c => from_handler c = true) cs ->
  Forall (fun c => c <> credentialExchange) cs.
Proof. intros H. eapply Forall_impl; [exact H|]. intros c Hc ->. discriminate. Qed.

(** X15.  Every route answers every request: no exception escapes a
    handler, with or without a token, whatever upstream does.  Once a
    token is in place a request only adds calls to those made so far, none
    of them a credential exchange, and leaves the token as it is: the
    server never asks for a second token.  Without a token the request
    starts with one credential exchange, and makes no other. *)
Theorem routes_answer_and_keep_the_token
    (request : gmap string value) (handler : M response) (w : world) :
  handler ∈ routes request ->
  exists answer w',
    ensureAuthenticated handler w = (Ok answer, w')
    /\ (truthy (accessToken w) = true ->
        ensureAuthenticated handler w = handler w
        /\ exists cs, w' = issued w cs /\ Forall (fun c => c <> credentialExchange) cs)
    /\ (truthy (accessToken w) = false ->
        exists cs, calls w' = calls w ++ credentialExchange :: cs
                   /\ Forall (fun c => c <> credentialExchange) cs).
Proof.
  intros Hhandler. pose proof (routes_settle request handler Hhandler) as Hsettles.
  destruct (truthy (accessToken w)) eqn:Htoken.
  - assert (ensureAuthenticated handler w = handler w) as Hrun
      by (unfold ensureAuthenticated, bind, getToken, ret; now rewrite Htoken).
    rewrite Hrun. destruct (Hsettles w) as (answer & cs & -> & Hall).
    exists answer, (issued w cs). split; [reflexivity|]. split; [|discriminate].
    intros _. split; [reflexivity|]. exists cs.
    split; [reflexivity | now apply from_handler_exchange].
  - destruct (ensureAuthenticated_exchange handler w Htoken) as (w1 & -> & Hcalls).
    destruct (Hsettles w1) as (answer & cs & -> & Hall).
    exists answer, (issued w1 cs). split; [reflexivity|].
    split; [discriminate|]. intros _. exists cs. cbn [calls issued]. rewrite Hcalls.
    rewrite <- app_assoc. split; [reflexivity | now apply from_handler_exchange].
Qed.

(** ** The autocomplete lists and the hotel search *)

Lemma suggestion_fields (m a : gmap string value) :
  m !! "address" = Some (VObj a) ->
  suggestion (VObj m) =
    Ok (obj [("city", default VUndef (a !! "cityName"));
             ("airport", default VUndef (m !! "name"));
             ("code", default VUndef (m !! "iataCode"))]).
Proof. forget_server. intros H. unfold suggestion. cbn [get_prop]. now rewrite H. Qed.

(** X16.  [/suggestions] is all or nothing: when every item of the reply
    is an object with an [address], it answers one entry per item, in
    order, with the city of the address, the name and the code of the
    item; when one item has no [address], it answers 500 and lists none.
    [/hotel-suggestions], which reads no nested field, answers one entry
    per item for any list of objects.  Either route answers 500 when its
    lookup is rejected. *)
Theorem suggestions_all_or_nothing (query : gmap string value) (w : world) :
  let airports :=
    locationCall (authorization_of w) (query_param query "query") "AIRPORT,CITY" in
  let hotels :=
    locationCall (authorization_of w) (query_param query "query") "CITY,HOTEL" in
  (forall data items,
      upstream (calls w) airports = Some data ->
      get_prop data "data" = Ok (VArr items) ->
      (Forall (fun item => exists m a, item = VObj m /\ m !! "address" = Some (VObj a)) items ->
       exists found,
         suggestions query w = (Ok (Json 200 (VArr found)), issued w [airports])
         /\ Forall2 (fun item entry =>
                       get_prop entry "city" = read item ["address"; "cityName"]
                       /\ get_prop entry "airport" = get_prop item "name"
                       /\ get_prop entry "code" = get_prop item "iataCode") items found)
      /\ (Exists (fun item => get_prop item "address" = Ok VUndef) items ->
          suggestions query w =
            (Ok (Send 500 "Error fetching suggestions"), issued w [airports])))
  /\ (forall data items,
      upstream (calls w) hotels = Some data ->
      get_prop data "data" = Ok (VArr items) ->
      Forall (fun item => exists m, item = VObj m) items ->
      exists found,
        hotel_suggestions query w = (Ok (Json 200 (VArr found)), issued w [hotels])
        /\ Forall2 (fun item entry =>
                      get_prop entry "name" = get_prop item "name"
                      /\ get_prop entry "iataCode" = get_prop item "iataCode") items found)
  /\ (upstream (calls w) airports = None ->
      suggestions query w = (Ok (Send 500 "Error fetching suggestions"), issued w [airports]))
  /\ (upstream (calls w) hotels = None ->
      hotel_suggestions query w =
        (Ok (Send 500 "Error fetching hotel suggestions"), issued w [hotels])).
Proof.
  intros airports hotels. subst airports hotels. split; [|split; [|split]].
  - intros data items Hreply Hdata. split.
    + intros Hitems.
      assert (exists found,
                map_by suggestion items = Ok found
                /\ Forall2 (fun item entry =>
                              get_prop entry "city" = read item ["address"; "cityName"]
                              /\ get_prop entry "airport" = get_prop item "name"
                              /\ get_prop entry "code" = get_prop item "iataCode")
                     items found) as (found & Hfound & Hrel).
      { clear Hdata Hreply. induction Hitems as [|item items (m & a & -> & Ha) _ IH].
        - exists []. split; [reflexivity | constructor].
        - destruct IH as (found & Hfound & Hrel). eexists (_ :: found).
          cbn [map_by]. rewrite (suggestion_fields _ _ Ha), Hfound. cbn [obind].
          split; [reflexivity|]. constructor; [|exact Hrel].
          cbn [read get_prop obind]. rewrite Ha. cbn [default from_option id get_prop obind].
          repeat split; reflexivity. }
      exists found. split; [|exact Hrel].
      unfold suggestions, try_catch. rewrite bind_bearer, bind_axios, Hreply, bind_lift.
      rewrite Hdata. cbn [obind as_array]. now rewrite Hfound.
    + intros Hbad.
      unfold suggestions, try_catch. rewrite bind_bearer, bind_axios, Hreply, bind_lift.
      rewrite Hdata. cbn [obind as_array].
      replace (map_by suggestion items) with (@Throw (list value)); [reflexivity|].
      symmetry. apply map_by_Throw. eapply Exists_impl; [exact Hbad|].
      intros item Haddress. unfold suggestion. now rewrite Haddress.
  - intros data items Hreply Hdata Hitems.
    assert (exists found,
              map_by hotelSuggestion items = Ok found
              /\ Forall2 (fun item entry =>
                            get_prop entry "name" = get_prop item "name"
                            /\ get_prop entry "iataCode" = get_prop item "iataCode")
                   items found) as (found & Hfound & Hrel).
    { clear Hdata Hreply. induction Hitems as [|item items (m & ->) _ IH].
      - exists []. split; [reflexivity | constructor].
      - destruct IH as (found & Hfound & Hrel). eexists (_ :: found).
        cbn [map_by hotelSuggestion get_prop obind]. rewrite Hfound. cbn [obind].
        split; [reflexivity|]. constructor; [|exact Hrel]. split; reflexivity. }
    exists found. split; [|exact Hrel].
    unfold hotel_suggestions, try_catch.
    rewrite bind_bearer, bind_axios, Hreply, bind_lift.
    rewrite Hdata. cbn [obind as_array]. now rewrite Hfound.
  - intros Hreply. unfold suggestions, try_catch.
    now rewrite bind_bearer, bind_axios, Hreply.
  - intros Hreply. unfold hotel_suggestions, try_catch.
    now rewrite bind_bearer, bind_axios, Hreply.
Qed.

(** X17.  [/hotel-offers] makes one search, for the number of adults of
    the query or else for one adult, and hands the [data] of the reply to
    the page as it is, without looking at it; it answers 500 when the
    search is rejected or replies nothing. *)
Theorem hotel_offers_passes_the_reply_on (query : gmap string value) (w : world) :
  let search := hotelCall (authorization_of w) query in
  (forall hotelData hotels,
      upstream (calls w) search = Some hotelData ->
      get_prop hotelData "data" = Ok hotels ->
      hotel_offers query w =
        (Ok (Render "hotel-offers"
               (obj [("title", VStr "Hotel Offers"); ("hotels", hotels);
                     ("query", VObj query)])),
         issued w [search]))
  /\ (upstream (calls w) search = None
      \/ upstream (calls w) search = Some VUndef
      \/ upstream (calls w) search = Some VNull ->
      hotel_offers query w = (Ok (Send 500 "Error fetching hotel offers"), issued w [search]))
  /\ (exists params,
        search = GET hotelOffersUrl (authorization_of w) params
        /\ get_prop params "cityCode" = Ok (query_param query "cityCode")
        /\ get_prop params "checkInDate" = Ok (query_param query "checkInDate")
        /\ get_prop params "checkOutDate" = Ok (query_param query "checkOutDate")
        /\ (truthy (query_param query "adults") = true ->
            get_prop params "adults" = Ok (query_param query "adults"))
        /\ (truthy (query_param query "adults") = false ->
            get_prop params "adults" = Ok (VNum 1))).
Proof.
  intros search. subst search. split; [|split].
  - intros hotelData hotels Hreply Hdata. unfold hotel_offers, try_catch.
    now rewrite bind_bearer, bind_axios, Hreply, bind_lift, Hdata.
  - intros Hreply. unfold hotel_offers, try_catch. rewrite bind_bearer, bind_axios.
    destruct Hreply as [->|[->| ->]]; reflexivity.
  - eexists. split; [reflexivity|]. unfold or_else.
    do 3 (split; [reflexivity|]). split; intros ->; reflexivity.
Qed.

(** ** Which carriers get a name on the details page *)

Lemma getAirlinesFromFlightOffers_one (flight code : value) (w : world) :
  firstCarrierCode flight = Ok code ->
  getAirlinesFromFlightOffers [flight] w =
    (Ok (option_list (resolved (upstream (calls w) (airlineCall (authorization_of w) code)))),
     issued w [airlineCall (authorization_of w) code]).
Proof.
  intros Hcode. unfold getAirlinesFromFlightOffers. rewrite bind_lift.
  cbn [map_by]. rewrite Hcode. cbn [obind]. change (unique [code]) with [code].
  now rewrite resolveAirlines_cons.
Qed.

(** X18.  [/flight-details] resolves one carrier only: the one of the
    first segment of the offer that the search found.  A segment of that
    carrier is shown with the name that the lookup returned; a segment of
    any other carrier, as on a connection operated by two airlines, is
    shown with its carrier code. *)
Theorem details_name_the_first_carrier_only
    (flightOffer s first name code : value) (w w1 : world) :
  firstCarrierCode flightOffer = Ok first ->
  answers_with (upstream (calls w) (airlineCall (authorization_of w) first)) first name ->
  wf_segment s -> get_prop s "carrierCode" = Ok code ->
  exists airlines,
    getAirlinesFromFlightOffers [flightOffer] w =
      (Ok airlines, issued w [airlineCall (authorization_of w) first])
    /\ length airlines = 1%nat
    /\ exists s' w2,
         enrichSegment airlines s w1 = (Ok s', w2)
         /\ get_prop s' "airlineName" = Ok (if strict_eq first code then name else code).
Proof.
  intros Hfirst Hanswer Hs Hcode.
  rewrite (getAirlinesFromFlightOffers_one _ _ _ Hfirst).
  rewrite (airlineEntry_answer _ _ _ Hanswer). cbn [option_list].
  eexists. split; [reflexivity|]. split; [reflexivity|].
  destruct (enrichSegment_wf [obj [("code", first); ("name", name)]] s w1 Hs)
    as (s' & w2 & Hrun & _ & _ & _ & Hname & _).
  { repeat constructor. eexists. reflexivity. }
  exists s', w2. split; [exact Hrun|]. rewrite Hname.
  unfold airlineNameOf. rewrite Hcode. cbn [find_by].
  rewrite (proj1 (get_code_of_entry _ _)). cbn [obind].
  destruct (strict_eq first code); cbn [obind truthy];
    [apply get_code_of_entry | reflexivity].
Qed.

(** ** The details page *)

Lemma entries_resolved (reply : option value) : entries (option_list (resolved reply)).
Proof.
  unfold resolved. destruct reply as [data|]; [|apply Forall_nil_2].
  destruct (airlineEntry data) as [entry|] eqn:Hentry; [|apply Forall_nil_2].
  repeat constructor. now apply airlineEntry_object in Hentry.
Qed.

(** X19.  When the search finds the offer, pricing succeeds, and the
    first priced offer has segments with both endpoints and a [price],
    [/flight-details] renders.  It has then issued, in this order, the
    search, the pricing call, one airline lookup for the first carrier of
    the offer found, and two location lookups per segment of the priced
    offer.  The page shows the priced offer with its segments enriched and
    everything else as upstream sent it, the [total] of its price, and its
    [totalTaxes] or else "N/A". *)
Theorem flight_details_renders_priced_offer
    (query : gmap string value) (found flightOffer code flightDetails data priced : value)
    (others : list value) (price : gmap string value) (w : world) :
  let offerId := query_param query "offerId" in
  let search :=
    searchCall w (query_param query "originCode") (query_param query "destinationCode")
      (query_param query "departureDate") in
  let pricing := pricingCall w flightOffer in
  let airline := airlineCall (authorization_of w) code in
  let airlines := option_list (resolved (upstream (calls w ++ [search; pricing]) airline)) in
  truthy offerId = true ->
  upstream (calls w) search = Some found ->
  findOffer offerId found = Ok flightOffer -> truthy flightOffer = true ->
  firstCarrierCode flightOffer = Ok code ->
  upstream (calls w ++ [search]) pricing = Some flightDetails ->
  get_prop flightDetails "data" = Ok data ->
  get_prop data "flightOffers" = Ok (VArr (priced :: others)) ->
  wf_offer priced -> get_prop priced "price" = Ok (VObj price) ->
  exists flight,
    flight_details query w =
      (Ok (Render "flight-details"
             (obj [("title", VStr "Flight Details");
                   ("flight", flight);
                   ("totalPrice", default VUndef (price !! "total"));
                   ("totalTax",
                    or_else (default VUndef (price !! "totalTaxes")) (VStr "N/A"))])),
       issued w ([search; pricing; airline]
                 ++ concat (endpoint_lookups (authorization_of w) <$> segments_of priced)))
    /\ same_outside ["itineraries"] priced flight
    /\ Forall2 (enriches airlines) (segments_of priced) (segments_of flight).
Proof.
  intros offerId search pricing airline airlines
         Hid Hsearch Hfind Hoffer Hcode Hpricing Hdata Hoffers Hwf Hprice.
  subst offerId search pricing airline airlines.
  unfold searchCall, pricingCall in Hsearch, Hpricing |- *.
  match goal with
  | |- context [enriches ?a] =>
      assert (entries a) as Hentries by apply entries_resolved;
      set (airlines := a) in Hentries |- *
  end.
  match goal with
  | |- context [issued w (?cs ++ _)] =>
      destruct (enrichOffer_wf airlines priced (issued w cs) Hwf Hentries)
        as (flight & w' & Hrun & _ & Hsame & _ & Hsegments);
      destruct (enrichOffer_lookups airlines priced (issued w cs) Hwf Hentries)
        as (flight' & Hrun')
  end.
  rewrite Hrun in Hrun'. injection Hrun' as <- ->.
  exists flight. split; [|split; assumption].
  unfold flight_details. rewrite Hid. cbn [negb]. unfold try_catch.
  rewrite bind_bearer, bind_axios, Hsearch, bind_lift, Hfind, Hoffer.
  cbn [negb]. rewrite bind_bearer, bind_axios.
  change (calls (issued w ?cs)) with (calls w ++ cs).
  change (authorization_of (issued w ?cs)) with (authorization_of w).
  rewrite Hpricing.
  rewrite (bind_ok _ _ _ _ _ (getAirlinesFromFlightOffers_one _ _ _ Hcode)).
  rewrite !issued_issued. cbn [app].
  change (calls (issued w ?cs)) with (calls w ++ cs).
  change (authorization_of (issued w ?cs)) with (authorization_of w).
  fold airlines.
  rewrite bind_lift, Hdata. cbn [obind]. rewrite Hoffers.
  cbn [obind get_index lookup list_lookup default from_option id].
  rewrite (bind_ok _ _ _ _ _ Hrun). unfold lift.
  rewrite (Hsame "price")
    by (rewrite not_elem_of_cons; split; [discriminate | apply not_elem_of_nil]).
  rewrite Hprice. cbn [obind get_prop]. now rewrite issued_issued.
Qed.

(** ** The search page survives its lookups *)

Lemma first_leg_carrier (flight departureCode arrivalCode : value) :
  first_leg flight departureCode arrivalCode ->
  exists code, firstCarrierCode flight = Ok code.
Proof.
  forget_server.
  intros (itineraries & itinerary & segments & segment & departure & arrival
          & H1 & H2 & H3 & H4 & H5 & _).
  unfold firstCarrierCode, firstSegment. rewrite H1. cbn [obind]. rewrite H2. cbn [obind].
  rewrite H3. cbn [obind]. rewrite H4. cbn [obind].
  destruct segment; try discriminate; eexists; reflexivity.
Qed.

Lemma Forall_filter {A} (P : A -> Prop) (keep : A -> bool) (l : list A) :
  Forall P l -> Forall P (List.filter keep l).
Proof.
  forget_server. induction 1 as [|x l Hx _ IH]; cbn; [constructor|].
  destruct (keep x); [now constructor | exact IH].
Qed.

Lemma map_by_total {A} (f : value -> outcome A) (xs : list value) :
  Forall (fun x => exists y, f x = Ok y) xs -> exists ys, map_by f xs = Ok ys.
Proof.
  forget_server. induction 1 as [|x xs [y Hy] _ [ys IH]]; cbn.
  - now exists [].
  - exists (y :: ys). now rewrite Hy, IH.
Qed.

(** X20.  When the search succeeds and every offer of its result has a
    first segment with both endpoints, [/flight-offers] renders the page,
    whatever its lookups of city names, related codes and airlines answer:
    a rejected lookup never turns the search into an error. *)
Theorem flight_offers_renders_well_formed
    (query : gmap string value) (flightData : value) (offers : list value) (w : world) :
  let originCode := query_param query "originCode" in
  let destinationCode := query_param query "destinationCode" in
  let departureDate := query_param query "departureDate" in
  upstream (calls w) (searchCall w originCode destinationCode departureDate)
    = Some flightData ->
  get_prop flightData "data" = Ok (VArr offers) ->
  Forall (fun flight => exists departureCode arrivalCode,
            first_leg flight departureCode arrivalCode) offers ->
  exists locals flights w',
    flight_offers query w = (Ok (Render "flight-offers" locals), w')
    /\ get_prop locals "flights" = Ok (VArr flights)
    /\ get_prop locals "query" = Ok (VObj query)
    /\ filteredFlights originCode
         (related_codes destinationCode
            (issued w (take 3 (searchAndLookups w originCode destinationCode
                                 departureDate)))) flightData = Ok flights.
Proof.
  intros originCode destinationCode departureDate Hsearch Hdata Hlegs.
  destruct (flight_offers_run query flightData w Hsearch)
    as (originCity & destinationCity & ->).
  fold originCode destinationCode departureDate.
  set (related := related_codes destinationCode _).
  set (keep := fun flight =>
                 match departsAndArrives originCode related flight with
                 | Ok b => b
                 | Throw => false
                 end).
  assert (filteredFlights originCode related flightData = Ok (List.filter keep offers))
    as Hfilter.
  { unfold filteredFlights. rewrite Hdata. cbn [obind as_array].
    apply filter_by_total. eapply Forall_impl; [exact Hlegs|].
    intros flight (departureCode & arrivalCode & Hleg). unfold keep.
    now rewrite (departsAndArrives_first_leg _ _ _ _ _ Hleg). }
  rewrite Hfilter.
  destruct (map_by_total firstCarrierCode (List.filter keep offers))
    as (carrierCodes & Hcodes).
  { apply Forall_filter. eapply Forall_impl; [exact Hlegs|].
    intros flight (departureCode & arrivalCode & Hleg).
    now apply first_leg_carrier in Hleg. }
  rewrite (getAirlinesFromFlightOffers_unfold _ _ _ Hcodes), resolveAirlines_replies.
  eexists _, _, _. split; [reflexivity|]. repeat split; reflexivity.
Qed.

End Server.

(** * Concrete runs *)

Lemma wf_connecting : wf_offer Samples.connecting.
Proof.
  eexists _, _. split; [reflexivity|]. split; [reflexivity|].
  repeat constructor.
  eexists _, _. split; [reflexivity|]. split; [reflexivity|].
  repeat constructor; (eexists _, _, _; split; [reflexivity|]; split; reflexivity).
Defined.

Lemma wf_booking_sample : wf_booking Samples.booking.
Proof.
  eexists _, _. split; [reflexivity|]. split; [reflexivity|].
  repeat constructor. exact wf_connecting.
Defined.

Lemma enrichment_keeps_upstream_fields_witness :
  exists offer' w' segments' w'',
    enrichOffer Samples.api (Clock.Date_of 0) [] Samples.connecting Samples.start
      = (Ok offer', w')
    /\ length (segments_of offer') = 2%nat
    /\ bookedSegments Samples.api Samples.booking Samples.start = (Ok segments', w'')
    /\ length segments' = 2%nat.
Proof.
  destruct (enrichment_keeps_upstream_fields Samples.api (Clock.Date_of 0) []
              Samples.connecting Samples.booking Samples.start
              wf_connecting (Forall_nil_2 _) wf_booking_sample)
    as [(offer' & w' & Hrun & _ & _ & Hlen & _) (segments' & w'' & Hrun' & Hlen' & _)].
  exists offer', w', segments', w''. repeat split; assumption.
Defined.

(** C1 as stated fails: [/flight-details] gives a departure that has no
    terminal the terminal "N/A", and [/booked-flight] hands back endpoints
    without their terminal and segments without [airlineName] and
    [flightDuration]. *)
Lemma enrichment_changes_terminals :
  (fun s => read s ["departure"; "terminal"]) <$> segments_of Samples.jfk_lhr
    = [Ok VUndef]
  /\ match (enrichOffer Samples.api (Clock.Date_of 0) [] Samples.jfk_lhr Samples.start).1 with
     | Ok offer' => (fun s => read s ["departure"; "terminal"]) <$> segments_of offer'
     | Throw => []
     end = [Ok (VStr "N/A")]
  /\ (fun s => read s ["arrival"; "terminal"]) <$> booking_segments Samples.booking
     = [Ok VUndef; Ok (VStr "2E")]
  /\ match (bookedSegments Samples.api Samples.booking Samples.start).1 with
     | Ok segments' =>
         (fun s => (read s ["arrival"; "terminal"], read s ["airlineName"],
                    read s ["flightDuration"])) <$> segments'
     | Throw => []
     end = [(Ok VUndef, Ok VUndef, Ok VUndef); (Ok VUndef, Ok VUndef, Ok VUndef)].
Proof. vm_compute. repeat split; reflexivity. Qed.

Lemma wf_first_leg : wf_segment (Samples.segment "1" "BA"
                                   (Samples.endpoint "JFK" "2024-01-01T10:00" None)
                                   (Samples.endpoint "LHR" "2024-01-01T12:30" (Some "5"))).
Proof. eexists _, _, _. split; [reflexivity|]. split; reflexivity. Defined.

Lemma flightDuration_hours_and_remainder_witness :
  exists s' w',
    enrichSegment Samples.api (Clock.Date_of 0) []
      (Samples.segment "1" "BA"
         (Samples.endpoint "JFK" "2024-01-01T10:00" None)
         (Samples.endpoint "LHR" "2024-01-01T12:30" (Some "5")))
      Samples.start = (Ok s', w')
    /\ get_prop s' "flightDuration" = Ok (VStr "2h 30m").
Proof.
  destruct (flightDuration_hours_and_remainder Samples.api (Clock.Date_of 0) []
              _ (VStr "2024-01-01T10:00") (VStr "2024-01-01T12:30")
              1704103200000 1704112200000 Samples.start
              wf_first_leg (Forall_nil_2 _) eq_refl eq_refl eq_refl eq_refl eq_refl)
    as [(s' & w' & Hrun & Hfield) _].
  exists s', w'. split; [exact Hrun | exact Hfield].
Defined.

(** C4 as stated fails on a negative duration: from 12:30 back to 10:00
    the code renders "-3h -30m", where [floor (d / 60)] hours and
    [d mod 60] minutes would read "-3h 30m". *)
Lemma negative_minutes_are_not_a_modulus :
  Clock.Date_of 0 (VStr "2024-01-01T12:30") = Some 1704112200000
  /\ Clock.Date_of 0 (VStr "2024-01-01T10:00") = Some 1704103200000
  /\ flightDuration (Some 1704112200000) (Some 1704103200000) = "-3h -30m"
  /\ stated_duration 1704112200000 1704103200000 = "-3h 30m"
  /\ flightDuration (Some 1704112200000) (Some 1704103200000)
     <> stated_duration 1704112200000 1704103200000.
Proof. repeat split; try reflexivity. vm_compute. discriminate. Qed.

Lemma getCityAndAirportName_first_match_or_fallback_witness :
  (getCityAndAirportName Samples.api (VStr "LHR") Samples.start).1
    = Ok (Location (VStr "London") (VStr "Heathrow"))
  /\ (getCityAndAirportName Samples.down (VStr "LHR") Samples.start).1
     = Ok (unknownAt (VStr "LHR"))
  /\ (getCityAndAirportName Samples.nothing (VStr "LHR") Samples.start).1
     = Ok (unknownAt (VStr "LHR"))
  /\ (getCityAndAirportName Samples.cityless (VStr "XXX") Samples.start).1
     = Ok (Location (VStr "XXX") (VStr "Somewhere"))
  /\ (getCityAndAirportName Samples.nameless (VStr "YYY") Samples.start).1
     = Ok (unknownAt (VStr "YYY")).
Proof.
  destruct (getCityAndAirportName_first_match_or_fallback Samples.api
              (VStr "LHR") Samples.start) as (Hmatch & _).
  destruct (getCityAndAirportName_first_match_or_fallback Samples.down
              (VStr "LHR") Samples.start) as (_ & Hrejected & _).
  destruct (getCityAndAirportName_first_match_or_fallback Samples.nothing
              (VStr "LHR") Samples.start) as (_ & _ & Hempty & _).
  destruct (getCityAndAirportName_first_match_or_fallback Samples.cityless
              (VStr "XXX") Samples.start) as (_ & _ & _ & _ & Hfields & _).
  destruct (getCityAndAirportName_first_match_or_fallback Samples.nameless
              (VStr "YYY") Samples.start) as (_ & _ & _ & _ & _ & Hbare).
  split; [|split; [|split; [|split]]].
  - eapply Hmatch; reflexivity.
  - apply Hrejected. reflexivity.
  - eapply Hempty; reflexivity.
  - eapply (Hfields _ _ _ _ (VStr "") (VStr "Somewhere")); reflexivity.
  - eapply Hbare; [reflexivity | reflexivity | reflexivity | left; reflexivity].
Defined.

Lemma getRelatedAirportCodes_codes_or_input_witness :
  (getRelatedAirportCodes Samples.api (VStr "LHR") Samples.start).1 = Ok [VStr "LHR"]
  /\ (getRelatedAirportCodes Samples.down (VStr "LON") Samples.start).1 = Ok [VStr "LON"].
Proof.
  split.
  - eapply (proj1 (getRelatedAirportCodes_codes_or_input Samples.api
                     (VStr "LHR") Samples.start)); [reflexivity | reflexivity |].
    repeat constructor.
  - apply (proj1 (proj2 (getRelatedAirportCodes_codes_or_input Samples.down
                           (VStr "LON") Samples.start))). reflexivity.
Defined.

(** C6 as stated fails: on a successful lookup with a match, the match's
    fields are not always what is returned.  A first record with a name
    and no address gives the fallback, name included; one with an empty
    city name gives the input code as the city. *)
Lemma first_match_fields_can_be_lost :
  Samples.nameless [] (locationCall "Bearer secret" (VStr "XXX") "AIRPORT,CITY")
    = Some (obj [("data", VArr [obj [("iataCode", VStr "XXX");
                                     ("name", VStr "Somewhere")]])])
  /\ (getCityAndAirportName Samples.nameless (VStr "XXX") Samples.start).1
     = Ok (Location (VStr "XXX") (VStr "Unknown Airport"))
  /\ Samples.cityless [] (locationCall "Bearer secret" (VStr "XXX") "AIRPORT,CITY")
     = Some (obj [("data", VArr [Samples.place "XXX" "" "Somewhere"])])
  /\ read (Samples.place "XXX" "" "Somewhere") ["address"; "cityName"] = Ok (VStr "")
  /\ (getCityAndAirportName Samples.cityless (VStr "XXX") Samples.start).1
     = Ok (Location (VStr "XXX") (VStr "Somewhere")).
Proof. repeat split; reflexivity. Qed.

(** C2 as stated fails: when the lookup succeeds and matches no airport,
    the sequence returned is empty. *)
Lemma getRelatedAirportCodes_can_be_empty :
  Samples.nothing [] (locationCall "Bearer secret" (VStr "LON") "AIRPORT")
    = Some (obj [("data", VArr [])])
  /\ (getRelatedAirportCodes Samples.nothing (VStr "LON") Samples.start).1 = Ok [].
Proof. split; reflexivity. Qed.

Lemma airline_names_resolved_once_per_batch_witness :
  (exists airlines,
      getAirlinesFromFlightOffers Samples.api Samples.offers Samples.start =
        (Ok airlines,
         issued Samples.start
           [airlineCall "Bearer secret" (VStr "BA");
            airlineCall "Bearer secret" (VStr "AF");
            airlineCall "Bearer secret" (VStr "ZZ")]))
  /\ at_most 1 Samples.start
       (flight_details Samples.api (Clock.Date_of 0) Samples.details_query
          Samples.start).2
  /\ exists offer' w',
       enrichOffer Samples.api (Clock.Date_of 0)
         [obj [("code", VStr "BA"); ("name", VStr "British Airways")]]
         Samples.connecting Samples.start = (Ok offer', w')
       /\ Forall (fun s' => get_prop s' "carrierCode" = Ok (VStr "BA") ->
                            get_prop s' "airlineName" = Ok (VStr "British Airways"))
            (segments_of offer').
Proof.
  destruct (airline_names_resolved_once_per_batch Samples.api (Clock.Date_of 0)
              Samples.offers ["BA"; "AF"; "BA"; "ZZ"] Samples.start eq_refl)
    as (_ & _ & Hresolver & _ & _ & Hbudget & _ & _ & Hnamed & _).
  split; [exact Hresolver|]. split; [apply Hbudget|].
  assert (entries [obj [("code", VStr "BA"); ("name", VStr "British Airways")]])
    as Hentries by (repeat constructor; eexists; reflexivity).
  destruct (enrichOffer_wf Samples.api (Clock.Date_of 0) _ Samples.connecting
              Samples.start wf_connecting Hentries) as (offer' & w' & Hrun & _).
  exists offer', w'. split; [exact Hrun|].
  eapply Forall_impl; [exact (Hnamed _ _ _ _ _ Hentries Hrun)|].
  intros s' Hs' Hcode. destruct (Hs' _ Hcode) as [Hentry _].
  rewrite (Hentry (obj [("code", VStr "BA"); ("name", VStr "British Airways")]));
    [reflexivity|].
  exists [], [], (VStr "BA"). repeat split. constructor.
Defined.

(** A run of [/flight-details] on the sample upstream: the offer of two
    legs flown by one carrier is rendered with one name for both. *)
Lemma flight_details_sample :
  match (flight_details Samples.api (Clock.Date_of 0) Samples.connecting_query
           Samples.start).1 with
  | Ok (Render view locals) =>
      (view,
       match get_prop locals "flight" with
       | Ok flight =>
           (fun s => (get_prop s "carrierCode", get_prop s "airlineName",
                      get_prop s "flightDuration")) <$> segments_of flight
       | Throw => []
       end)
  | _ => ("", [])
  end
  = ("flight-details",
     [(Ok (VStr "BA"), Ok (VStr "British Airways"), Ok (VStr "12h 5m"));
      (Ok (VStr "BA"), Ok (VStr "British Airways"), Ok (VStr "2h 20m"))]).
Proof. vm_compute. reflexivity. Qed.

Lemma first_legs_of_offers :
  Forall (fun flight => exists departureCode arrivalCode,
            first_leg flight departureCode arrivalCode) Samples.offers.
Proof.
  repeat constructor; eexists _, _, _, _, _, _, _, _; repeat split; reflexivity.
Defined.

Lemma filteredFlights_retains_matching_first_leg_witness :
  exists keep : value -> bool,
    filteredFlights (VStr "JFK") [VStr "LHR"] (obj [("data", VArr Samples.offers)])
      = Ok (List.filter keep Samples.offers).
Proof.
  destruct (filteredFlights_retains_matching_first_leg Samples.api (fun _ => true)
              (VStr "JFK") [VStr "LHR"]
              Samples.offers (obj [("data", VArr Samples.offers)])
              eq_refl first_legs_of_offers) as [(keep & _ & Hrun) _].
  exists keep. exact Hrun.
Defined.

Lemma answers_for (code name : string) :
  In (code, name) [("BA", "British Airways"); ("AF", "Air France")] ->
  answers_with (Samples.airline_directory (VStr code)) (VStr code) (VStr name).
Proof.
  intros [[= <- <-]|[[= <- <-]|[]]];
    eexists _, _, _, _, _; repeat split; reflexivity.
Defined.

Lemma failed_airline_lookup_is_omitted_witness :
  exists airlines,
    getAirlinesFromFlightOffers Samples.api
      [Samples.jfk_lhr; Samples.lga_cdg; Samples.jfk_cdg] Samples.start =
      (Ok airlines,
       issued Samples.start
         [airlineCall "Bearer secret" (VStr "BA");
          airlineCall "Bearer secret" (VStr "ZZ");
          airlineCall "Bearer secret" (VStr "AF")])
    /\ length airlines = 2%nat.
Proof.
  destruct (failed_airline_lookup_is_omitted Samples.api (Clock.Date_of 0)
              [Samples.jfk_lhr; Samples.lga_cdg; Samples.jfk_cdg]
              [VStr "BA"; VStr "ZZ"; VStr "AF"] [VStr "BA"] [VStr "AF"] (VStr "ZZ")
              [Samples.airline_directory (VStr "BA")]
              [Samples.airline_directory (VStr "AF")] Samples.start
              eq_refl eq_refl eq_refl)
    as (airlines & Hrun & Hentries & _).
  { repeat constructor. exists (VStr "British Airways"). apply answers_for. cbn. auto. }
  { repeat constructor. exists (VStr "Air France"). apply answers_for. cbn. auto. }
  exists airlines. split; [exact Hrun|].
  symmetry. exact (Forall2_length _ _ _ Hentries).
Defined.

Lemma confirm_booking_missing_field_witness :
  confirm_booking Samples.api Uri.encodeURIComponent
    (delete "travelerPhone" (Samples.request "Mary Smith")) Samples.start
    = (Ok missingFields, Samples.start)
  /\ ensureAuthenticated Samples.api (VStr "client") (VStr "secret")
       (confirm_booking Samples.api Uri.encodeURIComponent
          (delete "travelerPhone" (Samples.request "Mary Smith"))) Samples.start
     = (Ok missingFields, Samples.start).
Proof.
  destruct (confirm_booking_missing_field Samples.api Uri.encodeURIComponent
              (VStr "client") (VStr "secret")
              (delete "travelerPhone" (Samples.request "Mary Smith"))
              "travelerPhone" Samples.start) as [Hrun Hguarded].
  - unfold requiredFields. rewrite !elem_of_cons. auto.
  - reflexivity.
  - split; [exact Hrun | apply Hguarded; reflexivity].
Defined.




Lemma empty_airline_reply_is_omitted_witness :
  exists entry,
    getAirlinesFromFlightOffers Samples.api
      [Samples.jfk_lhr; Samples.jfk_lhr_unknown] Samples.start =
      (Ok [entry],
       issued Samples.start
         [airlineCall "Bearer secret" (VStr "BA");
          airlineCall "Bearer secret" (VStr "QQ")])
    /\ get_prop entry "code" = Ok (VStr "BA").
Proof.
  destruct (empty_airline_reply_is_omitted Samples.api
              [Samples.jfk_lhr; Samples.jfk_lhr_unknown]
              [VStr "BA"; VStr "QQ"] [VStr "BA"] [] (VStr "QQ")
              [Samples.airline_directory (VStr "BA")] []
              (Samples.airline_directory (VStr "QQ")) Samples.start
              eq_refl eq_refl eq_refl eq_refl)
    as [_ Hrun].
  { left. eexists. split; reflexivity. }
  eexists. split; [exact Hrun | reflexivity].
Defined.

(** ** Runs of the remaining functions *)

Lemma middleware_token_lifecycle_witness :
  ensureAuthenticated Samples.api (VStr "client") (VStr "hidden") landing Samples.start
    = landing Samples.start
  /\ ensureAuthenticated Samples.api (VStr "client") (VStr "hidden") landing Samples.fresh
     = landing (World (VStr "secret")
                  [credentialExchange (VStr "client") (VStr "hidden")])
  /\ ensureAuthenticated Samples.down (VStr "client") (VStr "hidden") landing Samples.fresh
     = landing (World (VStr "")
                  [credentialExchange (VStr "client") (VStr "hidden")]).
Proof.
  destruct (middleware_token_lifecycle Samples.api (VStr "client") (VStr "hidden")
              landing (VStr "LHR") Samples.start) as (Hkept & _ & _).
  destruct (middleware_token_lifecycle Samples.api (VStr "client") (VStr "hidden")
              landing (VStr "LHR") Samples.fresh) as (_ & Hset & _).
  destruct (middleware_token_lifecycle Samples.down (VStr "client") (VStr "hidden")
              landing (VStr "LHR") Samples.fresh) as (_ & _ & Hfailed).
  split; [apply Hkept; reflexivity|]. split.
  - eapply (proj1 (Hset _ _ eq_refl eq_refl eq_refl)).
  - apply Hfailed; [reflexivity | left; reflexivity].
Defined.

Lemma getCityNameFromIATA_name_or_code_witness :
  (getCityNameFromIATA Samples.api Samples.positive (VStr "LHR") Samples.start).1
    = Ok (VStr "London")
  /\ (getCityNameFromIATA Samples.nothing Samples.positive (VStr "LHR") Samples.start).1
     = Ok (VStr "LHR")
  /\ (getCityNameFromIATA Samples.down Samples.positive (VStr "LHR") Samples.start).1
     = Ok (VStr "LHR").
Proof.
  split; [|split].
  - eapply (proj1 (proj2 (getCityNameFromIATA_name_or_code Samples.api Samples.positive
                            (VStr "LHR") Samples.start (fun n => eq_refl)))
              _ _ _ _ (VStr "London"));
      reflexivity.
  - eapply (proj1 (proj2 (proj2 (getCityNameFromIATA_name_or_code Samples.nothing
                                   Samples.positive (VStr "LHR") Samples.start
                                   (fun n => eq_refl)))));
      reflexivity.
  - apply (proj2 (proj2 (proj2 (getCityNameFromIATA_name_or_code Samples.down
                                  Samples.positive (VStr "LHR") Samples.start
                                  (fun n => eq_refl))))).
    reflexivity.
Defined.

Lemma getCityAndAirportName_field_fallbacks_witness :
  (getCityAndAirportName Samples.api (VStr "LHR") Samples.start).1
    = Ok (Location (VStr "London") (VStr "Heathrow"))
  /\ (getCityAndAirportName Samples.nameless (VStr "XXX") Samples.start).1
     = Ok (unknownAt (VStr "XXX")).
Proof.
  split.
  - eapply (proj1 (getCityAndAirportName_field_fallbacks Samples.api (VStr "LHR")
                     Samples.start) _ _ _ _ (VStr "London") (VStr "Heathrow"));
      reflexivity.
  - eapply (proj2 (getCityAndAirportName_field_fallbacks Samples.nameless (VStr "XXX")
                     Samples.start)); reflexivity.
Defined.

Lemma getAirlineName_name_or_code_witness :
  (getAirlineName Samples.api Samples.positive (VStr "BA") Samples.start).1
    = Ok (VStr "British Airways")
  /\ (getAirlineName Samples.nothing Samples.positive (VStr "BA") Samples.start).1
     = Ok (VStr "BA")
  /\ (getAirlineName Samples.down Samples.positive (VStr "BA") Samples.start).1
     = Ok (VStr "BA").
Proof.
  split; [|split].
  - eapply (proj1 (proj2 (getAirlineName_name_or_code Samples.api Samples.positive
                            (VStr "BA") Samples.start (fun n => eq_refl)))
              _ _ _ (VStr "British Airways") VUndef);
      reflexivity.
  - eapply (proj1 (proj2 (proj2 (getAirlineName_name_or_code Samples.nothing
                                   Samples.positive (VStr "BA") Samples.start
                                   (fun n => eq_refl)))));
      reflexivity.
  - apply (proj2 (proj2 (proj2 (getAirlineName_name_or_code Samples.down
                                  Samples.positive (VStr "BA") Samples.start
                                  (fun n => eq_refl))))).
    reflexivity.
Defined.

Lemma unnamed_airline_is_not_the_code_witness :
  getAirlinesFromFlightOffers Samples.anonymous [Samples.jfk_lhr] Samples.start =
    (Ok [obj [("code", VStr "BA"); ("name", VUndef)]],
     issued Samples.start [airlineCall "Bearer secret" (VStr "BA")])
  /\ exists s' w2,
       enrichSegment Samples.anonymous (Clock.Date_of 0)
         [obj [("code", VStr "BA"); ("name", VUndef)]]
         (Samples.segment "1" "BA"
            (Samples.endpoint "JFK" "2024-01-01T10:00" None)
            (Samples.endpoint "LHR" "2024-01-01T12:30" (Some "5")))
         Samples.start = (Ok s', w2)
       /\ get_prop s' "airlineName" = Ok VUndef.
Proof.
  eapply (unnamed_airline_is_not_the_code Samples.anonymous (Clock.Date_of 0)
            Samples.jfk_lhr _ _ _ _ "BA" VUndef VUndef Samples.start Samples.start);
    try reflexivity.
  exact wf_first_leg.
Defined.

Lemma getAirlinesFromFlightOffers_shape_witness :
  getAirlinesFromFlightOffers Samples.api [VObj ∅] Samples.start = (Throw, Samples.start)
  /\ exists airlines,
       getAirlinesFromFlightOffers Samples.api Samples.offers Samples.start =
         (Ok airlines,
          issued Samples.start
            (airlineCall "Bearer secret" <$> [VStr "BA"; VStr "AF"; VStr "ZZ"]))
       /\ (length airlines <= 3 <= 4)%nat.
Proof.
  split.
  - apply (proj1 (getAirlinesFromFlightOffers_shape Samples.api [VObj ∅] Samples.start)).
    left. reflexivity.
  - destruct (proj2 (getAirlinesFromFlightOffers_shape Samples.api Samples.offers
                       Samples.start) [VStr "BA"; VStr "AF"; VStr "BA"; VStr "ZZ"])
      as (airlines & Hrun & Hlength & _).
    { repeat constructor. }
    exists airlines. split; [exact Hrun | exact Hlength].
Defined.

Lemma findOffer_first_match_witness :
  findOffer (VStr "3") (obj [("data", VArr Samples.offers)]) = Ok Samples.lga_lhr
  /\ findOffer (VStr "7") (obj [("data", VArr Samples.offers)]) = Ok VUndef.
Proof.
  split.
  - apply (proj1 (findOffer_first_match (VStr "3") (obj [("data", VArr Samples.offers)])
                    Samples.offers eq_refl) Samples.lga_lhr).
    split; [reflexivity|].
    exists [Samples.jfk_lhr; Samples.jfk_cdg], [Samples.lga_cdg], (VStr "3").
    repeat split. repeat constructor; eexists; split; reflexivity.
  - apply (proj2 (findOffer_first_match (VStr "7") (obj [("data", VArr Samples.offers)])
                    Samples.offers eq_refl)).
    repeat constructor; eexists; split; reflexivity.
Defined.

Lemma flight_offers_failures_witness :
  flight_offers Samples.down Samples.positive Samples.details_query Samples.start =
    (Ok (Send 500 "Error fetching flight offers"),
     issued Samples.start
       [searchCall Samples.start (VStr "JFK") (VStr "LHR") (VStr "2024-01-01")])
  /\ flight_offers Samples.broken Samples.positive Samples.details_query Samples.start =
       (Ok (Send 500 "Error fetching flight offers"),
        issued Samples.start
          (searchAndLookups Samples.start (VStr "JFK") (VStr "LHR") (VStr "2024-01-01"))).
Proof.
  split.
  - apply (proj1 (flight_offers_failures Samples.down Samples.positive
                    Samples.details_query Samples.start)).
    reflexivity.
  - eapply (proj1 (proj2 (flight_offers_failures Samples.broken Samples.positive
                            Samples.details_query Samples.start)));
      [reflexivity | reflexivity |].
    right. left. reflexivity.
Defined.

Lemma search_sample :
  exists locals w',
    flight_offers Samples.api Samples.positive Samples.details_query Samples.start
      = (Ok (Render "flight-offers" locals), w').
Proof. eexists _, _. vm_compute. reflexivity. Qed.

Lemma flight_offers_renders_only_retained_witness :
  exists locals w' flights airlines,
    flight_offers Samples.api Samples.positive Samples.details_query Samples.start
      = (Ok (Render "flight-offers" locals), w')
    /\ get_prop locals "flights" = Ok (VArr flights)
    /\ get_prop locals "airlines" = Ok (VArr airlines)
    /\ sublist flights (Samples.offers ++ [Samples.connecting])
    /\ (length airlines <= length flights)%nat.
Proof.
  destruct search_sample as (locals & w' & Hrun).
  destruct (flight_offers_renders_only_retained Samples.api Samples.positive
              Samples.details_query "flight-offers" locals Samples.start w' Hrun)
    as (flightData & offers & flights & airlines & carrierCodes
        & Hsearch & Hdata & Hflights & Hairlines & Hsub & _ & _ & Hlength & _).
  injection Hsearch as <-. injection Hdata as <-.
  exists locals, w', flights, airlines. repeat split; assumption.
Defined.

Lemma flight_details_failures_witness :
  flight_details Samples.api (Clock.Date_of 0) ∅ Samples.start =
    (Ok (Send 400 "Flight offer ID is required"), Samples.start)
  /\ flight_details Samples.down (Clock.Date_of 0) Samples.details_query Samples.start =
       (Ok (Send 500 "Error fetching flight details"),
        issued Samples.start
          [searchCall Samples.start (VStr "JFK") (VStr "LHR") (VStr "2024-01-01")])
  /\ flight_details Samples.api (Clock.Date_of 0) Samples.unknown_offer_query
       Samples.start =
       (Ok (Send 404 "Flight offer not found"),
        issued Samples.start
          [searchCall Samples.start (VStr "JFK") (VStr "LHR") (VStr "2024-01-01")])
  /\ flight_details Samples.read_only (Clock.Date_of 0) Samples.details_query
       Samples.start =
       (Ok (Send 500 "Error fetching flight details"),
        issued Samples.start
          [searchCall Samples.start (VStr "JFK") (VStr "LHR") (VStr "2024-01-01");
           pricingCall Samples.start Samples.jfk_lhr]).
Proof.
  split; [|split; [|split]].
  - apply (proj1 (flight_details_failures Samples.api (Clock.Date_of 0) ∅ Samples.start)).
    reflexivity.
  - apply (proj1 (proj2 (flight_details_failures Samples.down (Clock.Date_of 0)
                           Samples.details_query Samples.start)));
      reflexivity.
  - eapply (proj1 (proj2 (proj2 (flight_details_failures Samples.api (Clock.Date_of 0)
                                   Samples.unknown_offer_query Samples.start))));
      [reflexivity | reflexivity | reflexivity |].
    repeat constructor; eexists; split; reflexivity.
  - eapply (proj2 (proj2 (proj2 (flight_details_failures Samples.read_only
                                   (Clock.Date_of 0) Samples.details_query
                                   Samples.start))));
      reflexivity.
Defined.

Lemma enrichment_lookups_two_per_segment_witness :
  (enrichOffer Samples.api (Clock.Date_of 0) [] Samples.connecting Samples.start).2 =
    issued Samples.start
      [locationCall "Bearer secret" (VStr "JFK") "AIRPORT,CITY";
       locationCall "Bearer secret" (VStr "LHR") "AIRPORT,CITY";
       locationCall "Bearer secret" (VStr "LHR") "AIRPORT,CITY";
       locationCall "Bearer secret" (VStr "CDG") "AIRPORT,CITY"]
  /\ (bookedSegments Samples.api Samples.booking Samples.start).2 =
       issued Samples.start
         [locationCall "Bearer secret" (VStr "JFK") "AIRPORT,CITY";
          locationCall "Bearer secret" (VStr "LHR") "AIRPORT,CITY";
          locationCall "Bearer secret" (VStr "LHR") "AIRPORT,CITY";
          locationCall "Bearer secret" (VStr "CDG") "AIRPORT,CITY"].
Proof.
  destruct (enrichment_lookups_two_per_segment Samples.api (Clock.Date_of 0) []
              Samples.connecting Samples.booking Samples.start
              wf_connecting (Forall_nil_2 _) wf_booking_sample)
    as (Hoffer & _ & Hbooking & _).
  split; [exact Hoffer | exact Hbooking].
Defined.

Lemma booked_flight_outcomes_witness :
  booked_flight Samples.api ∅ Samples.start =
    (Ok (Json 400 (obj [("error", VStr "Missing booking ID")])), Samples.start)
  /\ booked_flight Samples.down Samples.booking_query Samples.start =
       (Ok (Json 500 (obj [("error", VStr "Error fetching booking details")])),
        issued Samples.start [orderCall Samples.start (VStr "BK1")])
  /\ exists segments,
       (booked_flight Samples.api Samples.booking_query Samples.start).1 =
         Ok (confirmation Samples.booking_query Samples.booking segments)
       /\ length segments = 2%nat.
Proof.
  split; [|split].
  - apply (proj1 (booked_flight_outcomes Samples.api ∅ Samples.start)). reflexivity.
  - apply (proj1 (proj2 (booked_flight_outcomes Samples.down Samples.booking_query
                           Samples.start)));
      [reflexivity | left; reflexivity].
  - destruct (proj2 (proj2 (proj2 (booked_flight_outcomes Samples.api
                                     Samples.booking_query Samples.start)))
                Samples.booking eq_refl eq_refl wf_booking_sample)
      as (segments & Hrun & Hrebuilt & _).
    exists segments. split; [now rewrite Hrun|].
    symmetry. exact (Forall2_length _ _ _ Hrebuilt).
Defined.



Lemma routes_answer_and_keep_the_token_witness :
  exists answer w' cs,
    ensureAuthenticated Samples.api (VStr "client") (VStr "hidden")
      (flight_offers Samples.api Samples.positive Samples.details_query) Samples.fresh
      = (Ok answer, w')
    /\ calls w' = credentialExchange (VStr "client") (VStr "hidden") :: cs.
Proof.
  destruct (routes_answer_and_keep_the_token Samples.api (Clock.Date_of 0)
              Samples.positive Uri.encodeURIComponent (VStr "client") (VStr "hidden")
              Samples.details_query
              (flight_offers Samples.api Samples.positive Samples.details_query)
              Samples.fresh)
    as (answer & w' & Hrun & _ & Hfresh).
  { unfold routes. rewrite !elem_of_cons. do 3 right. left. reflexivity. }
  destruct (Hfresh eq_refl) as (cs & Hcalls & _).
  exists answer, w', cs. split; [exact Hrun | exact Hcalls].
Defined.

Lemma traveler_name_round_trip_witness :
  exists record firstName lastName,
    traveler (VStr "Mary Smith") (VStr "mary@example.org") (VStr "5550100")
      (VStr "1990-04-01") (VStr "female") = Ok record
    /\ read record ["name"; "firstName"] = Ok (VStr firstName)
    /\ read record ["name"; "lastName"] = Ok (VStr lastName)
    /\ firstName +:+ " " +:+ lastName = "Mary Smith".
Proof.
  destruct (traveler_name_round_trip "Mary Smith" "female" (VStr "mary@example.org")
              (VStr "5550100") (VStr "1990-04-01"))
    as (record & firstName & lastName & Hrun & Hfirst & Hlast & _ & _ & _ & Hone & _).
  exists record, firstName, lastName.
  split; [exact Hrun|]. split; [exact Hfirst|]. split; [exact Hlast|].
  apply Hone. reflexivity.
Defined.

Lemma suggestions_all_or_nothing_witness :
  suggestions Samples.nameless Samples.keyword_query Samples.start =
    (Ok (Send 500 "Error fetching suggestions"),
     issued Samples.start [locationCall "Bearer secret" (VStr "XXX") "AIRPORT,CITY"])
  /\ (exists found,
        hotel_suggestions Samples.nameless Samples.keyword_query Samples.start =
          (Ok (Json 200 (VArr found)),
           issued Samples.start [locationCall "Bearer secret" (VStr "XXX") "CITY,HOTEL"])
        /\ length found = 1%nat)
  /\ suggestions Samples.down Samples.keyword_query Samples.start =
       (Ok (Send 500 "Error fetching suggestions"),
        issued Samples.start [locationCall "Bearer secret" (VStr "XXX") "AIRPORT,CITY"]).
Proof.
  destruct (suggestions_all_or_nothing Samples.nameless Samples.keyword_query
              Samples.start) as (Hairports & Hhotels & _ & _).
  destruct (suggestions_all_or_nothing Samples.down Samples.keyword_query
              Samples.start) as (_ & _ & Hrejected & _).
  split; [|split].
  - apply (proj2 (Hairports _ _ eq_refl eq_refl)). left. reflexivity.
  - destruct (Hhotels _ _ eq_refl eq_refl) as (found & Hrun & Hrel).
    { repeat constructor. eexists. reflexivity. }
    exists found. split; [exact Hrun|]. symmetry. exact (Forall2_length _ _ _ Hrel).
  - apply Hrejected. reflexivity.
Defined.

Lemma hotel_offers_passes_the_reply_on_witness :
  hotel_offers Samples.nothing ∅ Samples.start =
    (Ok (Render "hotel-offers"
           (obj [("title", VStr "Hotel Offers"); ("hotels", VArr []);
                 ("query", VObj ∅)])),
     issued Samples.start [hotelCall "Bearer secret" ∅])
  /\ hotel_offers Samples.down ∅ Samples.start =
       (Ok (Send 500 "Error fetching hotel offers"),
        issued Samples.start [hotelCall "Bearer secret" ∅])
  /\ exists params,
       hotelCall "Bearer secret" ∅ = GET hotelOffersUrl "Bearer secret" params
       /\ get_prop params "adults" = Ok (VNum 1).
Proof.
  destruct (hotel_offers_passes_the_reply_on Samples.nothing ∅ Samples.start)
    as (Hpassed & _ & params & Hcall & _ & _ & _ & _ & Hdefault).
  destruct (hotel_offers_passes_the_reply_on Samples.down ∅ Samples.start)
    as (_ & Hrejected & _).
  split; [|split].
  - eapply Hpassed; reflexivity.
  - apply Hrejected. left. reflexivity.
  - exists params. split; [exact Hcall | apply Hdefault; reflexivity].
Defined.

Lemma wf_second_leg : wf_segment Samples.second_leg.
Proof. eexists _, _, _. split; [reflexivity|]. split; reflexivity. Defined.

Lemma details_name_the_first_carrier_only_witness :
  exists airlines s' w2,
    getAirlinesFromFlightOffers Samples.api [Samples.jfk_lhr] Samples.start =
      (Ok airlines, issued Samples.start [airlineCall "Bearer secret" (VStr "BA")])
    /\ enrichSegment Samples.api (Clock.Date_of 0) airlines Samples.second_leg
         Samples.start = (Ok s', w2)
    /\ get_prop s' "airlineName" = Ok (VStr "AF").
Proof.
  destruct (details_name_the_first_carrier_only Samples.api (Clock.Date_of 0)
              Samples.jfk_lhr Samples.second_leg (VStr "BA") (VStr "British Airways")
              (VStr "AF") Samples.start Samples.start eq_refl)
    as (airlines & Hrun & _ & s' & w2 & Hsegment & Hname);
    [apply (answers_for "BA" "British Airways"); cbn; auto
    | exact wf_second_leg | reflexivity |].
  exists airlines, s', w2. repeat split; assumption.
Defined.

Lemma flight_details_renders_priced_offer_witness :
  exists flight,
    (flight_details Samples.api (Clock.Date_of 0) Samples.connecting_query
       Samples.start).1 =
      Ok (Render "flight-details"
            (obj [("title", VStr "Flight Details");
                  ("flight", flight);
                  ("totalPrice", VStr "510.00");
                  ("totalTax", VStr "N/A")]))
    /\ length (segments_of flight) = 2%nat.
Proof.
  destruct (flight_details_renders_priced_offer Samples.api (Clock.Date_of 0)
              Samples.connecting_query _ Samples.connecting (VStr "BA") _ _
              Samples.connecting [] _ Samples.start
              eq_refl eq_refl eq_refl eq_refl eq_refl eq_refl eq_refl eq_refl
              wf_connecting eq_refl)
    as (flight & Hrun & _ & Hsegments).
  exists flight. split; [now rewrite Hrun|].
  symmetry. exact (Forall2_length _ _ _ Hsegments).
Defined.

Lemma first_legs_of_search :
  Forall (fun flight => exists departureCode arrivalCode,
            first_leg flight departureCode arrivalCode)
    (Samples.offers ++ [Samples.connecting]).
Proof.
  repeat constructor; eexists _, _, _, _, _, _, _, _; repeat split; reflexivity.
Defined.

Lemma flight_offers_renders_well_formed_witness :
  exists locals flights w',
    flight_offers Samples.api Samples.positive Samples.details_query Samples.start
      = (Ok (Render "flight-offers" locals), w')
    /\ get_prop locals "flights" = Ok (VArr flights).
Proof.
  destruct (flight_offers_renders_well_formed Samples.api Samples.positive
              Samples.details_query _ _ Samples.start eq_refl eq_refl
              first_legs_of_search)
    as (locals & flights & w' & Hrun & Hflights & _).
  exists locals, flights, w'. split; [exact Hrun | exact Hflights].
Defined.
